(** * mlat-server: the receiver/aircraft interest graph

    A shallow embedding of [mlat/tracker.py] and [mlat/server/coordinator.py]:
    the aircraft registry ([Tracker]), the per-receiver interest commit
    ([Receiver.update_interest_sets]), the clock-quality scorer inside
    [Coordinator._really_write_state], [Receiver.incrementJumps],
    [Coordinator.forward_results], the connection registry
    ([Coordinator.new_receiver], [receiver_location_update],
    [receiver_disconnect]) and the list of SIGHUP handlers.

    Conventions.
    - Python objects compared by identity (receivers, aircraft) live in two
      heaps indexed by an object identity ([rid], [aid]); a Python [set] of
      objects is a [gset] of identities, so aliasing is kept.
    - Python floats (timestamps, rates, scores) are read as exact rationals
      [Q]; comparisons are the exact ones.
    - [random] and [time.time()] are inputs of the functions that use them.
    - A function that is handed an object passes its identity; applied to
      an identity that is not in the store (which Python cannot express)
      it leaves the store as it is.
    - The sources run on Python up to 3.10 (they use [asyncio.coroutine]),
      where [random.sample] accepts a set. *)

From Stdlib Require Import ZArith QArith Qminmax Lia Lqa.
From stdpp Require Import gmap list fin_maps strings.

Local Open Scope Z_scope.

(** ** Tracker.in_local_partition *)

(** One round [((h >> 16) ^ h) * 0x45d9f3b) & 0xFFFFFFFF]. *)
Definition mix_round (h : Z) : Z :=
  Z.land (Z.lxor (Z.shiftr h 16) h * 0x45d9f3b) 0xFFFFFFFF.

(** The mixed address [h] that [in_local_partition] reduces modulo the
    partition count. *)
Definition partition_hash (icao : Z) : Z :=
  let h := icao in
  let h := mix_round h in
  let h := mix_round h in
  Z.lxor (Z.shiftr h 16) h.

(** [partition] is the pair [(index, count)] handed to [Tracker.__init__],
    which stores [partition_id = partition[0] - 1] and
    [partition_count = partition[1]].  The function is applied with
    [partition_count > 0] (Python raises [ZeroDivisionError] on [0]). *)
Definition in_local_partition (partition : Z * Z) (icao : Z) : bool :=
  let partition_id := fst partition - 1 in
  let partition_count := snd partition in
  if partition_count =? 1 then true
  else (partition_hash icao mod partition_count) =? partition_id.

(** ** Data model *)

(** Object identities: a receiver object and an aircraft object. *)
Abbreviation rid := nat (only parsing).
Abbreviation aid := nat (only parsing).

Definition Qltb (x y : Q) : bool := negb (Qle_bool y x).

Module TrackedAircraft.

(** The attributes of [TrackedAircraft] that the tracker and the coordinator
    read or write.  The solver-owned attributes (message counters, altitude
    history, last result, Kalman state, callsign, squawk) are never touched
    by the embedded functions and are left out. *)
Record t := mk {
  icao : Z;
  allow_mlat : bool;
  tracking : gset rid;
  sync_interest : gset rid;
  adsb_seen : gset rid;
  last_adsb_time : Q;
  last_force_mlat : Q;
  force_mlat : bool;
  mlat_interest : gset rid;
  altitude : option Q;
  seen : Q;
  sync_dont_use : bool;
  sync_bad_percent : Q;
  do_mlat : bool
}.

Definition set_tracking (f : gset rid → gset rid) (a : t) : t :=
  mk (icao a) (allow_mlat a) (f (tracking a)) (sync_interest a) (adsb_seen a)
     (last_adsb_time a) (last_force_mlat a) (force_mlat a) (mlat_interest a)
     (altitude a) (seen a) (sync_dont_use a) (sync_bad_percent a) (do_mlat a).
Definition set_sync_interest (f : gset rid → gset rid) (a : t) : t :=
  mk (icao a) (allow_mlat a) (tracking a) (f (sync_interest a)) (adsb_seen a)
     (last_adsb_time a) (last_force_mlat a) (force_mlat a) (mlat_interest a)
     (altitude a) (seen a) (sync_dont_use a) (sync_bad_percent a) (do_mlat a).
Definition set_adsb_seen (f : gset rid → gset rid) (a : t) : t :=
  mk (icao a) (allow_mlat a) (tracking a) (sync_interest a) (f (adsb_seen a))
     (last_adsb_time a) (last_force_mlat a) (force_mlat a) (mlat_interest a)
     (altitude a) (seen a) (sync_dont_use a) (sync_bad_percent a) (do_mlat a).
Definition set_mlat_interest (f : gset rid → gset rid) (a : t) : t :=
  mk (icao a) (allow_mlat a) (tracking a) (sync_interest a) (adsb_seen a)
     (last_adsb_time a) (last_force_mlat a) (force_mlat a) (f (mlat_interest a))
     (altitude a) (seen a) (sync_dont_use a) (sync_bad_percent a) (do_mlat a).
Definition set_last_force_mlat (v : Q) (a : t) : t :=
  mk (icao a) (allow_mlat a) (tracking a) (sync_interest a) (adsb_seen a)
     (last_adsb_time a) v (force_mlat a) (mlat_interest a)
     (altitude a) (seen a) (sync_dont_use a) (sync_bad_percent a) (do_mlat a).
Definition set_force_mlat (v : bool) (a : t) : t :=
  mk (icao a) (allow_mlat a) (tracking a) (sync_interest a) (adsb_seen a)
     (last_adsb_time a) (last_force_mlat a) v (mlat_interest a)
     (altitude a) (seen a) (sync_dont_use a) (sync_bad_percent a) (do_mlat a).
Definition set_seen (v : Q) (a : t) : t :=
  mk (icao a) (allow_mlat a) (tracking a) (sync_interest a) (adsb_seen a)
     (last_adsb_time a) (last_force_mlat a) (force_mlat a) (mlat_interest a)
     (altitude a) v (sync_dont_use a) (sync_bad_percent a) (do_mlat a).
Definition set_do_mlat (v : bool) (a : t) : t :=
  mk (icao a) (allow_mlat a) (tracking a) (sync_interest a) (adsb_seen a)
     (last_adsb_time a) (last_force_mlat a) (force_mlat a) (mlat_interest a)
     (altitude a) (seen a) (sync_dont_use a) (sync_bad_percent a) v.

(** [TrackedAircraft.__init__(icao, allow_mlat)]: [now] is [time.time()] and
    [rnd] the draw of [random.random()]; [interval] is
    [FORCE_MLAT_INTERVAL]. *)
Definition init (interval : Z) (now rnd : Q) (icao : Z) (allow_mlat : bool) : t :=
  mk icao allow_mlat ∅ ∅ ∅ 0%Q (now - inject_Z interval * rnd)%Q false ∅
     None now false 0%Q false.

(** The [interesting] property. *)
Definition interesting (a : t) : bool :=
  negb (bool_decide (sync_interest a = ∅))
  || (allow_mlat a && negb (bool_decide (mlat_interest a = ∅))).

End TrackedAircraft.

(** Exceptions the embedded code can raise. *)
Inductive exn := ZeroDivisionError | KeyError.

(** The result of a call that mutates [self]: the state it leaves behind,
    and whether it returned or raised. *)
Inductive outcome (A : Type) :=
| Returned (a : A)
| Raised (e : exn) (a : A).
Arguments Returned {A} a.
Arguments Raised {A} e a.

Definition state_of {A} (o : outcome A) : A :=
  match o with Returned a => a | Raised _ a => a end.

Definition returns {A} (o : outcome A) : bool :=
  match o with Returned _ => true | Raised _ _ => false end.

Module Receiver.

(** The attributes of [Receiver] that the embedded functions read or write.
    [last_rate_report] is the dict [icao -> rate] in insertion order. *)
Record t := mk {
  uid : Z;
  user : string;
  dead : bool;
  last_clock_reset : Q;
  clock_reset_counter : Z;
  sync_peers : Z;
  peer_count : nat;
  last_rate_report : option (list (Z * Q));
  tracking : gset aid;
  adsb_seen : gset aid;
  sync_interest : gset aid;
  mlat_interest : gset aid;
  requested : gset aid;
  bad_syncs : Q;
  recent_pair_jumps : Z;
  recent_clock_jumps : Q
}.

(** [Receiver.__init__]: the counters start at zero, the sets empty. *)
Definition init (uid : Z) (user : string) (mono : Q) : t :=
  mk uid user false mono 0 0 0%nat None ∅ ∅ ∅ ∅ ∅ 0%Q 0 0%Q.

Definition set_dead (v : bool) (r : t) : t :=
  mk (uid r) (user r) v (last_clock_reset r) (clock_reset_counter r)
     (sync_peers r) (peer_count r) (last_rate_report r) (tracking r)
     (adsb_seen r) (sync_interest r) (mlat_interest r) (requested r)
     (bad_syncs r) (recent_pair_jumps r) (recent_clock_jumps r).
Definition set_clock_reset (mono : Q) (c : Z) (r : t) : t :=
  mk (uid r) (user r) (dead r) mono c
     (sync_peers r) (peer_count r) (last_rate_report r) (tracking r)
     (adsb_seen r) (sync_interest r) (mlat_interest r) (requested r)
     (bad_syncs r) (recent_pair_jumps r) (recent_clock_jumps r).
Definition set_last_rate_report (v : option (list (Z * Q))) (r : t) : t :=
  mk (uid r) (user r) (dead r) (last_clock_reset r) (clock_reset_counter r)
     (sync_peers r) (peer_count r) v (tracking r)
     (adsb_seen r) (sync_interest r) (mlat_interest r) (requested r)
     (bad_syncs r) (recent_pair_jumps r) (recent_clock_jumps r).
Definition set_tracking (f : gset aid → gset aid) (r : t) : t :=
  mk (uid r) (user r) (dead r) (last_clock_reset r) (clock_reset_counter r)
     (sync_peers r) (peer_count r) (last_rate_report r) (f (tracking r))
     (adsb_seen r) (sync_interest r) (mlat_interest r) (requested r)
     (bad_syncs r) (recent_pair_jumps r) (recent_clock_jumps r).
(** The three assignments that end [update_interest_sets]. *)
Definition set_interest (adsb sync mlat : gset aid) (r : t) : t :=
  mk (uid r) (user r) (dead r) (last_clock_reset r) (clock_reset_counter r)
     (sync_peers r) (peer_count r) (last_rate_report r) (tracking r)
     adsb sync mlat (requested r)
     (bad_syncs r) (recent_pair_jumps r) (recent_clock_jumps r).
Definition set_requested (v : gset aid) (r : t) : t :=
  mk (uid r) (user r) (dead r) (last_clock_reset r) (clock_reset_counter r)
     (sync_peers r) (peer_count r) (last_rate_report r) (tracking r)
     (adsb_seen r) (sync_interest r) (mlat_interest r) v
     (bad_syncs r) (recent_pair_jumps r) (recent_clock_jumps r).
Definition set_bad_syncs (v : Q) (r : t) : t :=
  mk (uid r) (user r) (dead r) (last_clock_reset r) (clock_reset_counter r)
     (sync_peers r) (peer_count r) (last_rate_report r) (tracking r)
     (adsb_seen r) (sync_interest r) (mlat_interest r) (requested r)
     v (recent_pair_jumps r) (recent_clock_jumps r).
Definition set_recent_pair_jumps (v : Z) (r : t) : t :=
  mk (uid r) (user r) (dead r) (last_clock_reset r) (clock_reset_counter r)
     (sync_peers r) (peer_count r) (last_rate_report r) (tracking r)
     (adsb_seen r) (sync_interest r) (mlat_interest r) (requested r)
     (bad_syncs r) v (recent_clock_jumps r).
Definition set_recent_clock_jumps (v : Q) (r : t) : t :=
  mk (uid r) (user r) (dead r) (last_clock_reset r) (clock_reset_counter r)
     (sync_peers r) (peer_count r) (last_rate_report r) (tracking r)
     (adsb_seen r) (sync_interest r) (mlat_interest r) (requested r)
     (bad_syncs r) (recent_pair_jumps r) v.

(** [clock_reset]: the notification of the external clock tracker and the
    throttled log line leave the receiver as it is; [mono] is
    [time.monotonic()]. *)
Definition clock_reset (mono : Q) (self : t) : t :=
  set_clock_reset mono (clock_reset_counter self + 1) self.

(** [incrementJumps].  [recent_pair_jumps / sync_peers] is Python's true
    division of two integers: it raises [ZeroDivisionError] when
    [sync_peers] is [0], after [recent_pair_jumps] has been incremented. *)
Definition incrementJumps (mono : Q) (self : t) : outcome t :=
  let self := set_recent_pair_jumps (recent_pair_jumps self + 1) self in
  if sync_peers self =? 0 then Raised ZeroDivisionError self
  else
    if Qltb 0.2 (inject_Z (recent_pair_jumps self) / inject_Z (sync_peers self))
    then
      let self := set_recent_clock_jumps (recent_clock_jumps self + 1) self in
      let self :=
        if Qltb 2 (recent_clock_jumps self)
        then set_bad_syncs (bad_syncs self + 0.4) self
        else self in
      Returned (clock_reset mono self)
    else Returned self.

End Receiver.

(** ** Configuration and outside inputs *)

(** [FORCE_MLAT_INTERVAL] and [NO_ADSB_MLAT_SECONDS] are read from the
    environment when [tracker.py] is loaded; [MAX_SYNC_AC] and
    [MAX_SYNC_RATE] come from [mlat.config], which is not part of these
    sources and is taken as given. *)
Record Config := {
  FORCE_MLAT_INTERVAL : Z;
  NO_ADSB_MLAT_SECONDS : Z;
  MAX_SYNC_AC : nat;
  MAX_SYNC_RATE : Q;
  partition : Z * Z
}.

(** The environment defaults ([600] and [120] seconds). *)
Definition default_config (max_sync_ac : nat) (max_sync_rate : Q) (partition : Z * Z) : Config :=
  {| FORCE_MLAT_INTERVAL := 600; NO_ADSB_MLAT_SECONDS := 120;
     MAX_SYNC_AC := max_sync_ac; MAX_SYNC_RATE := max_sync_rate;
     partition := partition |}.

(** A rate pair [(rp, r1, ac, rate)] of [update_interest]. *)
Definition ratepair : Type := Q * rid * aid * Q.

(** What a call takes from outside the program: the draws of [random]
    ([random.random()] per aircraft, [random.sample(population, k)],
    [random.shuffle]) and the real power [x ** 1.5], which has no rational
    value in general. *)
Record Oracle := {
  random : Z → Q;
  sample : list aid → nat → list aid;
  shuffle : list ratepair → list ratepair;
  pow15 : Q → Q
}.

(** [random.sample] returns [k] distinct members of the population when
    [k] does not exceed its size (it raises [ValueError] otherwise; every
    call site below stays within the size, see [round_quarter_le]). *)
Definition sample_ok (smp : list aid → nat → list aid) : Prop :=
  ∀ (l : list aid) (k : nat), (k ≤ length l)%nat → NoDup l →
    length (smp l k) = k ∧ NoDup (smp l k) ∧ smp l k ⊆ l.

(** ** The shared store *)

(** [aircraft] is [Tracker.aircraft] (icao -> aircraft object), [receivers]
    is [Coordinator.receivers] (uid -> receiver object); the two heaps hold
    the objects themselves.  [scheduled] is the queue of
    [loop.call_soon(receiver.refresh_traffic_requests)]. *)
Record World := {
  aircraft : gmap Z aid;
  mlat_wanted : gset aid;
  mlat_wanted_ts : Q;
  receivers : gmap Z rid;
  ac_heap : gmap aid TrackedAircraft.t;
  rx_heap : gmap rid Receiver.t;
  scheduled : list rid
}.

Definition set_aircraft (f : gmap Z aid → gmap Z aid) (w : World) : World :=
  {| aircraft := f (aircraft w); mlat_wanted := mlat_wanted w;
     mlat_wanted_ts := mlat_wanted_ts w; receivers := receivers w;
     ac_heap := ac_heap w; rx_heap := rx_heap w; scheduled := scheduled w |}.
Definition set_mlat_wanted (s : gset aid) (ts : Q) (w : World) : World :=
  {| aircraft := aircraft w; mlat_wanted := s;
     mlat_wanted_ts := ts; receivers := receivers w;
     ac_heap := ac_heap w; rx_heap := rx_heap w; scheduled := scheduled w |}.
Definition set_receivers (f : gmap Z rid → gmap Z rid) (w : World) : World :=
  {| aircraft := aircraft w; mlat_wanted := mlat_wanted w;
     mlat_wanted_ts := mlat_wanted_ts w; receivers := f (receivers w);
     ac_heap := ac_heap w; rx_heap := rx_heap w; scheduled := scheduled w |}.
Definition set_ac_heap (f : gmap aid TrackedAircraft.t → gmap aid TrackedAircraft.t)
    (w : World) : World :=
  {| aircraft := aircraft w; mlat_wanted := mlat_wanted w;
     mlat_wanted_ts := mlat_wanted_ts w; receivers := receivers w;
     ac_heap := f (ac_heap w); rx_heap := rx_heap w; scheduled := scheduled w |}.
Definition set_rx_heap (f : gmap rid Receiver.t → gmap rid Receiver.t)
    (w : World) : World :=
  {| aircraft := aircraft w; mlat_wanted := mlat_wanted w;
     mlat_wanted_ts := mlat_wanted_ts w; receivers := receivers w;
     ac_heap := ac_heap w; rx_heap := f (rx_heap w); scheduled := scheduled w |}.
Definition call_soon (r : rid) (w : World) : World :=
  {| aircraft := aircraft w; mlat_wanted := mlat_wanted w;
     mlat_wanted_ts := mlat_wanted_ts w; receivers := receivers w;
     ac_heap := ac_heap w; rx_heap := rx_heap w; scheduled := scheduled w ++ [r] |}.

(** The empty server: [Tracker.__init__] and [Coordinator.__init__]. *)
Definition empty_world (now : Q) : World :=
  {| aircraft := ∅; mlat_wanted := ∅; mlat_wanted_ts := now; receivers := ∅;
     ac_heap := ∅; rx_heap := ∅; scheduled := [] |}.

(** A mutation of one aircraft object, of one receiver object. *)
Definition upd_ac (ac : aid) (f : TrackedAircraft.t → TrackedAircraft.t) (w : World) : World :=
  set_ac_heap (alter f ac) w.
Definition upd_rx (r : rid) (f : Receiver.t → Receiver.t) (w : World) : World :=
  set_rx_heap (alter f r) w.

(** The same mutation of every aircraft object of a set ([for x in s: ...]). *)
Definition upd_acs (s : gset aid) (f : TrackedAircraft.t → TrackedAircraft.t) (w : World) : World :=
  foldr (λ ac w, upd_ac ac f w) w (elements s).

(** ** Receiver.update_interest_sets *)

(** [round(MAX_SYNC_AC / 4)]: Python rounds a half to the even neighbour. *)
Definition round_quarter (m : nat) : nat :=
  let q := (m / 4)%nat in
  match (m mod 4)%nat with
  | 0%nat | 1%nat => q
  | 2%nat => if Nat.even q then q else S q
  | _ => S q
  end.

(** [self] is the receiver object.  [len(new_sync) > MAX_SYNC_AC / 4]
    compares an integer with a quotient by four, i.e.
    [4 * len(new_sync) > MAX_SYNC_AC]. *)
Definition update_interest_sets (cfg : Config) (o : Oracle) (self : rid)
    (new_sync new_mlat new_adsb : gset aid) (w : World) : World :=
  match rx_heap w !! self with
  | None => w
  | Some r =>
    let new_sync :=
      if Qltb 2 (Receiver.bad_syncs r) && (MAX_SYNC_AC cfg <? 4 * size new_sync)%nat
      then list_to_set (sample o (elements new_sync) (round_quarter (MAX_SYNC_AC cfg)))
      else new_sync in
    let new_mlat := if Qltb 0 (Receiver.bad_syncs r) then ∅ else new_mlat in
    let w := upd_acs (new_adsb ∖ Receiver.adsb_seen r)
               (TrackedAircraft.set_adsb_seen (λ s, {[self]} ∪ s)) w in
    let w := upd_acs (Receiver.adsb_seen r ∖ new_adsb)
               (TrackedAircraft.set_adsb_seen (λ s, s ∖ {[self]})) w in
    let w := upd_acs (new_sync ∖ Receiver.sync_interest r)
               (TrackedAircraft.set_sync_interest (λ s, {[self]} ∪ s)) w in
    let w := upd_acs (Receiver.sync_interest r ∖ new_sync)
               (TrackedAircraft.set_sync_interest (λ s, s ∖ {[self]})) w in
    let w := upd_acs (new_mlat ∖ Receiver.mlat_interest r)
               (TrackedAircraft.set_mlat_interest (λ s, {[self]} ∪ s)) w in
    let w := upd_acs (Receiver.mlat_interest r ∖ new_mlat)
               (TrackedAircraft.set_mlat_interest (λ s, s ∖ {[self]})) w in
    upd_rx self (Receiver.set_interest new_adsb new_sync new_mlat) w
  end.

(** [refresh_traffic_requests]; the traffic request itself goes to the
    connection. *)
Definition refresh_traffic_requests (self : rid) (w : World) : World :=
  upd_rx self (λ r, Receiver.set_requested
                      (Receiver.sync_interest r ∪ Receiver.mlat_interest r) r) w.

(** ** Tracker *)

Module Tracker.

(** One iteration of the loop of [add]. *)
Definition add_one (cfg : Config) (o : Oracle) (now : Q) (receiver : rid)
    (w : World) (icao : Z) : World :=
  let '(ac, w) :=
    match aircraft w !! icao with
    | Some ac => (ac, w)
    | None =>
      let ac := fresh (dom (ac_heap w)) in
      (ac, set_aircraft (<[icao := ac]>)
             (set_ac_heap (<[ac := TrackedAircraft.init (FORCE_MLAT_INTERVAL cfg) now
                                     (random o icao) icao
                                     (in_local_partition (partition cfg) icao)]>) w))
    end in
  let w := upd_ac ac (TrackedAircraft.set_tracking (λ s, {[receiver]} ∪ s)) w in
  let w := upd_rx receiver (Receiver.set_tracking (λ s, {[ac]} ∪ s)) w in
  upd_ac ac (TrackedAircraft.set_seen now) w.

(** [add(receiver, icao_set)]; [icao_set] is given in iteration order. *)
Definition add (cfg : Config) (o : Oracle) (now : Q) (receiver : rid)
    (icao_set : list Z) (w : World) : World :=
  foldl (add_one cfg o now receiver) w icao_set.

(** [not ac.tracking] for the object [ac]. *)
Definition tracking_empty (ac : aid) (w : World) : bool :=
  match ac_heap w !! ac with
  | Some a => bool_decide (TrackedAircraft.tracking a = ∅)
  | None => false
  end.

(** One iteration of the loop of [remove]. *)
Definition remove_one (receiver : rid) (w : World) (icao : Z) : World :=
  match aircraft w !! icao with
  | None => w
  | Some ac =>
    let w := upd_ac ac (TrackedAircraft.set_tracking (λ s, s ∖ {[receiver]})) w in
    let w := upd_rx receiver (Receiver.set_tracking (λ s, s ∖ {[ac]})) w in
    if tracking_empty ac w then set_aircraft (delete icao) w else w
  end.

Definition remove (receiver : rid) (icao_set : list Z) (w : World) : World :=
  foldl (remove_one receiver) w icao_set.

(** One iteration of the loop of [remove_all]: [ac] ranges over
    [receiver.tracking].  [del self.aircraft[ac.icao]] raises [KeyError]
    when the registry has no aircraft under that address. *)
Definition remove_all_one (receiver : rid) (ac : aid) (w : World) : outcome World :=
  let w := upd_ac ac (TrackedAircraft.set_tracking (λ s, s ∖ {[receiver]})) w in
  let w := upd_ac ac (TrackedAircraft.set_sync_interest (λ s, s ∖ {[receiver]})) w in
  let w := upd_ac ac (TrackedAircraft.set_adsb_seen (λ s, s ∖ {[receiver]})) w in
  let w := upd_ac ac (TrackedAircraft.set_mlat_interest (λ s, s ∖ {[receiver]})) w in
  match ac_heap w !! ac with
  | Some a =>
    if bool_decide (TrackedAircraft.tracking a = ∅)
    then
      match aircraft w !! TrackedAircraft.icao a with
      | Some _ => Returned (set_aircraft (delete (TrackedAircraft.icao a)) w)
      | None => Raised KeyError w
      end
    else Returned w
  | None => Returned w
  end.

(** The loop [for ac in receiver.tracking]; an exception ends it. *)
Fixpoint remove_all_loop (receiver : rid) (l : list aid) (w : World) : outcome World :=
  match l with
  | [] => Returned w
  | ac :: l =>
    match remove_all_one receiver ac w with
    | Returned w => remove_all_loop receiver l w
    | Raised e w => Raised e w
    end
  end.

(** [remove_all(receiver)]: the loop, then the four [clear()] calls. *)
Definition remove_all (receiver : rid) (w : World) : outcome World :=
  match rx_heap w !! receiver with
  | None => Returned w
  | Some r =>
    match remove_all_loop receiver (elements (Receiver.tracking r)) w with
    | Returned w =>
      Returned
        (upd_rx receiver
           (λ r, Receiver.set_interest ∅ ∅ ∅ (Receiver.set_tracking (λ _, ∅) r)) w)
    | Raised e w => Raised e w
    end
  end.

(** *** update_interest: the MLAT-wanted refresh *)

(** The body of the loop over [self.aircraft.values()]: the aircraft as the
    pass leaves it, and whether it was added to [mlat_wanted].  [rnd] is
    the draw of [random.random()]. *)
Definition refresh_one (cfg : Config) (now rnd : Q) (ac : TrackedAircraft.t)
    : TrackedAircraft.t * bool :=
  let interval := inject_Z (FORCE_MLAT_INTERVAL cfg) in
  let since_force := (now - TrackedAircraft.last_force_mlat ac)%Q in
  let tracked := size (TrackedAircraft.tracking ac) in
  let last_adsb_time := TrackedAircraft.last_adsb_time ac in
  let ac :=
    if negb (TrackedAircraft.force_mlat ac) && Qltb (interval - 15) since_force
    then TrackedAircraft.set_force_mlat true ac else ac in
  let ac :=
    if Qltb (interval + 15) since_force
    then TrackedAircraft.set_force_mlat false
           (TrackedAircraft.set_last_force_mlat (now + rnd) ac)
    else ac in
  if (2 <=? tracked)%nat && TrackedAircraft.allow_mlat ac
     && (Qltb (inject_Z (NO_ADSB_MLAT_SECONDS cfg)) (now - last_adsb_time)
         || Qltb 10 (TrackedAircraft.sync_bad_percent ac)
         || (Qltb (interval - 15) since_force && Qltb since_force interval))
  then (TrackedAircraft.set_do_mlat true ac, true)
  else (TrackedAircraft.set_do_mlat false ac, false).

Definition refresh_step (cfg : Config) (o : Oracle) (now : Q)
    (acc : World * gset aid) (ac : aid) : World * gset aid :=
  let '(w, wanted) := acc in
  match ac_heap w !! ac with
  | None => acc
  | Some a =>
    let '(a', want) := refresh_one cfg now (random o (TrackedAircraft.icao a)) a in
    (upd_ac ac (λ _, a') w, if want then {[ac]} ∪ wanted else wanted)
  end.

(** The refresh proper: [self.mlat_wanted = set()], the loop, and
    [self.mlat_wanted_ts = now]. *)
Definition refresh_mlat_wanted (cfg : Config) (o : Oracle) (now : Q) (w : World) : World :=
  let '(w, wanted) :=
    foldl (refresh_step cfg o now) (w, ∅) (snd <$> map_to_list (aircraft w)) in
  set_mlat_wanted wanted now w.

(** *** update_interest: rate pairs *)

(** [report.get(icao)] on a rate report. *)
Fixpoint report_get (icao : Z) (report : list (Z * Q)) : option Q :=
  match report with
  | [] => None
  | (k, v) :: report => if k =? icao then Some v else report_get icao report
  end.

(** [rate1]: [0.8] for a peer without rate report, else
    [r1.last_rate_report.get(icao, 0.0)]. *)
Definition peer_rate (w : World) (r1 : rid) (icao : Z) : Q :=
  match rx_heap w !! r1 with
  | Some r =>
    match Receiver.last_rate_report r with
    | None => 0.8%Q
    | Some report => default 0%Q (report_get icao report)
    end
  | None => 0%Q
  end.

(** The inner loop [for r1 in ac.tracking]: the rate pairs of one aircraft
    of the report. *)
Definition pairs_for (o : Oracle) (w : World) (receiver : rid) (icao : Z) (rate : Q)
    (ac : aid) (a : TrackedAircraft.t) : list ratepair :=
  let altFactor :=
    match TrackedAircraft.altitude a with
    | Some alt => if Qltb 0 alt then Some (1 + pow15 o (alt / 20000))%Q else None
    | None => None
    end in
  omap (λ r1 : rid,
          if bool_decide (r1 = receiver) then None
          else
            let rate1 := peer_rate w r1 icao in
            let rp := (rate * rate1 / 2.25)%Q in
            let rp := match altFactor with Some f => (rp * f)%Q | None => rp end in
            if Qltb rp 0.01 then None else Some (rp, r1, ac, rate))
       (elements (TrackedAircraft.tracking a)).

(** The accumulators of the loop over [receiver.last_rate_report.items()]:
    the store (for [ac.seen]), [new_adsb], [ac_to_ratepair_map] and
    [ratepair_list].  ([rate_report_set] is built but never read.) *)
Definition collected : Type := World * gset aid * gmap aid (list ratepair) * list ratepair.

Definition collect_step (o : Oracle) (now : Q) (receiver : rid)
    (acc : collected) (item : Z * Q) : collected :=
  let '(w, new_adsb, ac_to_ratepair_map, ratepair_list) := acc in
  let '(icao, rate) := item in
  match aircraft w !! icao with
  | None => acc
  | Some ac =>
    let w := upd_ac ac (TrackedAircraft.set_seen now) w in
    match ac_heap w !! ac with
    | None => acc
    | Some a =>
      let l := pairs_for o w receiver icao rate ac a in
      (w, {[ac]} ∪ new_adsb, <[ac := l]> ac_to_ratepair_map, ratepair_list ++ l)
    end
  end.

(** Python's [<] on the tuples [(rp, r1, ac, rate)]: the first component
    that differs decides, receivers by [uid] and aircraft by [icao]
    (their [__lt__]); objects differ when they are not the same object. *)
Definition ratepair_lt (w : World) (x y : ratepair) : bool :=
  let '(rp, r1, ac, rate) := x in
  let '(rp', r1', ac', rate') := y in
  if negb (Qeq_bool rp rp') then Qltb rp rp'
  else if negb (r1 =? r1')%nat then
    (from_option Receiver.uid 0 (rx_heap w !! r1)
       <? from_option Receiver.uid 0 (rx_heap w !! r1'))
  else if negb (ac =? ac')%nat then
    (from_option TrackedAircraft.icao 0 (ac_heap w !! ac)
       <? from_option TrackedAircraft.icao 0 (ac_heap w !! ac'))
  else Qltb rate rate'.

(** [list.sort(reverse=True)]: descending and stable. *)
Fixpoint sort_insert (w : World) (x : ratepair) (l : list ratepair) : list ratepair :=
  match l with
  | [] => [x]
  | y :: l' => if ratepair_lt w y x then x :: l else y :: sort_insert w x l'
  end.

Definition sort_reverse (w : World) (l : list ratepair) : list ratepair :=
  foldl (λ acc x, sort_insert w x acc) [] l.

(** *** update_interest: the two selection rounds and the top-up *)

(** The inner loop [for rp2, r2, ac2, rate in ac_to_ratepair_map[ac]]. *)
Definition ntotal_add (l : list ratepair) (ntotal : gmap rid Q) : gmap rid Q :=
  foldl (λ nt (p : ratepair),
           let '(rp2, r2, _, _) := p in
           <[r2 := (default 0 (nt !! r2) + rp2)%Q]> nt)
        ntotal l.

(** The state of a round: [new_sync], [total_rate], [ntotal]. *)
Definition selection : Type := gset aid * Q * gmap rid Q.

(** One selection round over [l].  Round 1 is [select_round true 0.3] over
    the shuffled first half, round 2 is [select_round false 3.5] over the
    whole sorted list; [skip_dont_use] is the [sync_dont_use] test that
    only round 1 has. *)
Fixpoint select_round (cfg : Config) (w : World) (ac_to_ratepair_map : gmap aid (list ratepair))
    (skip_dont_use : bool) (limit : Q) (l : list ratepair) (st : selection) : selection :=
  match l with
  | [] => st
  | (rp, r1, ac, rate) :: l' =>
    let '(new_sync, total_rate, ntotal) := st in
    if bool_decide (ac ∈ new_sync)
    then select_round cfg w ac_to_ratepair_map skip_dont_use limit l' st
    else if skip_dont_use
            && from_option TrackedAircraft.sync_dont_use false (ac_heap w !! ac)
    then select_round cfg w ac_to_ratepair_map skip_dont_use limit l' st
    else if Qltb (MAX_SYNC_RATE cfg) total_rate then st
    else if Qltb (default 0%Q (ntotal !! r1)) limit
    then select_round cfg w ac_to_ratepair_map skip_dont_use limit l'
           ({[ac]} ∪ new_sync, (total_rate + rate)%Q,
            ntotal_add (default [] (ac_to_ratepair_map !! ac)) ntotal)
    else select_round cfg w ac_to_ratepair_map skip_dont_use limit l' st
  end.

(** [new_sync |= set(random.sample(list(acAvailable), k=min(len(acAvailable), addSome)))]. *)
Definition top_up (o : Oracle) (acAvailable : gset aid) (addSome : Z) (new_sync : gset aid)
    : gset aid :=
  new_sync ∪ list_to_set (sample o (elements acAvailable)
                            (size acAvailable `min` Z.to_nat addSome)).

(** [addSome = int(MAX_SYNC_AC / 4) - len(new_sync)]. *)
Definition add_some (cfg : Config) (new_sync : gset aid) : Z :=
  Z.of_nat (MAX_SYNC_AC cfg / 4) - Z.of_nat (size new_sync).

(** The sync set of a receiver with a rate report, from the accumulators of
    the report loop. *)
Definition rate_aware_sync (cfg : Config) (o : Oracle) (w : World)
    (tracking : gset aid) (ac_to_ratepair_map : gmap aid (list ratepair))
    (ratepair_list : list ratepair) : gset aid :=
  let ratepair_list := sort_reverse w ratepair_list in
  let splitIndex := (length ratepair_list / 2)%nat in
  let firstHalf := shuffle o (take splitIndex ratepair_list) in
  let st := select_round cfg w ac_to_ratepair_map true 0.3 firstHalf (∅, 0%Q, ∅) in
  let '(new_sync, _, _) :=
    select_round cfg w ac_to_ratepair_map false 3.5 ratepair_list st in
  if 0 <? add_some cfg new_sync then
    let new_sync :=
      top_up o (dom ac_to_ratepair_map ∖ new_sync) (add_some cfg new_sync) new_sync in
    if 0 <? add_some cfg new_sync then
      top_up o (tracking ∖ new_sync) (add_some cfg new_sync) new_sync
    else new_sync
  else new_sync.

(** [new_sync] of a legacy client (no rate report). *)
Definition legacy_sync (cfg : Config) (o : Oracle) (tracking : gset aid) : gset aid :=
  if (MAX_SYNC_AC cfg <? size tracking)%nat
  then list_to_set (sample o (elements tracking) (MAX_SYNC_AC cfg))
  else tracking.

(** [update_interest(receiver)]; [now] is [time.time()]. *)
Definition update_interest (cfg : Config) (o : Oracle) (now : Q) (receiver : rid)
    (w : World) : World :=
  match rx_heap w !! receiver with
  | None => w
  | Some r =>
    let new_adsb : gset aid := ∅ in
    let w :=
      if Qltb 0.1 (now - mlat_wanted_ts w) then refresh_mlat_wanted cfg o now w else w in
    let new_mlat := Receiver.tracking r ∩ mlat_wanted w in
    match Receiver.last_rate_report r with
    | None =>
      let new_sync := legacy_sync cfg o (Receiver.tracking r) in
      call_soon receiver (update_interest_sets cfg o receiver new_sync new_mlat new_adsb w)
    | Some report =>
      let '(w, new_adsb, ac_to_ratepair_map, ratepair_list) :=
        foldl (collect_step o now receiver) (w, new_adsb, ∅, []) report in
      let new_sync :=
        rate_aware_sync cfg o w (Receiver.tracking r) ac_to_ratepair_map ratepair_list in
      call_soon receiver (update_interest_sets cfg o receiver new_sync new_mlat new_adsb w)
    end
  end.

End Tracker.

(** ** Coordinator *)

Module Coordinator.

(** [receiver_rate_report]. *)
Definition receiver_rate_report (cfg : Config) (o : Oracle) (now : Q) (receiver : rid)
    (report : list (Z * Q)) (w : World) : World :=
  Tracker.update_interest cfg o now receiver
    (upd_rx receiver (Receiver.set_last_rate_report (Some report)) w).

(** [receiver_tracking_add] and [receiver_tracking_remove]. *)
Definition legacy_refresh (cfg : Config) (o : Oracle) (now : Q) (receiver : rid)
    (w : World) : World :=
  match rx_heap w !! receiver with
  | Some r =>
    match Receiver.last_rate_report r with
    | None => Tracker.update_interest cfg o now receiver w
    | Some _ => w
    end
  | None => w
  end.

Definition receiver_tracking_add (cfg : Config) (o : Oracle) (now : Q) (receiver : rid)
    (icao_set : list Z) (w : World) : World :=
  legacy_refresh cfg o now receiver (Tracker.add cfg o now receiver icao_set w).

Definition receiver_tracking_remove (cfg : Config) (o : Oracle) (now : Q) (receiver : rid)
    (icao_set : list Z) (w : World) : World :=
  legacy_refresh cfg o now receiver (Tracker.remove receiver icao_set w).

(** [receiver_disconnect], without the clock tracker, the user index and
    the distance matrix.  [self.receivers.pop(receiver.uid)] raises
    [KeyError] when the uid is not registered. *)
Definition receiver_disconnect (receiver : rid) (w : World) : outcome World :=
  let w := upd_rx receiver (Receiver.set_dead true) w in
  match Tracker.remove_all receiver w with
  | Returned w =>
    match rx_heap w !! receiver with
    | Some r =>
      match receivers w !! Receiver.uid r with
      | Some _ => Returned (set_receivers (delete (Receiver.uid r)) w)
      | None => Raised KeyError w
      end
    | None => Returned w
    end
  | Raised e w => Raised e w
  end.

(** *** The clock-quality scorer of [_really_write_state] *)










(** *** forward_results *)

(** What a call of [receiver.connection.report_mlat_position] does as seen
    by the caller: it returns, or it raises an exception of class
    [Exception] (the class the handler names). *)
Inductive call_result := Returns | RaisesException (message : string).

(** What [forward_results] does, in order: it calls the connection of a
    receiver, or logs [glogger.exception] for it. *)
Inductive event :=
| ReportMlatPosition (receiver : rid)
| LogFailure (receiver : rid) (message : string).

(** The [try]/[except Exception] statement around one call: the events,
    and the exception that leaves the statement, if any. *)
Definition try_report (connection : rid → call_result) (receiver : rid)
    : list event * option string :=
  match connection receiver with
  | Returns => ([ReportMlatPosition receiver], None)
  | RaisesException m => ([ReportMlatPosition receiver; LogFailure receiver m], None)
  end.

(** The loop [for receiver in broadcast]: an exception that leaves the body
    ends the loop. *)
Fixpoint forward_loop (connection : rid → call_result) (broadcast : list rid)
    : list event * option string :=
  match broadcast with
  | [] => ([], None)
  | receiver :: rest =>
    match try_report connection receiver with
    | (ev, Some e) => (ev, Some e)
    | (ev, None) =>
      let '(ev', res) := forward_loop connection rest in (ev ++ ev', res)
    end
  end.

(** [forward_results]: the events and the exception the caller sees, if
    any.  [valid] is [kalman_state.valid]. *)
Definition forward_results (connection : rid → call_result) (receivers : list rid)
    (dof : Z) (valid : bool) : list event * option string :=
  if negb valid && (dof <? 1) then ([], None)
  else forward_loop connection receivers.

End Coordinator.

(** ** Named predicates and scenarios *)






(** The calls and the log lines of a trace of [forward_results]. *)
Definition called (trace : list Coordinator.event) : list rid :=
  omap (λ e, match e with
             | Coordinator.ReportMlatPosition r => Some r
             | Coordinator.LogFailure _ _ => None
             end) trace.
Definition logged (trace : list Coordinator.event) : list rid :=
  omap (λ e, match e with
             | Coordinator.ReportMlatPosition _ => None
             | Coordinator.LogFailure r _ => Some r
             end) trace.
Definition raises (connection : rid → Coordinator.call_result) (r : rid) : bool :=
  match connection r with
  | Coordinator.Returns => false
  | Coordinator.RaisesException _ => true
  end.

(** The test of the refresh loop on an aircraft as the loop finds it:
    at least two tracking receivers, [allow_mlat], and no ADS-B for
    [NO_ADSB_MLAT_SECONDS], or [sync_bad_percent > 10], or
    [interval - 15 < since_force < interval]. *)
Definition wanted_test (cfg : Config) (now : Q) (a : TrackedAircraft.t) : Prop :=
  let interval := inject_Z (FORCE_MLAT_INTERVAL cfg) in
  let since_force := (now - TrackedAircraft.last_force_mlat a)%Q in
  (2 ≤ size (TrackedAircraft.tracking a))%nat
  ∧ TrackedAircraft.allow_mlat a = true
  ∧ ((inject_Z (NO_ADSB_MLAT_SECONDS cfg) < now - TrackedAircraft.last_adsb_time a)%Q
     ∨ (10 < TrackedAircraft.sync_bad_percent a)%Q
     ∨ ((interval - 15 < since_force)%Q ∧ (since_force < interval)%Q)).

(** The registry names each aircraft object once, and the store holds the
    objects it names. *)
Definition registry_ok (w : World) : Prop :=
  ∀ (icao : Z) (ac : aid), aircraft w !! icao = Some ac →
    ∃ a, ac_heap w !! ac = Some a ∧ TrackedAircraft.icao a = icao.

(** Inputs for the scenarios: the draws are the first members in order,
    no shuffling, [random.random() = 0]. *)
Definition plain_oracle : Oracle :=
  {| random := λ _, 0%Q; sample := λ l k, take k l; shuffle := λ l, l;
     pow15 := λ x, x |}.

(** Two connected receivers that have reported nothing yet. *)
Definition two_receivers : World :=
  set_receivers (λ _, {[0 := 0%nat; 1 := 1%nat]})
    (set_rx_heap (λ _, {[0%nat := Receiver.init 0 "a" 0; 1%nat := Receiver.init 1 "b" 0]})
       (empty_world 0)).

(** An aircraft tracked by two receivers, with ADS-B one second ago and
    [last_force_mlat] 605 seconds ago at [now = 1000]. *)
Definition late_aircraft : TrackedAircraft.t :=
  TrackedAircraft.mk 0xABCDEF true {[0%nat; 1%nat]} ∅ ∅ 999 395 true ∅ None 999 false 0 false.

(** The environment defaults, one partition, and for instance
    [MAX_SYNC_AC = 20] and [MAX_SYNC_RATE = 3]. *)
Definition example_config : Config := default_config 20 3 (1, 1).

(** A store whose registry holds [late_aircraft] alone. *)
Definition late_world : World :=
  set_aircraft (λ _, {[0xABCDEF := 0%nat]})
    (set_ac_heap (λ _, {[0%nat := late_aircraft]}) two_receivers).

(** Both receivers track one aircraft (added at time 0, no ADS-B since). *)
Definition tracked_world : World :=
  Tracker.add example_config plain_oracle 0 1%nat [0xABCDEF]
    (Tracker.add example_config plain_oracle 0 0%nat [0xABCDEF] two_receivers).

(** Twenty-one aircraft, each tracked by both receivers; receiver [0] then
    reports a rate of 0.1 messages per second for each of them, receiver
    [1] sends no rate reports. *)
Definition crowd : list Z := Z.of_nat <$> seq 1 21.

Definition crowded_world : World :=
  Tracker.add example_config plain_oracle 0 1%nat crowd
    (Tracker.add example_config plain_oracle 0 0%nat crowd two_receivers).

Definition crowd_report : list (Z * Q) := (λ icao, (icao, 0.1%Q)) <$> crowd.

Definition crowd_selected : World :=
  Coordinator.receiver_rate_report example_config plain_oracle 1 0%nat crowd_report
    crowded_world.

(** The tracking set of an aircraft of the old store [w0] while the ICAO
    addresses [P] are added for receiver [r] and not yet removed. *)
Definition pending_tracking (w0 : World) (r : rid) (P : gset Z) (ac : aid)
    (a : TrackedAircraft.t) : gset rid :=
  if decide (TrackedAircraft.icao a ∈ P
             ∧ aircraft w0 !! TrackedAircraft.icao a = Some ac)
  then {[r]} ∪ TrackedAircraft.tracking a
  else TrackedAircraft.tracking a.

(** The store [s] between [add(r, S)] and the end of [remove(r, S)],
    against the store [w0] before the [add]: [P] holds the addresses of
    [S] whose edge to [r] is in place. *)
Record add_remove_inv (w0 : World) (r : rid) (r0 : Receiver.t) (P : gset Z)
    (s : World) : Prop := {
  inv_old_entry : ∀ icao ac,
    aircraft w0 !! icao = Some ac → aircraft s !! icao = Some ac;
  inv_no_entry : ∀ icao,
    aircraft w0 !! icao = None → icao ∉ P → aircraft s !! icao = None;
  inv_new_entry : ∀ icao,
    aircraft w0 !! icao = None → icao ∈ P →
    ∃ ac a, aircraft s !! icao = Some ac ∧ ac_heap w0 !! ac = None
            ∧ ac_heap s !! ac = Some a ∧ TrackedAircraft.icao a = icao
            ∧ TrackedAircraft.tracking a = {[r]};
  inv_old_object : ∀ ac a,
    ac_heap w0 !! ac = Some a →
    ∃ v, ac_heap s !! ac
         = Some (TrackedAircraft.set_seen v
                   (TrackedAircraft.set_tracking (λ _, pending_tracking w0 r P ac a) a));
  inv_receiver : ∃ T,
    rx_heap s !! r = Some (Receiver.set_tracking (λ _, T) r0)
    ∧ ∀ ac, ac ∈ T ↔ ac ∈ Receiver.tracking r0
                      ∨ ∃ icao, icao ∈ P ∧ aircraft s !! icao = Some ac;
  inv_other_receivers : ∀ r2, r2 ≠ r → rx_heap s !! r2 = rx_heap w0 !! r2;
  inv_frame :
    mlat_wanted s = mlat_wanted w0 ∧ mlat_wanted_ts s = mlat_wanted_ts w0
    ∧ receivers s = receivers w0 ∧ scheduled s = scheduled w0
}.

(** One aircraft, tracked by receiver [1] alone since time 0. *)
Definition tracked_by_one : World :=
  Tracker.add example_config plain_oracle 0 1%nat [0xABCDEF] two_receivers.

(** Bipartite symmetry between a receiver object and an aircraft object,
    for the four relations. *)
Definition mirrored (r : rid) (ro : Receiver.t) (a : aid) (ao : TrackedAircraft.t) : Prop :=
  (a ∈ Receiver.tracking ro ↔ r ∈ TrackedAircraft.tracking ao)
  ∧ (a ∈ Receiver.sync_interest ro ↔ r ∈ TrackedAircraft.sync_interest ao)
  ∧ (a ∈ Receiver.mlat_interest ro ↔ r ∈ TrackedAircraft.mlat_interest ao)
  ∧ (a ∈ Receiver.adsb_seen ro ↔ r ∈ TrackedAircraft.adsb_seen ao).

Global Instance mirrored_dec r ro a ao : Decision (mirrored r ro a ao).
Proof. unfold mirrored. apply _. Defined.

(** The invariant over the whole store. *)
Definition bipartite_symmetry (w : World) : Prop :=
  map_Forall (λ r ro, map_Forall (λ a ao, mirrored r ro a ao) (ac_heap w)) (rx_heap w).

Global Instance bipartite_symmetry_dec w : Decision (bipartite_symmetry w).
Proof. unfold bipartite_symmetry. apply _. Defined.

(** Receiver [1] tracks an aircraft; receiver [0], which does not track
    it, sends a rate report that names it. *)
Definition rate_reported : World :=
  Coordinator.receiver_rate_report example_config plain_oracle 1 0%nat
    [(0xABCDEF, 1%Q)] tracked_by_one.

(** Every aircraft object a receiver refers to is in the store. *)
Definition receivers_closed (w : World) : Prop :=
  ∀ r ro a, rx_heap w !! r = Some ro →
    a ∈ Receiver.tracking ro ∪ Receiver.sync_interest ro
        ∪ Receiver.mlat_interest ro ∪ Receiver.adsb_seen ro →
    is_Some (ac_heap w !! a).

(** The store is well formed: the four relations are symmetric, receivers
    refer to stored aircraft, and the registry names stored aircraft by
    their own address. *)
Definition store_ok (w : World) : Prop :=
  bipartite_symmetry w ∧ receivers_closed w ∧ registry_ok w.

(** What one iteration of [remove_all] does to the aircraft object: the
    four [discard] calls. *)
Definition discard_receiver (r : rid) (a : TrackedAircraft.t) : TrackedAircraft.t :=
  TrackedAircraft.set_mlat_interest (λ s, s ∖ {[r]})
    (TrackedAircraft.set_adsb_seen (λ s, s ∖ {[r]})
       (TrackedAircraft.set_sync_interest (λ s, s ∖ {[r]})
          (TrackedAircraft.set_tracking (λ s, s ∖ {[r]}) a))).

(** [w'] has the receivers of [w], and its aircraft have the four edge
    sets they have in [w]. *)
Definition same_edges (w w' : World) : Prop :=
  rx_heap w' = rx_heap w
  ∧ ∀ a ao', ac_heap w' !! a = Some ao' →
      ∃ ao, ac_heap w !! a = Some ao
        ∧ TrackedAircraft.tracking ao' = TrackedAircraft.tracking ao
        ∧ TrackedAircraft.sync_interest ao' = TrackedAircraft.sync_interest ao
        ∧ TrackedAircraft.mlat_interest ao' = TrackedAircraft.mlat_interest ao
        ∧ TrackedAircraft.adsb_seen ao' = TrackedAircraft.adsb_seen ao.

(** ** Further named predicates *)


(** The tracking edge between receiver [r] and the aircraft registered
    under [icao] is in place, and the aircraft was seen at [now]. *)
Definition tracked_edge (now : Q) (r : rid) (w : World) (icao : Z) : Prop :=
  ∃ ac a r',
    aircraft w !! icao = Some ac ∧ ac_heap w !! ac = Some a
    ∧ TrackedAircraft.icao a = icao ∧ r ∈ TrackedAircraft.tracking a
    ∧ TrackedAircraft.seen a = now
    ∧ rx_heap w !! r = Some r' ∧ ac ∈ Receiver.tracking r'.


(** The fields of an aircraft that no loop of [update_interest_sets]
    writes. *)
Definition same_identity (ao ao' : TrackedAircraft.t) : Prop :=
  TrackedAircraft.icao ao' = TrackedAircraft.icao ao
  ∧ TrackedAircraft.allow_mlat ao' = TrackedAircraft.allow_mlat ao
  ∧ TrackedAircraft.tracking ao' = TrackedAircraft.tracking ao.


(** [w'] holds the aircraft objects of [w], each with its address, its
    partition flag and its tracking set. *)
Definition same_aircraft (w w' : World) : Prop :=
  ∀ a, match ac_heap w !! a, ac_heap w' !! a with
       | Some ao, Some ao' => same_identity ao ao'
       | None, None => True
       | _, _ => False
       end.


(** The aircraft of a rate pair [(rp, r1, ac, rate)], and its rate. *)
Definition pair_ac (p : ratepair) : aid := p.1.2.
Definition pair_rate (p : ratepair) : Q := p.2.

(** [random.shuffle] returns the members of the list it is given. *)
Definition shuffle_ok (shf : list ratepair → list ratepair) : Prop :=
  ∀ l, shf l ⊆ l.

(** The aircraft objects the registry holds under the addresses of a rate
    report. *)
Definition reported (w : World) (report : list (Z * Q)) (ac : aid) : Prop :=
  ∃ icao rate, (icao, rate) ∈ report ∧ aircraft w !! icao = Some ac.

(** The accumulators of the report loop: [new_adsb] is the key set of
    [ac_to_ratepair_map], every rate pair is about an aircraft of
    [new_adsb], and the registry's aircraft are stored. *)
Definition collect_inv (report_rates : Q → Prop) (acc : Tracker.collected) : Prop :=
  (∀ icao ac, aircraft acc.1.1.1 !! icao = Some ac → is_Some (ac_heap acc.1.1.1 !! ac))
  ∧ dom acc.1.2 = acc.1.1.2
  ∧ ∀ p, p ∈ acc.2 → pair_ac p ∈ acc.1.1.2 ∧ report_rates (pair_rate p).


(** The state of the selection after round 1 and round 2 of
    [update_interest], as [rate_aware_sync] computes it before the
    top-up. *)
Definition rounds (cfg : Config) (o : Oracle) (w : World)
    (ac_to_ratepair_map : gmap aid (list ratepair)) (ratepair_list : list ratepair)
    : Tracker.selection :=
  let ratepair_list := Tracker.sort_reverse w ratepair_list in
  let splitIndex := (length ratepair_list / 2)%nat in
  let firstHalf := shuffle o (take splitIndex ratepair_list) in
  let st := Tracker.select_round cfg w ac_to_ratepair_map true 0.3 firstHalf (∅, 0%Q, ∅) in
  Tracker.select_round cfg w ac_to_ratepair_map false 3.5 ratepair_list st.

(** ** Coordinator: connecting, moving and disconnecting receivers *)

Module Connections.

Definition llh : Type := Q * Q * Q.
Definition ecef : Type := Q * Q * Q.

(** The attributes of a [Receiver] object that [Receiver.t] leaves out and
    that [new_receiver], [receiver_location_update] and
    [receiver_disconnect] write; [distance] is the dict [uid -> distance]. *)
Record Station := {
  position_llh : llh;
  position : ecef;
  distance : gmap Z Q
}.

Definition set_position (p : llh) (e : ecef) (s : Station) : Station :=
  {| position_llh := p; position := e; distance := distance s |}.
Definition set_distance (f : gmap Z Q → gmap Z Q) (s : Station) : Station :=
  {| position_llh := position_llh s; position := position s;
     distance := f (distance s) |}.

(** The coordinator: the shared store, the remaining attributes of the
    receiver objects (by object), [uidCounter] and [usernames]. *)
Record Coord := {
  world : World;
  stations : gmap rid Station;
  uidCounter : Z;
  usernames : gmap string rid
}.

Definition set_world (f : World → World) (c : Coord) : Coord :=
  {| world := f (world c); stations := stations c; uidCounter := uidCounter c;
     usernames := usernames c |}.
Definition set_stations (f : gmap rid Station → gmap rid Station) (c : Coord) : Coord :=
  {| world := world c; stations := f (stations c); uidCounter := uidCounter c;
     usernames := usernames c |}.
Definition set_uidCounter (v : Z) (c : Coord) : Coord :=
  {| world := world c; stations := stations c; uidCounter := v;
     usernames := usernames c |}.
Definition set_usernames (f : gmap string rid → gmap string rid) (c : Coord) : Coord :=
  {| world := world c; stations := stations c; uidCounter := uidCounter c;
     usernames := f (usernames c) |}.

(** [Coordinator.__init__]. *)
Definition empty_coord (now : Q) : Coord :=
  {| world := empty_world now; stations := ∅; uidCounter := 0; usernames := ∅ |}.

(** What a call can raise: [ValueError], or an exception of a built-in
    operation. *)
Inductive error := ValueError | Builtin (e : exn).

Inductive result (A : Type) :=
| Done (a : A) (c : Coord)
| Failed (e : error) (c : Coord).
Arguments Done {A} a c.
Arguments Failed {A} e c.

(** [while uid in self.receivers: self.uidCounter += 1; uid = self.uidCounter],
    at most [fuel] iterations. *)
Fixpoint probe (fuel : nat) (receivers : gmap Z rid) (uidCounter : Z) : Z :=
  match fuel with
  | O => uidCounter
  | S fuel =>
    if bool_decide (is_Some (receivers !! uidCounter))
    then probe fuel receivers (uidCounter + 1)
    else uidCounter
  end.

Section Geodesy.

(** [geodesy.llh2ecef] and [geodesy.ecef_distance]. *)
Variable llh2ecef : llh → ecef.
Variable ecef_distance : ecef → ecef → Q.

(** [self.authenticator], with the [auth] argument of the connection: the
    callable returns the receiver as it leaves it, or raises. *)
Variable authenticator : option (Receiver.t * Station → option (Receiver.t * Station)).

(** The body of the loop of [_compute_interstation_distances]. *)
Definition distance_step (receiver : rid) (c : Coord) (other_receiver : rid) : Coord :=
  match rx_heap (world c) !! receiver, stations c !! receiver,
        rx_heap (world c) !! other_receiver, stations c !! other_receiver with
  | Some r, Some s, Some r2, Some s2 =>
    let distance :=
      if bool_decide (other_receiver = receiver) then 0%Q
      else ecef_distance (position s) (position s2) in
    let c := set_stations
               (alter (set_distance (<[Receiver.uid r2 := distance]>)) receiver) c in
    set_stations (alter (set_distance (<[Receiver.uid r := distance]>)) other_receiver) c
  | _, _, _, _ => c
  end.

(** [_compute_interstation_distances(receiver)]. *)
Definition _compute_interstation_distances (receiver : rid) (c : Coord) : Coord :=
  foldl (distance_step receiver) c (map_to_list (receivers (world c))).*2.

(** [new_receiver]; [mono] is [time.monotonic()].  The loop over
    [uidCounter] ends within [len(self.receivers) + 1] iterations.
    [clocksync.make_clock] is taken to return; the clock is not among the
    attributes above.  The new object is none of the objects of the
    store. *)
Definition new_receiver (mono : Q) (user : string) (position_llh : llh) (c : Coord)
    : result rid :=
  if bool_decide (is_Some (usernames c !! user)) then Failed ValueError c
  else
    let c := if 4611686018427387904 <? uidCounter c then set_uidCounter 0 c else c in
    let c :=
      set_uidCounter (probe (S (size (receivers (world c)))) (receivers (world c))
                        (uidCounter c)) c in
    let uid := uidCounter c in
    let receiver := fresh (dom (rx_heap (world c)) ∪ dom (stations c)) in
    let r := Receiver.init uid user mono in
    let s := {| position_llh := position_llh; position := llh2ecef position_llh;
                distance := ∅ |} in
    match match authenticator with
          | None => Some (r, s)
          | Some authenticate => authenticate (r, s)
          end with
    | None => Failed ValueError c
    | Some (r, s) =>
      let c := set_world (set_rx_heap (<[receiver := r]>)) c in
      let c := set_stations (<[receiver := s]>) c in
      let c := _compute_interstation_distances receiver c in
      let c := set_world (set_receivers (<[Receiver.uid r := receiver]>)) c in
      let c := set_usernames (<[Receiver.user r := receiver]>) c in
      Done receiver c
    end.

(** [receiver_location_update]. *)
Definition receiver_location_update (receiver : rid) (position_llh : llh) (c : Coord)
    : Coord :=
  let c := set_stations
             (alter (set_position position_llh (llh2ecef position_llh)) receiver) c in
  _compute_interstation_distances receiver c.

End Geodesy.

(** [other_receiver.distance.pop(receiver.uid, None)] for every connected
    receiver. *)
Definition forget_distance (uid : Z) (c : Coord) : Coord :=
  foldl (λ c other_receiver,
           set_stations (alter (set_distance (delete uid)) other_receiver) c)
        c (map_to_list (receivers (world c))).*2.

(** [receiver_disconnect], whole: [Coordinator.receiver_disconnect] above
    up to [self.receivers.pop(receiver.uid)], then
    [self.usernames.pop(receiver.user)], which raises [KeyError] when the
    name is not registered, and the loop over the remaining receivers. *)
Definition receiver_disconnect (receiver : rid) (c : Coord) : result unit :=
  match Coordinator.receiver_disconnect receiver (world c) with
  | Raised e w => Failed (Builtin e) (set_world (λ _, w) c)
  | Returned w =>
    let c := set_world (λ _, w) c in
    match rx_heap w !! receiver with
    | None => Done tt c
    | Some r =>
      match usernames c !! Receiver.user r with
      | None => Failed (Builtin KeyError) c
      | Some _ =>
        Done tt (forget_distance (Receiver.uid r)
                   (set_usernames (delete (Receiver.user r)) c))
      end
    end
  end.

End Connections.

(** The registries agree with the objects: [receivers] holds each
    connected receiver under its own [uid], [usernames] under its own
    [user], and the two name the same objects. *)
Definition coord_ok (c : Connections.Coord) : Prop :=
  (∀ uid rx, receivers (Connections.world c) !! uid = Some rx →
     ∃ r, rx_heap (Connections.world c) !! rx = Some r ∧ Receiver.uid r = uid
          ∧ Connections.usernames c !! Receiver.user r = Some rx
          ∧ is_Some (Connections.stations c !! rx))
  ∧ (∀ user rx, Connections.usernames c !! user = Some rx →
     ∃ r, rx_heap (Connections.world c) !! rx = Some r ∧ Receiver.user r = user
          ∧ receivers (Connections.world c) !! Receiver.uid r = Some rx).

(** The distance that receiver object [rx] holds for [uid]. *)
Definition distance_to (c : Connections.Coord) (rx : rid) (uid : Z) : option Q :=
  s ← Connections.stations c !! rx; Connections.distance s !! uid.

(** The [uid] of a receiver object, and the distance
    [_compute_interstation_distances(receiver)] computes for the object
    [other]. *)
Definition uid_of (c : Connections.Coord) (rx : rid) : option Z :=
  Receiver.uid <$> rx_heap (Connections.world c) !! rx.

Definition expected_distance (ecef_distance : Connections.ecef → Connections.ecef → Q)
    (c : Connections.Coord) (receiver other : rid) : option Q :=
  s ← Connections.stations c !! receiver;
  s2 ← Connections.stations c !! other;
  Some (if bool_decide (other = receiver) then 0%Q
        else ecef_distance (Connections.position s) (Connections.position s2)).

(** An authenticator that accepts every receiver and leaves its [uid] and
    [user] alone. *)
Definition accepting
    (authenticator : option (Receiver.t * Connections.Station
                             → option (Receiver.t * Connections.Station))) : Prop :=
  ∀ authenticate, authenticator = Some authenticate →
    ∀ r s, ∃ r' s', authenticate (r, s) = Some (r', s')
      ∧ Receiver.uid r' = Receiver.uid r ∧ Receiver.user r' = Receiver.user r.

(** ** Coordinator: the SIGHUP handlers *)

Module Sighup.

(** [sighup_handlers], the callables by identity, and whether the event
    loop has [self.sighup] installed for [SIGHUP]. *)
Record t := {
  sighup_handlers : list nat;
  installed : bool
}.

(** [Coordinator.__init__]: no handlers, nothing installed. *)
Definition init : t := {| sighup_handlers := []; installed := false |}.

(** [list.remove(x)]: drops the first occurrence of [x]; [None] is the
    [ValueError] it raises when there is none. *)
Fixpoint list_remove (x : nat) (l : list nat) : option (list nat) :=
  match l with
  | [] => None
  | y :: l => if bool_decide (y = x) then Some l else cons y <$> list_remove x l
  end.

(** [add_sighup_handler]. *)
Definition add_sighup_handler (handler : nat) (self : t) : t :=
  let self :=
    if bool_decide (sighup_handlers self = [])
    then {| sighup_handlers := sighup_handlers self; installed := true |}
    else self in
  {| sighup_handlers := sighup_handlers self ++ [handler]; installed := installed self |}.

(** [remove_sighup_handler]; [None] when [list.remove] raises, which
    leaves the coordinator as it was. *)
Definition remove_sighup_handler (handler : nat) (self : t) : option t :=
  match list_remove handler (sighup_handlers self) with
  | None => None
  | Some l =>
    let self := {| sighup_handlers := l; installed := installed self |} in
    Some (if bool_decide (sighup_handlers self = [])
          then {| sighup_handlers := sighup_handlers self; installed := false |}
          else self)
  end.

(** A call of one of the two, the caller going on after an exception. *)
Inductive call := Add (handler : nat) | Remove (handler : nat).

Definition run (self : t) (c : call) : t :=
  match c with
  | Add handler => add_sighup_handler handler self
  | Remove handler => default self (remove_sighup_handler handler self)
  end.

End Sighup.

(** ** Further scenarios *)


(** Distances along the first axis, positions taken as they are. *)
Definition axis_distance (p q : Connections.ecef) : Q :=
  if Qle_bool p.1.1 q.1.1 then q.1.1 - p.1.1 else p.1.1 - q.1.1.

Definition connect (user : string) (x : Q) (c : Connections.Coord) : Connections.Coord :=
  match Connections.new_receiver (λ p, p) axis_distance None 0 user (x, 0, 0)%Q c with
  | Connections.Done _ c => c
  | Connections.Failed _ c => c
  end.

(** One and two receivers connected to a new coordinator. *)
Definition one_connected : Connections.Coord := connect "a" 0 (Connections.empty_coord 0).
Definition two_connected : Connections.Coord := connect "b" 3 one_connected.
(** * Properties *)

#[local] Set Warnings "-clear-no-such-hyp".

(** ** Comparisons on rationals *)

Lemma Qltb_lt (x y : Q) : Qltb x y = true ↔ (x < y)%Q.
Proof.
  unfold Qltb. rewrite negb_true_iff, <- not_true_iff_false, Qle_bool_iff.
  split; [apply Qnot_le_lt | apply Qlt_not_le].
Qed.


(** ** The partition filter *)

Lemma in_local_partition_unfold (idx n icao : Z) :
  n ≠ 1 → in_local_partition (idx, n) icao = (partition_hash icao mod n =? idx - 1).
Proof.
  intros Hn. unfold in_local_partition; cbn [fst snd].
  destruct (Z.eqb_spec n 1); [contradiction | reflexivity].
Qed.

(** C8.  The filter is a function of the address and of
    [(partition_index, partition_count)]: with one partition it accepts
    every address, and with [n > 1] partitions every address is accepted
    for exactly one index, which lies in [1..n]; the test is
    [h mod n = index - 1] on the address mixed by two multiply rounds with
    [0x45d9f3b] cut to 32 bits and a last shift-xor. *)
Theorem in_local_partition_exactly_one (n icao : Z) (Hn : 1 < n) :
  (∀ idx, in_local_partition (idx, 1) icao = true)
  ∧ (∃ idx, 1 ≤ idx ≤ n
      ∧ in_local_partition (idx, n) icao = true
      ∧ ∀ idx', in_local_partition (idx', n) icao = true → idx' = idx)
  ∧ (∀ idx, in_local_partition (idx, n) icao
            = (partition_hash icao mod n =? idx - 1))
  ∧ partition_hash icao
    = (let h := Z.land (Z.lxor (Z.shiftr icao 16) icao * 0x45d9f3b) 0xFFFFFFFF in
       let h := Z.land (Z.lxor (Z.shiftr h 16) h * 0x45d9f3b) 0xFFFFFFFF in
       Z.lxor (Z.shiftr h 16) h).
Proof.
  assert (Hne : n ≠ 1) by lia.
  split; [reflexivity |].
  split.
  - exists (partition_hash icao mod n + 1).
    pose proof (Z.mod_pos_bound (partition_hash icao) n ltac:(lia)) as Hb.
    split; [lia |]. split.
    + rewrite in_local_partition_unfold by assumption. apply Z.eqb_eq. lia.
    + intros idx'. rewrite in_local_partition_unfold by assumption.
      intros H%Z.eqb_eq. lia.
  - split; [| reflexivity].
    intros idx. apply in_local_partition_unfold. assumption.
Qed.

Lemma in_local_partition_exactly_one_witness :
  in_local_partition (1, 1) 0xABCDEF = true
  ∧ ∃ idx, 1 ≤ idx ≤ 4 ∧ in_local_partition (idx, 4) 0xABCDEF = true
      ∧ ∀ idx', in_local_partition (idx', 4) 0xABCDEF = true → idx' = idx.
Proof.
  destruct (in_local_partition_exactly_one 4 0xABCDEF ltac:(lia)) as (H1 & H2 & _).
  split; [apply H1 | exact H2].
Defined.

(** ** The clock-quality scorer *)








(** ** The score clamp *)












(** ** incrementJumps with no peer *)

(** C10, on the code: a receiver as [Receiver.__init__] leaves it has
    [sync_peers = 0]; [incrementJumps] increments [recent_pair_jumps] and
    then raises [ZeroDivisionError]. *)
Theorem incrementJumps_raises_without_peers :
  Receiver.sync_peers (Receiver.init 0 "r" 0) = 0
  ∧ returns (Receiver.incrementJumps 0 (Receiver.init 0 "r" 0)) = false
  ∧ Receiver.incrementJumps 0 (Receiver.init 0 "r" 0)
    = Raised ZeroDivisionError
        (Receiver.set_recent_pair_jumps 1 (Receiver.init 0 "r" 0)).
Proof. repeat split. Qed.

(** ** Result fan-out *)

Lemma forward_loop_trace (connection : rid → Coordinator.call_result) (l : list rid) :
  snd (Coordinator.forward_loop connection l) = None
  ∧ called (fst (Coordinator.forward_loop connection l)) = l
  ∧ logged (fst (Coordinator.forward_loop connection l))
    = filter (λ r, raises connection r = true) l.
Proof.
  induction l as [| r l (IH1 & IH2 & IH3)]; [repeat split |].
  cbn [Coordinator.forward_loop]. unfold Coordinator.try_report.
  destruct (Coordinator.forward_loop connection l) as [ev res].
  cbn [fst snd] in *. subst res. unfold called, logged in *.
  destruct (connection r) as [| m] eqn:Hc; cbn [fst snd].
  - rewrite filter_cons_False by (unfold raises; rewrite Hc; discriminate).
    cbn. rewrite IH2, IH3. auto.
  - rewrite filter_cons_True by (unfold raises; rewrite Hc; reflexivity).
    cbn. rewrite IH2, IH3. auto.
Qed.

(** C9.  [forward_results] never lets an exception reach its caller.  When
    the Kalman state is invalid and [dof < 1] it calls no connection;
    otherwise it calls [report_mlat_position] for every receiver of the
    contributing set, in order, whether or not an earlier call raised, and
    logs one failure for each call that raised.  So no connection is
    called exactly when the result is discarded or the set is empty. *)
Theorem forward_results_fanout (connection : rid → Coordinator.call_result)
    (receivers : list rid) (dof : Z) (valid : bool) :
  let out := Coordinator.forward_results connection receivers dof valid in
  let discard := negb valid && (dof <? 1) in
  snd out = None
  ∧ (discard = true ↔ valid = false ∧ dof < 1)
  ∧ (if discard then fst out = []
     else called (fst out) = receivers
          ∧ logged (fst out) = filter (λ r, raises connection r = true) receivers)
  ∧ (called (fst out) = [] ↔ discard = true ∨ receivers = []).
Proof.
  intros out discard.
  destruct (forward_loop_trace connection receivers) as (H1 & H2 & H3).
  assert (Hd : discard = true ↔ valid = false ∧ dof < 1).
  { unfold discard. rewrite andb_true_iff, negb_true_iff, Z.ltb_lt. reflexivity. }
  unfold out, Coordinator.forward_results. fold discard.
  destruct discard eqn:E; cbn [fst snd].
  - split; [reflexivity |]. split; [exact Hd |]. split; [reflexivity |].
    split; [auto | reflexivity].
  - split; [exact H1 |]. split; [exact Hd |]. split; [auto |].
    rewrite H2. split; [auto |]. intros [? | ?]; [discriminate | assumption].
Qed.

(** ** The MLAT-wanted refresh *)

Lemma refresh_one_rule (cfg : Config) (now rnd : Q) (a : TrackedAircraft.t) :
  (snd (Tracker.refresh_one cfg now rnd a) = true ↔ wanted_test cfg now a)
  ∧ TrackedAircraft.do_mlat (fst (Tracker.refresh_one cfg now rnd a))
    = snd (Tracker.refresh_one cfg now rnd a)
  ∧ TrackedAircraft.icao (fst (Tracker.refresh_one cfg now rnd a)) = TrackedAircraft.icao a.
Proof.
  unfold Tracker.refresh_one, wanted_test.
  set (interval := inject_Z (FORCE_MLAT_INTERVAL cfg)).
  set (sf := (now - TrackedAircraft.last_force_mlat a)%Q).
  set (a1 := if negb (TrackedAircraft.force_mlat a) && Qltb (interval - 15) sf
             then _ else _).
  set (a2 := if Qltb (interval + 15) sf then _ else _).
  assert (Hallow : TrackedAircraft.allow_mlat a2 = TrackedAircraft.allow_mlat a).
  { unfold a2, a1. destruct (Qltb (interval + 15) sf), (negb _ && _); reflexivity. }
  assert (Hbad : TrackedAircraft.sync_bad_percent a2 = TrackedAircraft.sync_bad_percent a).
  { unfold a2, a1. destruct (Qltb (interval + 15) sf), (negb _ && _); reflexivity. }
  assert (Hicao : TrackedAircraft.icao a2 = TrackedAircraft.icao a).
  { unfold a2, a1. destruct (Qltb (interval + 15) sf), (negb _ && _); reflexivity. }
  rewrite Hallow, Hbad.
  match goal with |- context [if ?c then _ else _] => destruct c eqn:E end;
    cbn [fst snd TrackedAircraft.do_mlat TrackedAircraft.set_do_mlat TrackedAircraft.icao].
  - split; [| auto]. split; [intros _ | reflexivity].
    rewrite !andb_true_iff, !orb_true_iff, andb_true_iff, !Qltb_lt in E.
    destruct E as [[E1 E2] E3]. apply Nat.leb_le in E1. tauto.
  - split; [| auto]. split; [discriminate |]. intros (H1 & H2 & H3).
    exfalso. apply not_true_iff_false in E. apply E.
    rewrite !andb_true_iff, !orb_true_iff, andb_true_iff, !Qltb_lt.
    apply Nat.leb_le in H1. tauto.
Qed.

(** ** Loops over sets of aircraft *)

Lemma foldr_upd_ac_frame (f : TrackedAircraft.t → TrackedAircraft.t) (l : list aid)
    (w : World) :
  let w' := foldr (λ ac w, upd_ac ac f w) w l in
  aircraft w' = aircraft w ∧ mlat_wanted w' = mlat_wanted w
  ∧ mlat_wanted_ts w' = mlat_wanted_ts w ∧ receivers w' = receivers w
  ∧ rx_heap w' = rx_heap w ∧ scheduled w' = scheduled w.
Proof.
  induction l as [| ac l IH]; [cbn; auto 10 |]. exact IH.
Qed.

Lemma foldr_upd_ac_lookup (f : TrackedAircraft.t → TrackedAircraft.t) (l : list aid)
    (w : World) (ac : aid) :
  NoDup l →
  ac_heap (foldr (λ ac w, upd_ac ac f w) w l) !! ac
  = if decide (ac ∈ l) then f <$> ac_heap w !! ac else ac_heap w !! ac.
Proof.
  induction 1 as [| x l Hx Hl IH].
  - cbn. rewrite decide_False by apply not_elem_of_nil. reflexivity.
  - cbn [foldr]. unfold upd_ac at 1. cbn [ac_heap set_ac_heap].
    rewrite lookup_alter. destruct (decide (x = ac)) as [<- | Hac].
    + rewrite IH, (decide_False (P := x ∈ l)) by assumption.
      rewrite decide_True by apply list_elem_of_here. reflexivity.
    + rewrite IH. destruct (decide (ac ∈ l)) as [Hin | Hin].
      * rewrite decide_True by (apply list_elem_of_further, Hin). reflexivity.
      * rewrite decide_False; [reflexivity |].
        intros [? | ?]%elem_of_cons; congruence.
Qed.

Lemma upd_acs_frame s f w :
  let w' := upd_acs s f w in
  aircraft w' = aircraft w ∧ mlat_wanted w' = mlat_wanted w
  ∧ mlat_wanted_ts w' = mlat_wanted_ts w ∧ receivers w' = receivers w
  ∧ rx_heap w' = rx_heap w ∧ scheduled w' = scheduled w.
Proof. apply foldr_upd_ac_frame. Qed.

Lemma upd_acs_lookup (s : gset aid) f w (ac : aid) :
  ac_heap (upd_acs s f w) !! ac
  = if decide (ac ∈ s) then f <$> ac_heap w !! ac else ac_heap w !! ac.
Proof.
  unfold upd_acs. rewrite foldr_upd_ac_lookup by apply NoDup_elements.
  destruct (decide (ac ∈ s)) as [H | H].
  - rewrite decide_True by (apply elem_of_elements, H). reflexivity.
  - rewrite decide_False; [reflexivity |]. rewrite elem_of_elements. exact H.
Qed.

(** ** The refresh loop over the registry *)

Lemma refresh_fold (cfg : Config) (o : Oracle) (now : Q) (l : list aid) :
  NoDup l → ∀ (w : World) (s : gset aid),
  let out := foldl (Tracker.refresh_step cfg o now) (w, s) l in
  aircraft out.1 = aircraft w ∧ rx_heap out.1 = rx_heap w
  ∧ receivers out.1 = receivers w ∧ scheduled out.1 = scheduled w
  ∧ (∀ ac, ac_heap out.1 !! ac
           = if decide (ac ∈ l)
             then (λ a, (Tracker.refresh_one cfg now (random o (TrackedAircraft.icao a)) a).1)
                    <$> ac_heap w !! ac
             else ac_heap w !! ac)
  ∧ (∀ ac, ac ∈ out.2 ↔
           ac ∈ s ∨ (ac ∈ l ∧ ∃ a, ac_heap w !! ac = Some a
                     ∧ (Tracker.refresh_one cfg now (random o (TrackedAircraft.icao a)) a).2
                       = true)).
Proof.
  induction 1 as [| x l Hx Hl IH]; intros w s.
  - cbn [foldl fst snd]. do 4 (split; [reflexivity |]). split.
    + intros ac. rewrite decide_False by apply not_elem_of_nil. reflexivity.
    + intros ac. split; [auto |]. intros [? | [[]%elem_of_nil _]]. assumption.
  - cbn [foldl].
    destruct (ac_heap w !! x) as [a |] eqn:Ha.
    + destruct (Tracker.refresh_one cfg now (random o (TrackedAircraft.icao a)) a)
        as [a' want] eqn:Hr.
      replace (Tracker.refresh_step cfg o now (w, s) x)
        with (upd_ac x (λ _, a') w, if want then {[x]} ∪ s else s)
        by (unfold Tracker.refresh_step; rewrite Ha, Hr; reflexivity).
      specialize (IH (upd_ac x (λ _, a') w) (if want then {[x]} ∪ s else s)).
      cbn zeta in IH. destruct IH as (I1 & I2 & I3 & I4 & I5 & I6).
      split; [exact I1 |]. split; [exact I2 |]. split; [exact I3 |].
      split; [exact I4 |]. split.
      * intros ac. rewrite I5. unfold upd_ac. cbn [ac_heap set_ac_heap].
        rewrite lookup_alter. destruct (decide (ac ∈ l)) as [Hin | Hin].
        -- rewrite (decide_True (P := ac ∈ x :: l)) by (apply list_elem_of_further, Hin).
           rewrite (decide_False (P := x = ac)) by (intros ->; contradiction). reflexivity.
        -- destruct (decide (x = ac)) as [<- | Hac].
           ++ rewrite decide_True by apply list_elem_of_here.
              rewrite Ha. cbn. rewrite Hr. reflexivity.
           ++ rewrite decide_False; [reflexivity |].
              intros [? | ?]%elem_of_cons; congruence.
      * intros ac. rewrite I6. unfold upd_ac. cbn [ac_heap set_ac_heap].
        split.
        -- intros [Hs | (Hin & b & Hb & Hw)].
           ++ destruct want; [| auto].
              apply elem_of_union in Hs as [->%elem_of_singleton | Hs]; [| auto].
              right. split; [apply list_elem_of_here |].
              exists a. rewrite Hr. auto.
           ++ right. split; [apply list_elem_of_further, Hin |].
              rewrite lookup_alter_ne in Hb by (intros ->; contradiction). eauto.
        -- intros [Hs | ([-> | Hin]%elem_of_cons & b & Hb & Hw)].
           ++ left. destruct want; [apply elem_of_union_r |]; exact Hs.
           ++ left. rewrite Ha in Hb. injection Hb as <-. rewrite Hr in Hw.
              cbn in Hw. subst want. apply elem_of_union_l, elem_of_singleton. reflexivity.
           ++ right. split; [exact Hin |]. exists b.
              rewrite lookup_alter_ne by (intros ->; contradiction). auto.
    + replace (Tracker.refresh_step cfg o now (w, s) x) with (w, s)
        by (unfold Tracker.refresh_step; rewrite Ha; reflexivity).
      specialize (IH w s). cbn zeta in IH. destruct IH as (I1 & I2 & I3 & I4 & I5 & I6).
      split; [exact I1 |]. split; [exact I2 |]. split; [exact I3 |].
      split; [exact I4 |]. split; [| intros ac; split].
      * intros ac. rewrite I5. destruct (decide (ac ∈ l)) as [Hin | Hin].
        -- rewrite decide_True by (apply list_elem_of_further, Hin). reflexivity.
        -- case (decide (ac = x)) as [-> | Hac].
           ++ rewrite decide_True by apply list_elem_of_here. rewrite Ha. reflexivity.
           ++ rewrite decide_False; [reflexivity |].
              intros [? | ?]%elem_of_cons; congruence.
      * rewrite I6. intros [Hs | (Hin & b & Hb & Hw)]; [auto |].
        right. split; [apply list_elem_of_further, Hin | eauto].
      * rewrite I6. intros [Hs | ([-> | Hin]%elem_of_cons & b & Hb & Hw)]; [auto | congruence |].
        right. eauto.
Qed.

Lemma registry_values_NoDup (w : World) :
  registry_ok w → NoDup ((map_to_list (aircraft w)).*2).
Proof.
  intros Hok. apply NoDup_fmap_2_strong; [| apply NoDup_map_to_list].
  intros [i ac] [j ac'] Hi Hj Heq. cbn in Heq. subst ac'.
  apply elem_of_map_to_list in Hi, Hj.
  destruct (Hok i ac Hi) as (a & Ha & Hai), (Hok j ac Hj) as (b & Hb & Hbj).
  congruence.
Qed.

(** C2, as the code has it.  After the MLAT-wanted refresh, an aircraft of
    the registry is in [mlat_wanted], and its [do_mlat] is true, exactly
    when it had at least two tracking receivers, [allow_mlat] held, and
    one of: no ADS-B for more than [NO_ADSB_MLAT_SECONDS], or
    [sync_bad_percent > 10], or [interval - 15 < since_force < interval]
    with [since_force = now - last_force_mlat] as the pass found it;
    otherwise [do_mlat] is false. *)
Theorem mlat_wanted_refresh_rule (cfg : Config) (o : Oracle) (now : Q) (w : World)
    (icao : Z) (ac : aid) (a : TrackedAircraft.t) :
  registry_ok w → aircraft w !! icao = Some ac → ac_heap w !! ac = Some a →
  let w' := Tracker.refresh_mlat_wanted cfg o now w in
  (ac ∈ mlat_wanted w' ↔ wanted_test cfg now a)
  ∧ (∃ a', ac_heap w' !! ac = Some a'
           ∧ (TrackedAircraft.do_mlat a' = true ↔ wanted_test cfg now a)
           ∧ (TrackedAircraft.do_mlat a' = false ↔ ¬ wanted_test cfg now a))
  ∧ mlat_wanted_ts w' = now.
Proof.
  intros Hok Hreg Ha w'.
  pose proof (refresh_fold cfg o now _ (registry_values_NoDup w Hok) w ∅) as H.
  cbn zeta in H. unfold w', Tracker.refresh_mlat_wanted.
  destruct (foldl _ _ _) as [w1 wanted]. cbn [fst snd] in H.
  destruct H as (_ & _ & _ & _ & H5 & H6).
  cbn [mlat_wanted mlat_wanted_ts ac_heap set_mlat_wanted].
  assert (Hin : ac ∈ (map_to_list (aircraft w)).*2).
  { apply list_elem_of_fmap. exists (icao, ac). split; [reflexivity |].
    apply elem_of_map_to_list, Hreg. }
  destruct (refresh_one_rule cfg now (random o (TrackedAircraft.icao a)) a)
    as (R1 & R2 & _).
  split; [| split; [| reflexivity]].
  - rewrite H6, <- R1. split.
    + intros [[]%elem_of_empty | (_ & b & Hb & Hw)]. congruence.
    + intros Hw. right. eauto.
  - eexists. rewrite H5, decide_True, Ha by exact Hin. split; [reflexivity |].
    cbn beta. rewrite R2. split; [exact R1 |].
    rewrite <- R1. symmetry. apply not_true_iff_false.
Qed.

Lemma mlat_wanted_refresh_rule_witness :
  0%nat ∈ mlat_wanted (Tracker.refresh_mlat_wanted example_config plain_oracle 1000 late_world)
  ↔ wanted_test example_config 1000 late_aircraft.
Proof.
  apply (mlat_wanted_refresh_rule example_config plain_oracle 1000 late_world
           0xABCDEF 0%nat late_aircraft).
  - intros icao ac H. unfold late_world in H. cbn in H.
    apply lookup_singleton_Some in H as [<- <-].
    exists late_aircraft. split; reflexivity.
  - reflexivity.
  - reflexivity.
Defined.

(** C2 as stated fails inside the claimed window: at 605 seconds after
    [last_force_mlat] (interval 600), with recent ADS-B and good sync, the
    aircraft satisfies the claimed condition and is not marked. *)
Lemma force_window_not_wanted :
  let a := late_aircraft in
  let now := 1000%Q in
  let interval := inject_Z (FORCE_MLAT_INTERVAL example_config) in
  let since_force := (now - TrackedAircraft.last_force_mlat a)%Q in
  ((2 ≤ size (TrackedAircraft.tracking a))%nat
   ∧ TrackedAircraft.allow_mlat a = true
   ∧ ((interval - 15 <= since_force)%Q ∧ (since_force <= interval + 15)%Q))
  ∧ snd (Tracker.refresh_one example_config now 0 a) = false
  ∧ TrackedAircraft.do_mlat (fst (Tracker.refresh_one example_config now 0 a)) = false
  ∧ 0%nat ∉ mlat_wanted
              (Tracker.refresh_mlat_wanted example_config plain_oracle now late_world).
Proof.
  cbv zeta. split; [| split; [| split]].
  - split; [vm_compute; lia |]. split; [reflexivity |].
    split; vm_compute; discriminate.
  - vm_compute. reflexivity.
  - vm_compute. reflexivity.
  - apply (proj1 (bool_decide_eq_false _)). vm_compute. reflexivity.
Qed.

(** ** The interest commit *)

Lemma round_quarter_le (m n : nat) : (m < 4 * n)%nat → (round_quarter m ≤ n)%nat.
Proof.
  intros H. unfold round_quarter.
  pose proof (Nat.div_mod_eq m 4) as Hm.
  pose proof (Nat.mod_upper_bound m 4 ltac:(lia)) as Hr.
  destruct (m mod 4)%nat as [| [| [| k]]]; try destruct (Nat.even _); lia.
Qed.

Lemma round_quarter_le_self (m : nat) : (round_quarter m ≤ m)%nat.
Proof.
  unfold round_quarter.
  pose proof (Nat.div_mod_eq m 4) as Hm.
  pose proof (Nat.mod_upper_bound m 4 ltac:(lia)) as Hr.
  destruct (m mod 4)%nat as [| [| [| k]]]; try destruct (Nat.even _); lia.
Qed.

Lemma sample_size (smp : list aid → nat → list aid) (s : gset aid) (k : nat) :
  sample_ok smp → (k ≤ size s)%nat →
  size (list_to_set (smp (elements s) k) : gset aid) = k.
Proof.
  intros Hok Hk.
  destruct (Hok (elements s) k Hk (NoDup_elements s)) as (Hlen & Hnd & _).
  rewrite size_list_to_set by exact Hnd. exact Hlen.
Qed.

Lemma upd_acs_rx_heap s f w : rx_heap (upd_acs s f w) = rx_heap w.
Proof. apply upd_acs_frame. Qed.
Lemma upd_acs_mlat_wanted s f w : mlat_wanted (upd_acs s f w) = mlat_wanted w.
Proof. apply upd_acs_frame. Qed.
Lemma upd_acs_aircraft s f w : aircraft (upd_acs s f w) = aircraft w.
Proof. apply upd_acs_frame. Qed.

(** What [update_interest_sets] assigns to the receiver. *)
Lemma update_interest_sets_commit (cfg : Config) (o : Oracle) (self : rid)
    (new_sync new_mlat new_adsb : gset aid) (w : World) (r : Receiver.t) :
  rx_heap w !! self = Some r →
  let w' := update_interest_sets cfg o self new_sync new_mlat new_adsb w in
  rx_heap w' !! self
  = Some (Receiver.set_interest new_adsb
            (if Qltb 2 (Receiver.bad_syncs r)
                && (MAX_SYNC_AC cfg <? 4 * size new_sync)%nat
             then list_to_set (sample o (elements new_sync)
                                 (round_quarter (MAX_SYNC_AC cfg)))
             else new_sync)
            (if Qltb 0 (Receiver.bad_syncs r) then ∅ else new_mlat) r)
  ∧ mlat_wanted w' = mlat_wanted w
  ∧ aircraft w' = aircraft w.
Proof.
  intros Hr w'. unfold w', update_interest_sets. rewrite Hr. cbv zeta.
  unfold upd_rx. cbn [rx_heap mlat_wanted aircraft set_rx_heap].
  rewrite !upd_acs_rx_heap, !upd_acs_mlat_wanted, !upd_acs_aircraft.
  rewrite lookup_alter_eq, Hr. auto.
Qed.

Lemma refresh_frame (cfg : Config) (o : Oracle) (now : Q) (w : World) :
  rx_heap (Tracker.refresh_mlat_wanted cfg o now w) = rx_heap w
  ∧ aircraft (Tracker.refresh_mlat_wanted cfg o now w) = aircraft w.
Proof.
  unfold Tracker.refresh_mlat_wanted.
  generalize ((map_to_list (aircraft w)).*2). intros l.
  assert (H : ∀ (w0 : World) (s : gset aid),
             rx_heap (foldl (Tracker.refresh_step cfg o now) (w0, s) l).1 = rx_heap w0
             ∧ aircraft (foldl (Tracker.refresh_step cfg o now) (w0, s) l).1 = aircraft w0).
  { induction l as [| x l IH]; intros w0 s; [auto |].
    cbn [foldl]. unfold Tracker.refresh_step at 2 4.
    destruct (ac_heap w0 !! x) as [a |]; [| apply IH].
    destruct (Tracker.refresh_one _ _ _ _) as [a' want].
    destruct (IH (upd_ac x (λ _, a') w0) (if want then {[x]} ∪ s else s)) as [H1 H2].
    rewrite H1, H2. auto. }
  specialize (H w ∅). destruct (foldl _ _ _) as [w1 wanted]. exact H.
Qed.

Lemma collect_frame (o : Oracle) (now : Q) (receiver : rid) (report : list (Z * Q))
    (acc : Tracker.collected) :
  let out := foldl (Tracker.collect_step o now receiver) acc report in
  rx_heap out.1.1.1 = rx_heap acc.1.1.1
  ∧ mlat_wanted out.1.1.1 = mlat_wanted acc.1.1.1
  ∧ aircraft out.1.1.1 = aircraft acc.1.1.1.
Proof.
  revert acc. induction report as [| [icao rate] report IH]; intros acc; [cbn; auto |].
  cbn [foldl].
  specialize (IH (Tracker.collect_step o now receiver acc (icao, rate))).
  cbv zeta in *. destruct IH as (I1 & I2 & I3). rewrite I1, I2, I3.
  destruct acc as [[[w na] m] l]. unfold Tracker.collect_step.
  destruct (aircraft w !! icao) as [ac |]; [| auto].
  destruct (ac_heap _ !! ac); auto.
Qed.

(** What a run of [update_interest] commits for the receiver: the sets
    handed to [update_interest_sets] and the receiver it leaves. *)
Lemma update_interest_commit (cfg : Config) (o : Oracle) (now : Q) (receiver : rid)
    (w : World) (r : Receiver.t) :
  rx_heap w !! receiver = Some r →
  let w' := Tracker.update_interest cfg o now receiver w in
  ∃ new_sync new_adsb : gset aid,
    rx_heap w' !! receiver
    = Some (Receiver.set_interest new_adsb
              (if Qltb 2 (Receiver.bad_syncs r)
                  && (MAX_SYNC_AC cfg <? 4 * size new_sync)%nat
               then list_to_set (sample o (elements new_sync)
                                   (round_quarter (MAX_SYNC_AC cfg)))
               else new_sync)
              (if Qltb 0 (Receiver.bad_syncs r) then ∅
               else Receiver.tracking r ∩ mlat_wanted w') r)
    ∧ (Receiver.last_rate_report r = None →
       new_sync = Tracker.legacy_sync cfg o (Receiver.tracking r)).
Proof.
  intros Hr w'. unfold w', Tracker.update_interest. rewrite Hr. cbv zeta.
  set (w1 := if Qltb 0.1 (now - mlat_wanted_ts w)
             then Tracker.refresh_mlat_wanted cfg o now w else w).
  assert (Hr1 : rx_heap w1 !! receiver = Some r).
  { unfold w1. destruct (Qltb 0.1 _); [| exact Hr].
    rewrite (proj1 (refresh_frame cfg o now w)). exact Hr. }
  destruct (Receiver.last_rate_report r) as [report |] eqn:Hrep.
  - pose proof (collect_frame o now receiver report (w1, ∅, ∅, [])) as Hc.
    cbv zeta in Hc.
    destruct (foldl _ _ report) as [[[w2 new_adsb] m] l]. cbn [fst] in Hc.
    destruct Hc as (C1 & C2 & _).
    destruct (update_interest_sets_commit cfg o receiver
                (Tracker.rate_aware_sync cfg o w2 (Receiver.tracking r) m l)
                (Receiver.tracking r ∩ mlat_wanted w1) new_adsb w2 r) as (U1 & U2 & _).
    { rewrite C1. exact Hr1. }
    eexists _, new_adsb. split; [| discriminate].
    cbn [rx_heap mlat_wanted call_soon]. rewrite U1, U2, C2. reflexivity.
  - destruct (update_interest_sets_commit cfg o receiver
                (Tracker.legacy_sync cfg o (Receiver.tracking r))
                (Receiver.tracking r ∩ mlat_wanted w1) ∅ w1 r Hr1) as (U1 & U2 & _).
    eexists _, ∅. split; [| reflexivity].
    cbn [rx_heap mlat_wanted call_soon]. rewrite U1, U2. reflexivity.
Qed.

(** C3.  After a run of the interest selector the receiver's committed
    [mlat_interest] is its tracking set intersected with the tracker's
    [mlat_wanted], unless its [bad_syncs] is positive, in which case the
    committed set is empty. *)
Theorem mlat_interest_committed (cfg : Config) (o : Oracle) (now : Q) (receiver : rid)
    (w : World) (r : Receiver.t) :
  rx_heap w !! receiver = Some r →
  let w' := Tracker.update_interest cfg o now receiver w in
  ∃ r', rx_heap w' !! receiver = Some r'
    ∧ Receiver.tracking r' = Receiver.tracking r
    ∧ Receiver.bad_syncs r' = Receiver.bad_syncs r
    ∧ ((0 < Receiver.bad_syncs r')%Q → Receiver.mlat_interest r' = ∅)
    ∧ (¬ (0 < Receiver.bad_syncs r')%Q →
       Receiver.mlat_interest r' = Receiver.tracking r' ∩ mlat_wanted w').
Proof.
  intros Hr w'.
  destruct (update_interest_commit cfg o now receiver w r Hr)
    as (new_sync & new_adsb & Hw' & _).
  fold w' in Hw'. eexists. split; [exact Hw' |].
  cbn [Receiver.tracking Receiver.bad_syncs Receiver.mlat_interest Receiver.set_interest].
  split; [reflexivity |]. split; [reflexivity |].
  destruct (Qltb 0 (Receiver.bad_syncs r)) eqn:E.
  - split; [reflexivity |]. intros H. exfalso. apply H, Qltb_lt, E.
  - split; [| reflexivity]. intros H. apply Qltb_lt in H. congruence.
Qed.

Lemma mlat_interest_committed_witness :
  let w' := Tracker.update_interest example_config plain_oracle 200 0%nat tracked_world in
  ∃ r', rx_heap w' !! 0%nat = Some r'
    ∧ (¬ (0 < Receiver.bad_syncs r')%Q →
       Receiver.mlat_interest r' = Receiver.tracking r' ∩ mlat_wanted w').
Proof.
  intros w'.
  edestruct (mlat_interest_committed example_config plain_oracle 200 0%nat tracked_world)
    as (r' & H1 & _ & _ & _ & H5); [vm_compute; reflexivity |].
  exists r'. split; [exact H1 | exact H5].
Defined.

(** ** The size of the committed sync set *)

Lemma quarter_le_round_quarter (m : nat) : (m / 4 ≤ round_quarter m)%nat.
Proof.
  unfold round_quarter.
  destruct (m mod 4)%nat as [| [| [| k]]]; try destruct (Nat.even _); lia.
Qed.

Lemma legacy_sync_size (cfg : Config) (o : Oracle) (tracking : gset aid) :
  sample_ok (sample o) →
  (size (Tracker.legacy_sync cfg o tracking) ≤ MAX_SYNC_AC cfg)%nat.
Proof.
  intros Hok. unfold Tracker.legacy_sync.
  destruct (Nat.ltb_spec (MAX_SYNC_AC cfg) (size tracking)) as [H | H]; [| exact H].
  rewrite sample_size by (auto; lia). reflexivity.
Qed.

(** The set [update_interest_sets] commits, against the set it is given. *)
Lemma attenuated_size (cfg : Config) (o : Oracle) (bad_syncs : Q) (new_sync : gset aid) :
  sample_ok (sample o) →
  let committed :=
    if Qltb 2 bad_syncs && (MAX_SYNC_AC cfg <? 4 * size new_sync)%nat
    then list_to_set (sample o (elements new_sync) (round_quarter (MAX_SYNC_AC cfg)))
    else new_sync : gset aid in
  (size committed ≤ size new_sync)%nat
  ∧ ((2 < bad_syncs)%Q → (size committed ≤ round_quarter (MAX_SYNC_AC cfg))%nat).
Proof.
  intros Hok committed. unfold committed.
  destruct (Qltb 2 bad_syncs) eqn:Eb; cbn [andb].
  - destruct (Nat.ltb_spec (MAX_SYNC_AC cfg) (4 * size new_sync)) as [H | H].
    + pose proof (round_quarter_le _ _ H) as Hq.
      rewrite sample_size by assumption. auto.
    + split; [reflexivity |]. intros _.
      pose proof (quarter_le_round_quarter (MAX_SYNC_AC cfg)) as Hq.
      pose proof (Nat.div_le_lower_bound (MAX_SYNC_AC cfg) 4 (size new_sync)
                    ltac:(lia) H). lia.
  - split; [reflexivity |]. intros H%Qltb_lt. congruence.
Qed.

(** C6, as the code has it.  For a legacy client (no rate report), and for
    any receiver with [bad_syncs > 2], the committed sync set has at most
    [MAX_SYNC_AC] aircraft; with [bad_syncs > 2] it has at most
    [round(MAX_SYNC_AC / 4)].  (With a rate report and [bad_syncs <= 2]
    the two rounds are limited by [MAX_SYNC_RATE] and the peer budgets,
    not by [MAX_SYNC_AC].) *)
Theorem sync_interest_bound (cfg : Config) (o : Oracle) (now : Q) (receiver : rid)
    (w : World) (r : Receiver.t) :
  sample_ok (sample o) →
  rx_heap w !! receiver = Some r →
  Receiver.last_rate_report r = None ∨ (2 < Receiver.bad_syncs r)%Q →
  let w' := Tracker.update_interest cfg o now receiver w in
  ∃ r', rx_heap w' !! receiver = Some r'
    ∧ (size (Receiver.sync_interest r') ≤ MAX_SYNC_AC cfg)%nat
    ∧ ((2 < Receiver.bad_syncs r)%Q →
       (size (Receiver.sync_interest r') ≤ round_quarter (MAX_SYNC_AC cfg))%nat).
Proof.
  intros Hok Hr Hmode w'.
  destruct (update_interest_commit cfg o now receiver w r Hr)
    as (new_sync & new_adsb & Hw' & Hlegacy).
  fold w' in Hw'. eexists. split; [exact Hw' |].
  cbn [Receiver.sync_interest Receiver.set_interest].
  destruct (attenuated_size cfg o (Receiver.bad_syncs r) new_sync Hok) as [A1 A2].
  split; [| exact A2].
  destruct Hmode as [Hnone | Hbad].
  - etransitivity; [exact A1 |]. rewrite (Hlegacy Hnone).
    apply legacy_sync_size, Hok.
  - etransitivity; [apply A2, Hbad | apply round_quarter_le_self].
Qed.

Lemma take_sample_ok : sample_ok (λ l k, take k l).
Proof.
  intros l k Hk Hnd. split; [| split].
  - rewrite length_take. lia.
  - apply (sublist_NoDup _ l Hnd), sublist_take.
  - apply sublist_subseteq, sublist_take.
Qed.

Lemma sync_interest_bound_witness :
  let w' := Tracker.update_interest example_config plain_oracle 200 0%nat crowded_world in
  ∃ r', rx_heap w' !! 0%nat = Some r'
    ∧ (size (Receiver.sync_interest r') ≤ MAX_SYNC_AC example_config)%nat.
Proof.
  intros w'.
  edestruct (sync_interest_bound example_config plain_oracle 200 0%nat crowded_world)
    as (r' & H1 & H2 & _);
    [exact take_sample_ok | vm_compute; reflexivity | left; reflexivity |].
  exists r'. split; [exact H1 | exact H2].
Defined.

(** C6 as stated fails with a rate report: of twenty-one aircraft seen at
    0.1 messages per second each, all are committed although
    [MAX_SYNC_AC = 20]; their rates add up to 2.1, below
    [MAX_SYNC_RATE = 3]. *)
Lemma rate_aware_exceeds_max_sync_ac :
  Receiver.bad_syncs <$> rx_heap crowd_selected !! 0%nat = Some 0%Q
  ∧ Receiver.last_rate_report <$> rx_heap crowd_selected !! 0%nat
    = Some (Some crowd_report)
  ∧ (λ r, size (Receiver.sync_interest r)) <$> rx_heap crowd_selected !! 0%nat
    = Some 21%nat
  ∧ ¬ (21 ≤ MAX_SYNC_AC example_config `max` (MAX_SYNC_AC example_config / 4))%nat.
Proof.
  split; [vm_compute; reflexivity |].
  split; [vm_compute; reflexivity |].
  split; [vm_compute; reflexivity |].
  vm_compute. lia.
Qed.

(** ** add followed by remove *)

Section AddRemove.

Context (cfg : Config) (o : Oracle) (now : Q).
Context (w0 : World) (r : rid) (r0 : Receiver.t) (S : list Z).

Hypothesis Hreg : registry_ok w0.
Hypothesis Hr0 : rx_heap w0 !! r = Some r0.
Hypothesis Hlive : ∀ ac, ac ∈ Receiver.tracking r0 → is_Some (ac_heap w0 !! ac).
Hypothesis Hnew : ∀ icao ac a,
  icao ∈ S → aircraft w0 !! icao = Some ac → ac_heap w0 !! ac = Some a →
  (r ∉ TrackedAircraft.tracking a) ∧ (TrackedAircraft.tracking a ≠ ∅)
  ∧ (ac ∉ Receiver.tracking r0).

Lemma inv_start : add_remove_inv w0 r r0 ∅ w0.
Proof.
  split; auto.
  - intros icao _ []%elem_of_empty.
  - intros ac a Ha. exists (TrackedAircraft.seen a). rewrite Ha. f_equal.
    unfold pending_tracking. rewrite decide_False by (intros [[]%elem_of_empty _]).
    destruct a; reflexivity.
  - exists (Receiver.tracking r0). split.
    + rewrite Hr0. f_equal. destruct r0; reflexivity.
    + intros ac. split; [auto |]. intros [? | (? & []%elem_of_empty & _)]. assumption.
Qed.

(** An entry of the current registry is an old entry or a new one. *)
Lemma inv_entry_cases P s icao ac :
  add_remove_inv w0 r r0 P s → aircraft s !! icao = Some ac →
  (aircraft w0 !! icao = Some ac
   ∧ ∃ a, ac_heap w0 !! ac = Some a ∧ TrackedAircraft.icao a = icao)
  ∨ (aircraft w0 !! icao = None ∧ icao ∈ P ∧ ac_heap w0 !! ac = None
     ∧ ∃ a, ac_heap s !! ac = Some a ∧ TrackedAircraft.icao a = icao
            ∧ TrackedAircraft.tracking a = {[r]}).
Proof.
  intros I Hs. destruct (aircraft w0 !! icao) as [ac0 |] eqn:H0.
  - left. pose proof (inv_old_entry _ _ _ _ _ I _ _ H0) as H1.
    assert (ac0 = ac) by congruence. subst ac0. split; [reflexivity |].
    apply Hreg, H0.
  - right. destruct (decide (icao ∈ P)) as [HP | HP].
    + destruct (inv_new_entry _ _ _ _ _ I _ H0 HP) as (ac' & a & H1 & H2 & H3 & H4 & H5).
      assert (ac' = ac) by congruence. subst ac'. eauto 10.
    + rewrite (inv_no_entry _ _ _ _ _ I _ H0 HP) in Hs. discriminate.
Qed.

Lemma inv_registry_inj P s i j ac :
  add_remove_inv w0 r r0 P s →
  aircraft s !! i = Some ac → aircraft s !! j = Some ac → i = j.
Proof.
  intros I Hi Hj.
  destruct (inv_entry_cases P s i ac I Hi) as [(_ & a & Ha & <-) | (_ & _ & Hn & a & Ha & <- & _)],
           (inv_entry_cases P s j ac I Hj) as [(_ & b & Hb & <-) | (_ & _ & Hm & b & Hb & <- & _)];
    congruence.
Qed.

Lemma inv_old_live P s ac a :
  add_remove_inv w0 r r0 P s → ac_heap w0 !! ac = Some a → is_Some (ac_heap s !! ac).
Proof.
  intros I Ha. destruct (inv_old_object _ _ _ _ _ I _ _ Ha) as [v Hv]. eauto.
Qed.

Lemma old_object_eq (v v' : Q) (T T' : gset rid) (a : TrackedAircraft.t) :
  v = v' → T = T' →
  TrackedAircraft.set_seen v (TrackedAircraft.set_tracking (λ _, T) a)
  = TrackedAircraft.set_seen v' (TrackedAircraft.set_tracking (λ _, T') a).
Proof. intros -> ->. reflexivity. Qed.

Lemma old_object_step (v v' : Q) (g : gset rid → gset rid) (T : gset rid)
    (a : TrackedAircraft.t) :
  TrackedAircraft.set_seen v'
    (TrackedAircraft.set_tracking g
       (TrackedAircraft.set_seen v (TrackedAircraft.set_tracking (λ _, T) a)))
  = TrackedAircraft.set_seen v' (TrackedAircraft.set_tracking (λ _, g T) a).
Proof. reflexivity. Qed.

Lemma old_object_untrack (v : Q) (g : gset rid → gset rid) (T : gset rid)
    (a : TrackedAircraft.t) :
  TrackedAircraft.set_tracking g
    (TrackedAircraft.set_seen v (TrackedAircraft.set_tracking (λ _, T) a))
  = TrackedAircraft.set_seen v (TrackedAircraft.set_tracking (λ _, g T) a).
Proof. reflexivity. Qed.

(** An aircraft of the old store that the registry names under [x]. *)
Lemma inv_old_named P s x ac a :
  add_remove_inv w0 r r0 P s →
  aircraft s !! x = Some ac → ac_heap w0 !! ac = Some a →
  aircraft w0 !! x = Some ac ∧ TrackedAircraft.icao a = x.
Proof.
  intros I Hs Ha.
  destruct (inv_entry_cases P s x ac I Hs) as [(H0 & b & Hb & Hi) | (_ & _ & Hn & _)];
    [| congruence].
  split; [exact H0 | congruence].
Qed.

Lemma add_one_inv P s x :
  add_remove_inv w0 r r0 P s →
  add_remove_inv w0 r r0 ({[x]} ∪ P) (Tracker.add_one cfg o now r s x).
Proof.
  intros I. unfold Tracker.add_one.
  destruct (aircraft s !! x) as [ac |] eqn:Hs.
  - (* the aircraft is known *)
    split; cbn [aircraft ac_heap rx_heap mlat_wanted mlat_wanted_ts receivers scheduled
                upd_ac upd_rx set_ac_heap set_rx_heap].
    + apply I.
    + intros icao H0 HP. apply I; [exact H0 | set_solver].
    + intros icao H0 HP.
      assert (HP' : icao ∈ P).
      { apply elem_of_union in HP as [->%elem_of_singleton | HP]; [| exact HP].
        destruct (decide (x ∈ P)) as [? | Hx]; [assumption |].
        rewrite (inv_no_entry _ _ _ _ _ I _ H0 Hx) in Hs. discriminate. }
      destruct (inv_new_entry _ _ _ _ _ I _ H0 HP') as (ac' & a & H1 & H2 & H3 & H4 & H5).
      destruct (decide (ac = ac')) as [<- | Hne].
      * eexists ac, _. split; [exact H1 |]. split; [exact H2 |].
        rewrite !lookup_alter_eq, H3. split; [reflexivity |].
        cbn. split; [exact H4 |]. rewrite H5. set_solver.
      * exists ac', a. rewrite !lookup_alter_ne by exact Hne. auto.
    + intros ac2 a2 Ha2.
      destruct (inv_old_object _ _ _ _ _ I _ _ Ha2) as [v Hv].
      destruct (decide (ac = ac2)) as [<- | Hne].
      * exists now. rewrite !lookup_alter_eq, Hv.
        cbn [fmap option_fmap option_map]. f_equal.
        destruct (inv_old_named P s x ac a2 I Hs Ha2) as [Hx0 Hix].
        rewrite old_object_step. apply old_object_eq; [reflexivity |].
        unfold pending_tracking. rewrite Hix.
        rewrite (decide_True (P := x ∈ {[x]} ∪ P ∧ _)) by (split; [set_solver | exact Hx0]).
        case_decide; set_solver.
      * exists v. rewrite !lookup_alter_ne by exact Hne. rewrite Hv. f_equal.
        apply old_object_eq; [reflexivity |].
        unfold pending_tracking.
        destruct (decide (TrackedAircraft.icao a2 ∈ P ∧ _)) as [[H1 H2] | Hn].
        -- rewrite decide_True by (split; [set_solver | exact H2]). reflexivity.
        -- rewrite decide_False; [reflexivity |]. intros [H1 H2].
           apply elem_of_union in H1 as [H1%elem_of_singleton | H1]; [| tauto].
           rewrite H1 in H2. pose proof (inv_old_entry _ _ _ _ _ I _ _ H2). congruence.
    + destruct (inv_receiver _ _ _ _ _ I) as (T & HT & HTspec).
      exists ({[ac]} ∪ T). rewrite lookup_alter_eq, HT. split; [reflexivity |].
      intros ac2. rewrite elem_of_union, elem_of_singleton, HTspec. split.
      * intros [-> | [? | (icao & HP & Hi)]]; [right; exists x | auto |];
          [split; [set_solver | exact Hs] |].
        right. exists icao. split; [set_solver | exact Hi].
      * intros [? | (icao & HP & Hi)]; [auto |].
        apply elem_of_union in HP as [->%elem_of_singleton | HP].
        -- left. congruence.
        -- right. right. eauto.
    + intros r2 Hr2. rewrite lookup_alter_ne by congruence. apply I, Hr2.
    + apply I.
  - (* a new aircraft object *)
    set (ac := fresh (dom (ac_heap s))).
    assert (Hfresh : ac_heap s !! ac = None).
    { apply not_elem_of_dom. apply is_fresh. }
    assert (Hfresh0 : ac_heap w0 !! ac = None).
    { destruct (ac_heap w0 !! ac) as [a |] eqn:Ha; [| reflexivity].
      destruct (inv_old_live P s ac a I Ha) as [b Hb]. congruence. }
    assert (Hx0 : aircraft w0 !! x = None).
    { destruct (aircraft w0 !! x) as [ac0 |] eqn:H0; [| reflexivity].
      pose proof (inv_old_entry _ _ _ _ _ I _ _ H0). congruence. }
    assert (HxP : x ∉ P).
    { intros HP. destruct (inv_new_entry _ _ _ _ _ I _ Hx0 HP) as (? & ? & H1 & _).
      congruence. }
    split; cbn [aircraft ac_heap rx_heap mlat_wanted mlat_wanted_ts receivers scheduled
                upd_ac upd_rx set_ac_heap set_rx_heap set_aircraft].
    + intros icao ac2 H0. rewrite lookup_insert_ne by congruence. apply I, H0.
    + intros icao H0 HP. rewrite lookup_insert_ne by set_solver.
      apply I; [exact H0 | set_solver].
    + intros icao H0 HP. destruct (decide (icao = x)) as [-> | Hne].
      * eexists ac, _. rewrite lookup_insert_eq. split; [reflexivity |].
        split; [exact Hfresh0 |].
        rewrite !lookup_alter_eq, lookup_insert_eq. split; [reflexivity |].
        cbn. split; [reflexivity | set_solver].
      * assert (HP' : icao ∈ P) by set_solver.
        destruct (inv_new_entry _ _ _ _ _ I _ H0 HP') as (ac' & a & H1 & H2 & H3 & H4 & H5).
        exists ac', a. rewrite lookup_insert_ne by congruence.
        assert (ac ≠ ac') by congruence.
        rewrite !lookup_alter_ne, lookup_insert_ne by assumption. auto.
    + intros ac2 a2 Ha2.
      destruct (inv_old_object _ _ _ _ _ I _ _ Ha2) as [v Hv].
      assert (ac ≠ ac2) by congruence.
      exists v. rewrite !lookup_alter_ne, lookup_insert_ne by assumption.
      rewrite Hv. f_equal. apply old_object_eq; [reflexivity |].
      unfold pending_tracking.
      destruct (decide (TrackedAircraft.icao a2 ∈ P ∧ _)) as [[H1 H2] | Hn].
      * rewrite decide_True by (split; [set_solver | exact H2]). reflexivity.
      * rewrite decide_False; [reflexivity |]. intros [H1 H2].
        apply elem_of_union in H1 as [H1%elem_of_singleton | H1]; [| tauto].
        congruence.
    + destruct (inv_receiver _ _ _ _ _ I) as (T & HT & HTspec).
      exists ({[ac]} ∪ T). rewrite lookup_alter_eq, HT. split; [reflexivity |].
      intros ac2. rewrite elem_of_union, elem_of_singleton, HTspec. split.
      * intros [-> | [? | (icao & HP & Hi)]]; [right; exists x | auto |].
        -- split; [set_solver | apply lookup_insert_eq].
        -- right. exists icao. split; [set_solver |].
           rewrite lookup_insert_ne by congruence. exact Hi.
      * intros [? | (icao & HP & Hi)]; [auto |].
        destruct (decide (icao = x)) as [-> | Hne].
        -- rewrite lookup_insert_eq in Hi. left. congruence.
        -- rewrite lookup_insert_ne in Hi by congruence.
           right. right. exists icao. split; [set_solver | exact Hi].
    + intros r2 Hr2. rewrite lookup_alter_ne by congruence. apply I, Hr2.
    + apply I.
Qed.

Lemma remove_one_inv P s x :
  x ∈ S →
  add_remove_inv w0 r r0 P s →
  add_remove_inv w0 r r0 (P ∖ {[x]}) (Tracker.remove_one r s x).
Proof.
  intros HxS I. unfold Tracker.remove_one.
  destruct (aircraft s !! x) as [ac |] eqn:Hs.
  - destruct (inv_entry_cases P s x ac I Hs)
      as [(Hx0 & a & Ha & Hi) | (Hx0 & HxP & Hn & a & Ha & Hi & Ht)].
    + (* an aircraft of the old store: it keeps its other receivers *)
      destruct (Hnew x ac a HxS Hx0 Ha) as (Hr & Hne & Hac).
      destruct (inv_old_object _ _ _ _ _ I _ _ Ha) as [v Hv].
      assert (Hpt : pending_tracking w0 r P ac a ∖ {[r]} = TrackedAircraft.tracking a).
      { unfold pending_tracking. case_decide; set_solver. }
      replace (Tracker.tracking_empty ac _) with false.
      2:{ unfold Tracker.tracking_empty.
          cbn [ac_heap upd_ac upd_rx set_ac_heap set_rx_heap].
          rewrite lookup_alter_eq, Hv. cbn [fmap option_fmap option_map].
          rewrite old_object_untrack, Hpt. symmetry.
          apply bool_decide_eq_false_2. exact Hne. }
      split; cbn [aircraft ac_heap rx_heap mlat_wanted mlat_wanted_ts receivers scheduled
                  upd_ac upd_rx set_ac_heap set_rx_heap].
      * apply I.
      * intros icao H0 HP. destruct (decide (icao = x)) as [-> | Hx]; [congruence |].
        apply I; [exact H0 | set_solver].
      * intros icao H0 HP.
        assert (HP' : icao ∈ P) by set_solver.
        destruct (inv_new_entry _ _ _ _ _ I _ H0 HP') as (ac' & b & H1 & H2 & H3 & H4 & H5).
        exists ac', b. rewrite lookup_alter_ne by congruence. auto.
      * intros ac2 a2 Ha2.
        destruct (inv_old_object _ _ _ _ _ I _ _ Ha2) as [v2 Hv2].
        exists v2. destruct (decide (ac = ac2)) as [<- | Hac2].
        -- assert (a2 = a) by congruence. subst a2.
           rewrite lookup_alter_eq, Hv2. cbn [fmap option_fmap option_map].
           rewrite old_object_untrack, Hpt. f_equal.
           apply old_object_eq; [reflexivity |].
           unfold pending_tracking. rewrite decide_False; [reflexivity |].
           rewrite Hi. set_solver.
        -- rewrite lookup_alter_ne by exact Hac2. rewrite Hv2. f_equal.
           apply old_object_eq; [reflexivity |].
           unfold pending_tracking.
           destruct (decide (TrackedAircraft.icao a2 ∈ P ∧ _)) as [[H1 H2] | Hn].
           ++ rewrite decide_True; [reflexivity |]. split; [| exact H2].
              apply elem_of_difference. split; [exact H1 |].
              intros Hx%elem_of_singleton. rewrite Hx in H2. congruence.
           ++ rewrite decide_False; [reflexivity |]. intros [H1 H2]. apply Hn.
              split; [set_solver | exact H2].
      * destruct (inv_receiver _ _ _ _ _ I) as (T & HT & HTspec).
        exists (T ∖ {[ac]}). rewrite lookup_alter_eq, HT. split; [reflexivity |].
        intros ac2. rewrite elem_of_difference, elem_of_singleton, HTspec. split.
        -- intros [[? | (icao & HP & Hic)] Hne2]; [auto |].
           right. exists icao. split; [| exact Hic].
           apply elem_of_difference. split; [exact HP |].
           intros ->%elem_of_singleton. congruence.
        -- intros [? | (icao & HP & Hic)].
           ++ split; [auto |]. intros ->. contradiction.
           ++ apply elem_of_difference in HP as [HP Hx]. split; [eauto |].
              intros ->. apply Hx, elem_of_singleton.
              apply (inv_registry_inj P s icao x ac I Hic Hs).
      * intros r2 Hr2. rewrite lookup_alter_ne by congruence. apply I, Hr2.
      * apply I.
    + (* an aircraft that [add] created: it goes again *)
      replace (Tracker.tracking_empty ac _) with true.
      2:{ unfold Tracker.tracking_empty.
          cbn [ac_heap upd_ac upd_rx set_ac_heap set_rx_heap].
          rewrite lookup_alter_eq, Ha. cbn [fmap option_fmap option_map]. symmetry.
          apply bool_decide_eq_true_2. cbn. rewrite Ht. set_solver. }
      split; cbn [aircraft ac_heap rx_heap mlat_wanted mlat_wanted_ts receivers scheduled
                  upd_ac upd_rx set_ac_heap set_rx_heap set_aircraft].
      * intros icao ac2 H0. rewrite lookup_delete_ne by congruence. apply I, H0.
      * intros icao H0 HP. destruct (decide (icao = x)) as [-> | Hx].
        -- apply lookup_delete_eq.
        -- rewrite lookup_delete_ne by congruence. apply I; [exact H0 | set_solver].
      * intros icao H0 HP.
        apply elem_of_difference in HP as [HP Hx]. rewrite elem_of_singleton in Hx.
        destruct (inv_new_entry _ _ _ _ _ I _ H0 HP) as (ac' & b & H1 & H2 & H3 & H4 & H5).
        exists ac', b. rewrite lookup_delete_ne by congruence.
        assert (ac ≠ ac').
        { intros <-. apply Hx. apply (inv_registry_inj P s icao x ac I H1 Hs). }
        rewrite lookup_alter_ne by assumption. auto.
      * intros ac2 a2 Ha2.
        destruct (inv_old_object _ _ _ _ _ I _ _ Ha2) as [v2 Hv2].
        exists v2. rewrite lookup_alter_ne by congruence. rewrite Hv2. f_equal.
        apply old_object_eq; [reflexivity |].
        unfold pending_tracking.
        destruct (decide (TrackedAircraft.icao a2 ∈ P ∧ _)) as [[H1 H2] | Hn'].
        -- rewrite decide_True; [reflexivity |]. split; [| exact H2].
           apply elem_of_difference. split; [exact H1 |].
           intros Hx%elem_of_singleton. rewrite Hx in H2. congruence.
        -- rewrite decide_False; [reflexivity |]. intros [H1 H2]. apply Hn'.
           split; [set_solver | exact H2].
      * destruct (inv_receiver _ _ _ _ _ I) as (T & HT & HTspec).
        exists (T ∖ {[ac]}). rewrite lookup_alter_eq, HT. split; [reflexivity |].
        intros ac2. rewrite elem_of_difference, elem_of_singleton, HTspec. split.
        -- intros [[? | (icao & HP & Hic)] Hne2]; [auto |].
           right. exists icao.
           assert (icao ≠ x) by congruence.
           split; [set_solver |]. rewrite lookup_delete_ne by congruence. exact Hic.
        -- intros [Hin | (icao & HP & Hic)].
           ++ split; [auto |]. intros ->.
              destruct (Hlive ac Hin) as [b Hb]. congruence.
           ++ apply elem_of_difference in HP as [HP Hx]. rewrite elem_of_singleton in Hx.
              rewrite lookup_delete_ne in Hic by congruence. split; [eauto |].
              intros ->. apply Hx. apply (inv_registry_inj P s icao x ac I Hic Hs).
      * intros r2 Hr2. rewrite lookup_alter_ne by congruence. apply I, Hr2.
      * apply I.
  - (* no aircraft under this address *)
    assert (Hx0 : aircraft w0 !! x = None).
    { destruct (aircraft w0 !! x) as [ac0 |] eqn:H0; [| reflexivity].
      pose proof (inv_old_entry _ _ _ _ _ I _ _ H0). congruence. }
    assert (HxP : x ∉ P).
    { intros HP. destruct (inv_new_entry _ _ _ _ _ I _ Hx0 HP) as (? & ? & H1 & _).
      congruence. }
    replace (P ∖ {[x]}) with P by set_solver. exact I.
Qed.

Lemma add_inv (l : list Z) : ∀ P s,
  add_remove_inv w0 r r0 P s →
  add_remove_inv w0 r r0 (list_to_set l ∪ P) (foldl (Tracker.add_one cfg o now r) s l).
Proof.
  induction l as [| x l IH]; intros P s I; cbn [foldl list_to_set].
  - replace (∅ ∪ P) with P by set_solver. exact I.
  - replace ({[x]} ∪ list_to_set l ∪ P) with (list_to_set l ∪ ({[x]} ∪ P)) by set_solver.
    apply IH, add_one_inv, I.
Qed.

Lemma remove_inv (l : list Z) : (∀ x, x ∈ l → x ∈ S) → ∀ P s,
  add_remove_inv w0 r r0 P s →
  add_remove_inv w0 r r0 (P ∖ list_to_set l) (foldl (Tracker.remove_one r) s l).
Proof.
  induction l as [| x l IH]; intros Hl P s I; cbn [foldl list_to_set].
  - replace (P ∖ ∅) with P by set_solver. exact I.
  - replace (P ∖ ({[x]} ∪ list_to_set l)) with (P ∖ {[x]} ∖ list_to_set l) by set_solver.
    apply IH; [intros y Hy; apply Hl; set_solver |].
    apply remove_one_inv; [apply Hl; set_solver | exact I].
Qed.

Lemma inv_end s :
  add_remove_inv w0 r r0 ∅ s →
  aircraft s = aircraft w0 ∧ rx_heap s = rx_heap w0
  ∧ mlat_wanted s = mlat_wanted w0 ∧ receivers s = receivers w0
  ∧ ∀ ac a, ac_heap w0 !! ac = Some a →
      ∃ v, ac_heap s !! ac = Some (TrackedAircraft.set_seen v a).
Proof.
  intros I. split; [| split; [| split; [apply I | split; [apply I |]]]].
  - apply map_eq. intros icao. destruct (aircraft w0 !! icao) as [ac |] eqn:H0.
    + apply (inv_old_entry _ _ _ _ _ I _ _ H0).
    + apply (inv_no_entry _ _ _ _ _ I _ H0). apply not_elem_of_empty.
  - apply map_eq. intros r2. destruct (decide (r2 = r)) as [-> | Hr2].
    + destruct (inv_receiver _ _ _ _ _ I) as (T & HT & HTspec).
      rewrite HT, Hr0. f_equal.
      assert (T = Receiver.tracking r0) as ->.
      { apply set_eq. intros ac. rewrite HTspec. split; [| auto].
        intros [? | (? & []%elem_of_empty & _)]. assumption. }
      destruct r0; reflexivity.
    + apply I, Hr2.
  - intros ac a Ha. destruct (inv_old_object _ _ _ _ _ I _ _ Ha) as [v Hv].
    exists v. rewrite Hv. unfold pending_tracking.
    rewrite decide_False by (intros [[]%elem_of_empty _]).
    destruct a; reflexivity.
Qed.

Lemma add_remove_restores_registry :
  let w' := Tracker.remove r S (Tracker.add cfg o now r S w0) in
  aircraft w' = aircraft w0 ∧ rx_heap w' = rx_heap w0
  ∧ mlat_wanted w' = mlat_wanted w0 ∧ receivers w' = receivers w0
  ∧ ∀ ac a, ac_heap w0 !! ac = Some a →
      ∃ v, ac_heap w' !! ac = Some (TrackedAircraft.set_seen v a).
Proof.
  apply inv_end. unfold Tracker.remove, Tracker.add.
  replace (∅ : gset Z) with ((list_to_set S ∪ ∅) ∖ list_to_set S : gset Z) by set_solver.
  apply remove_inv; [auto |]. apply add_inv, inv_start.
Qed.

End AddRemove.

(** C7, as the code has it.  If the receiver tracks none of the aircraft
    that the registry holds under the addresses of [S], and each of these
    aircraft is tracked by some receiver, then [add(r, S)] followed by
    [remove(r, S)] restores the icao -> aircraft map, every receiver, and
    every aircraft that existed before, tracking set included, except
    for the aircraft's [seen] timestamp (which [add] overwrites). *)
Theorem add_remove_restores (cfg : Config) (o : Oracle) (now : Q) (w : World)
    (r : rid) (r0 : Receiver.t) (S : list Z) :
  registry_ok w →
  rx_heap w !! r = Some r0 →
  (∀ ac, ac ∈ Receiver.tracking r0 → is_Some (ac_heap w !! ac)) →
  (∀ icao ac a,
     icao ∈ S → aircraft w !! icao = Some ac → ac_heap w !! ac = Some a →
     (r ∉ TrackedAircraft.tracking a) ∧ (TrackedAircraft.tracking a ≠ ∅)
     ∧ (ac ∉ Receiver.tracking r0)) →
  let w' := Tracker.remove r S (Tracker.add cfg o now r S w) in
  aircraft w' = aircraft w
  ∧ rx_heap w' = rx_heap w
  ∧ ∀ ac a, ac_heap w !! ac = Some a →
      ∃ seen',
        ac_heap w' !! ac = Some (TrackedAircraft.set_seen seen' a)
        ∧ TrackedAircraft.tracking (TrackedAircraft.set_seen seen' a)
          = TrackedAircraft.tracking a.
Proof.
  intros Hreg Hr0 Hlive Hnew w'.
  destruct (add_remove_restores_registry cfg o now w r r0 S Hreg Hr0 Hlive Hnew)
    as (H1 & H2 & _ & _ & H5).
  split; [exact H1 |]. split; [exact H2 |].
  intros ac a Ha. destruct (H5 ac a Ha) as [v Hv]. exists v. split; [exact Hv | reflexivity].
Qed.

Lemma tracked_by_one_registry :
  aircraft tracked_by_one = {[0xABCDEF := 0%nat]}
  ∧ ac_heap tracked_by_one !! 0%nat
    = Some (TrackedAircraft.mk 0xABCDEF true {[1%nat]} ∅ ∅ 0 0 false ∅ None 0 false 0 false)
  ∧ rx_heap tracked_by_one !! 0%nat = Some (Receiver.init 0 "a" 0).
Proof. vm_compute. repeat split. Qed.

Lemma add_remove_restores_witness :
  let w' := Tracker.remove 0%nat [0xABCDEF; 1]
              (Tracker.add example_config plain_oracle 5 0%nat [0xABCDEF; 1] tracked_by_one) in
  aircraft w' = aircraft tracked_by_one ∧ rx_heap w' = rx_heap tracked_by_one.
Proof.
  destruct tracked_by_one_registry as (Hreg & Hheap & Hrx).
  destruct (add_remove_restores example_config plain_oracle 5 tracked_by_one 0%nat
              (Receiver.init 0 "a" 0) [0xABCDEF; 1]) as (H1 & H2 & _).
  - intros icao ac H. rewrite Hreg in H.
    apply lookup_singleton_Some in H as [<- <-]. eexists. split; [exact Hheap | reflexivity].
  - exact Hrx.
  - intros ac []%elem_of_empty.
  - intros icao ac a _ H Ha. rewrite Hreg in H.
    apply lookup_singleton_Some in H as [<- <-].
    rewrite Hheap in Ha. injection Ha as <-.
    cbn [TrackedAircraft.tracking Receiver.tracking Receiver.init].
    split; [| split]; [| | apply not_elem_of_empty].
    + intros H%elem_of_singleton. discriminate.
    + intros H. apply (f_equal (λ s : gset nat, size s)) in H.
      rewrite size_singleton, size_empty in H. discriminate.
  - split; assumption.
Defined.

(** C7 as stated fails in two ways.  When the receiver already tracks the
    aircraft, [add] changes nothing but [remove] takes the edge, and with
    it the aircraft, away; and for an aircraft that stays, [add] has
    overwritten [seen]. *)
Lemma add_remove_not_identity :
  aircraft (Tracker.remove 1%nat [0xABCDEF]
              (Tracker.add example_config plain_oracle 5 1%nat [0xABCDEF] tracked_by_one))
  ≠ aircraft tracked_by_one
  ∧ ac_heap (Tracker.remove 0%nat [0xABCDEF]
               (Tracker.add example_config plain_oracle 5 0%nat [0xABCDEF] tracked_by_one))
    ≠ ac_heap tracked_by_one.
Proof.
  split.
  - intros H. apply (f_equal (λ m : gmap Z nat, m !! 0xABCDEF)) in H.
    vm_compute in H. discriminate.
  - intros H.
    apply (f_equal (λ m : gmap nat TrackedAircraft.t,
                      Qnum <$> (TrackedAircraft.seen <$> m !! 0%nat))) in H.
    vm_compute in H. discriminate.
Qed.

(** ** Bipartite symmetry *)

Lemma bipartite_symmetry_lookup (w : World) :
  bipartite_symmetry w
  ↔ ∀ r ro a ao, rx_heap w !! r = Some ro → ac_heap w !! a = Some ao →
      mirrored r ro a ao.
Proof.
  unfold bipartite_symmetry, map_Forall. split; eauto.
Qed.

(** C1, on the code.  Receiver [0] has sent a rate report naming an
    aircraft it does not track: the selector has put the aircraft into the
    receiver's [adsb_seen] and [sync_interest], symmetrically.
    [remove_all] walks [receiver.tracking] only, which is empty: it clears
    the receiver's sets and leaves the receiver in the aircraft's
    [sync_interest] and [adsb_seen]. *)
Theorem remove_all_leaves_dangling_mirror :
  let w := rate_reported in
  let w' := state_of (Tracker.remove_all 0%nat w) in
  returns (Tracker.remove_all 0%nat w) = true
  ∧ bipartite_symmetry w
  ∧ Receiver.tracking <$> rx_heap w !! 0%nat = Some ∅
  ∧ Receiver.sync_interest <$> rx_heap w !! 0%nat = Some {[0%nat]}
  ∧ Receiver.adsb_seen <$> rx_heap w !! 0%nat = Some {[0%nat]}
  ∧ Receiver.sync_interest <$> rx_heap w' !! 0%nat = Some ∅
  ∧ Receiver.adsb_seen <$> rx_heap w' !! 0%nat = Some ∅
  ∧ TrackedAircraft.sync_interest <$> ac_heap w' !! 0%nat = Some {[0%nat]}
  ∧ TrackedAircraft.adsb_seen <$> ac_heap w' !! 0%nat = Some {[0%nat]}
  ∧ aircraft w' !! 0xABCDEF = Some 0%nat
  ∧ ¬ bipartite_symmetry w'
  ∧ returns (Coordinator.receiver_disconnect 0%nat w) = true
  ∧ ¬ bipartite_symmetry (state_of (Coordinator.receiver_disconnect 0%nat w)).
Proof.
  cbv zeta. split; [vm_compute; reflexivity |].
  split; [apply (bool_decide_unpack _); vm_compute; exact I |].
  do 8 (split; [vm_compute; reflexivity |]).
  split; [apply (proj1 (bool_decide_eq_false _)); vm_compute; reflexivity |].
  split; [vm_compute; reflexivity |].
  apply (proj1 (bool_decide_eq_false _)); vm_compute; reflexivity.
Qed.

(** The aircraft objects after [update_interest_sets], field by field. *)
Lemma update_interest_sets_aircraft (cfg : Config) (o : Oracle) (self : rid)
    (new_sync new_mlat new_adsb : gset aid) (w : World) (rs : Receiver.t)
    (a : aid) (ao' : TrackedAircraft.t) :
  rx_heap w !! self = Some rs →
  let w' := update_interest_sets cfg o self new_sync new_mlat new_adsb w in
  ac_heap w' !! a = Some ao' →
  ∃ ro' ao,
    rx_heap w' !! self = Some ro' ∧ ac_heap w !! a = Some ao
    ∧ Receiver.tracking ro' = Receiver.tracking rs
    ∧ (∀ r, r ≠ self → rx_heap w' !! r = rx_heap w !! r)
    ∧ TrackedAircraft.tracking ao' = TrackedAircraft.tracking ao
    ∧ TrackedAircraft.adsb_seen ao'
      = (let s := TrackedAircraft.adsb_seen ao in
         let s := if decide (a ∈ Receiver.adsb_seen ro' ∖ Receiver.adsb_seen rs)
                  then {[self]} ∪ s else s in
         if decide (a ∈ Receiver.adsb_seen rs ∖ Receiver.adsb_seen ro')
         then s ∖ {[self]} else s)
    ∧ TrackedAircraft.sync_interest ao'
      = (let s := TrackedAircraft.sync_interest ao in
         let s := if decide (a ∈ Receiver.sync_interest ro' ∖ Receiver.sync_interest rs)
                  then {[self]} ∪ s else s in
         if decide (a ∈ Receiver.sync_interest rs ∖ Receiver.sync_interest ro')
         then s ∖ {[self]} else s)
    ∧ TrackedAircraft.mlat_interest ao'
      = (let s := TrackedAircraft.mlat_interest ao in
         let s := if decide (a ∈ Receiver.mlat_interest ro' ∖ Receiver.mlat_interest rs)
                  then {[self]} ∪ s else s in
         if decide (a ∈ Receiver.mlat_interest rs ∖ Receiver.mlat_interest ro')
         then s ∖ {[self]} else s).
Proof.
  intros Hs w' Ha'.
  destruct (update_interest_sets_commit cfg o self new_sync new_mlat new_adsb w rs Hs)
    as (Hro & _ & _).
  fold w' in Hro. unfold w', update_interest_sets in Ha' |- *. rewrite Hs in Ha' |- *.
  cbv zeta in Ha' |- *.
  set (ns := if Qltb 2 (Receiver.bad_syncs rs) && _ then _ else _) in *.
  set (nm := if Qltb 0 (Receiver.bad_syncs rs) then _ else _) in *.
  cbn [upd_rx ac_heap rx_heap set_rx_heap] in Ha' |- *.
  rewrite !upd_acs_lookup in Ha'. rewrite !upd_acs_rx_heap.
  destruct (ac_heap w !! a) as [ao |] eqn:Hao;
    [| repeat case_decide; discriminate].
  eexists _, ao. split; [rewrite lookup_alter_eq, Hs; reflexivity |].
  split; [reflexivity |]. split; [reflexivity |].
  split; [intros r Hr; apply lookup_alter_ne; congruence |].
  cbn [Receiver.adsb_seen Receiver.sync_interest Receiver.mlat_interest
       Receiver.set_interest].
  clear Hro Hao Hs.
  repeat case_decide; injection Ha' as <-; repeat split.
Qed.

(** The mirror set of one aircraft after the two difference loops of one
    relation. *)
Lemma mirror_after (self r : rid) (a : aid) (old new : gset aid) (s : gset rid) :
  let s1 := if decide (a ∈ new ∖ old) then {[self]} ∪ s else s in
  let s2 := if decide (a ∈ old ∖ new) then s1 ∖ {[self]} else s1 in
  ((a ∈ old ↔ self ∈ s) → (a ∈ new ↔ self ∈ s2))
  ∧ (r ≠ self → (r ∈ s2 ↔ r ∈ s)).
Proof.
  intros s1 s2. unfold s2, s1. clear s1 s2.
  destruct (decide (a ∈ new ∖ old)) as [H1 | H1], (decide (a ∈ old ∖ new)) as [H2 | H2];
    rewrite ?elem_of_difference in H1, H2;
    rewrite ?elem_of_difference, ?elem_of_union, ?elem_of_singleton;
    destruct (decide (a ∈ old)), (decide (a ∈ new)); tauto.
Qed.

Lemma commit_keeps_symmetry (cfg : Config) (o : Oracle) (self : rid)
    (new_sync new_mlat new_adsb : gset aid) (w : World) :
  bipartite_symmetry w →
  bipartite_symmetry (update_interest_sets cfg o self new_sync new_mlat new_adsb w).
Proof.
  rewrite !bipartite_symmetry_lookup. intros H r ro' a ao' Hr' Ha'.
  destruct (rx_heap w !! self) as [rs |] eqn:Hs.
  2:{ unfold update_interest_sets in Hr', Ha'. rewrite Hs in Hr', Ha'.
      eapply H; eassumption. }
  destruct (update_interest_sets_aircraft cfg o self new_sync new_mlat new_adsb w rs
              a ao' Hs Ha')
    as (rs' & ao & Hrs' & Hao & Ht & Hother & A1 & A2 & A3 & A4).
  destruct (decide (r = self)) as [-> | Hne].
  - assert (ro' = rs') by congruence. subst rs'.
    destruct (H self rs a ao Hs Hao) as (M1 & M2 & M3 & M4).
    unfold mirrored. rewrite Ht, A1, A2, A3, A4. cbv zeta.
    split; [exact M1 |]. split; [| split].
    + apply (mirror_after self self a), M2.
    + apply (mirror_after self self a), M3.
    + apply (mirror_after self self a), M4.
  - rewrite (Hother r Hne) in Hr'.
    destruct (H r ro' a ao Hr' Hao) as (M1 & M2 & M3 & M4).
    unfold mirrored. rewrite A1, A2, A3, A4. cbv zeta.
    split; [exact M1 |]. split; [| split].
    + rewrite M2. symmetry. apply (mirror_after self r a), Hne.
    + rewrite M3. symmetry. apply (mirror_after self r a), Hne.
    + rewrite M4. symmetry. apply (mirror_after self r a), Hne.
Qed.

(** X1.  [update_interest_sets] keeps the four relations symmetric: what
    it assigns to the receiver is what it mirrors on the aircraft.  It
    assigns [new_adsb] as given, [new_mlat] unless [bad_syncs > 0], and
    [new_sync] unless [bad_syncs > 2]. *)
Theorem update_interest_sets_symmetry (cfg : Config) (o : Oracle) (self : rid)
    (new_sync new_mlat new_adsb : gset aid) (w : World) (r : Receiver.t) :
  bipartite_symmetry w →
  rx_heap w !! self = Some r →
  let w' := update_interest_sets cfg o self new_sync new_mlat new_adsb w in
  bipartite_symmetry w'
  ∧ ∃ r', rx_heap w' !! self = Some r'
      ∧ Receiver.adsb_seen r' = new_adsb
      ∧ (¬ (0 < Receiver.bad_syncs r)%Q → Receiver.mlat_interest r' = new_mlat)
      ∧ (¬ (2 < Receiver.bad_syncs r)%Q → Receiver.sync_interest r' = new_sync).
Proof.
  intros H Hr w'. split; [apply commit_keeps_symmetry, H |].
  destruct (update_interest_sets_commit cfg o self new_sync new_mlat new_adsb w r Hr)
    as (Hc & _ & _).
  eexists. split; [exact Hc |]. cbn. split; [reflexivity |]. split.
  - intros Hb. destruct (Qltb 0 (Receiver.bad_syncs r)) eqn:E; [| reflexivity].
    apply Qltb_lt in E. contradiction.
  - intros Hb. destruct (Qltb 2 (Receiver.bad_syncs r)) eqn:E; [| reflexivity].
    apply Qltb_lt in E. contradiction.
Qed.

(** Adding or dropping one tracking edge on both sides. *)
Lemma track_symmetry (r : rid) (ac : aid) (w : World) :
  bipartite_symmetry w →
  bipartite_symmetry
    (upd_rx r (Receiver.set_tracking (λ s, {[ac]} ∪ s))
       (upd_ac ac (TrackedAircraft.set_tracking (λ s, {[r]} ∪ s)) w)).
Proof.
  rewrite !bipartite_symmetry_lookup. intros H r2 ro2 a2 ao2.
  cbn [upd_rx upd_ac ac_heap rx_heap set_rx_heap set_ac_heap].
  rewrite !lookup_alter. intros Hr Ha.
  destruct (decide (r = r2)) as [<- | Hr2], (decide (ac = a2)) as [<- | Ha2];
    destruct (rx_heap w !! _) as [ro |] eqn:Hro; try discriminate;
    destruct (ac_heap w !! _) as [ao |] eqn:Hao; try discriminate;
    injection Hr as <-; injection Ha as <-;
    destruct (H _ _ _ _ Hro Hao) as (M1 & M2 & M3 & M4);
    unfold mirrored; cbn; (split; [| auto]);
    rewrite ?elem_of_union, ?elem_of_singleton; rewrite <- ?M1; intuition congruence.
Qed.

Lemma untrack_symmetry (r : rid) (ac : aid) (w : World) :
  bipartite_symmetry w →
  bipartite_symmetry
    (upd_rx r (Receiver.set_tracking (λ s, s ∖ {[ac]}))
       (upd_ac ac (TrackedAircraft.set_tracking (λ s, s ∖ {[r]})) w)).
Proof.
  rewrite !bipartite_symmetry_lookup. intros H r2 ro2 a2 ao2.
  cbn [upd_rx upd_ac ac_heap rx_heap set_rx_heap set_ac_heap].
  rewrite !lookup_alter. intros Hr Ha.
  destruct (decide (r = r2)) as [<- | Hr2], (decide (ac = a2)) as [<- | Ha2];
    destruct (rx_heap w !! _) as [ro |] eqn:Hro; try discriminate;
    destruct (ac_heap w !! _) as [ao |] eqn:Hao; try discriminate;
    injection Hr as <-; injection Ha as <-;
    destruct (H _ _ _ _ Hro Hao) as (M1 & M2 & M3 & M4);
    unfold mirrored; cbn; (split; [| auto]);
    rewrite ?elem_of_difference, ?elem_of_singleton; rewrite <- ?M1; intuition congruence.
Qed.

Lemma seen_symmetry (ac : aid) (v : Q) (w : World) :
  bipartite_symmetry w → bipartite_symmetry (upd_ac ac (TrackedAircraft.set_seen v) w).
Proof.
  rewrite !bipartite_symmetry_lookup. intros H r2 ro2 a2 ao2.
  cbn [upd_ac ac_heap rx_heap set_ac_heap]. rewrite lookup_alter. intros Hr Ha.
  destruct (decide (ac = a2)) as [<- | Ha2]; [| eauto].
  destruct (ac_heap w !! ac) as [ao |] eqn:Hao; [| discriminate].
  injection Ha as <-. apply (H _ _ _ _ Hr Hao).
Qed.

(** X2.  [remove] keeps the four relations symmetric. *)
Theorem remove_symmetry (receiver : rid) (icao_set : list Z) (w : World) :
  bipartite_symmetry w → bipartite_symmetry (Tracker.remove receiver icao_set w).
Proof.
  unfold Tracker.remove. revert w.
  induction icao_set as [| icao l IH]; intros w H; [exact H |].
  cbn [foldl]. apply IH. unfold Tracker.remove_one.
  destruct (aircraft w !! icao) as [ac |]; [| exact H].
  destruct (Tracker.tracking_empty ac _); apply untrack_symmetry, H.
Qed.

(** ** add keeps the store well formed *)

Lemma add_one_store_ok (cfg : Config) (o : Oracle) (now : Q) (receiver : rid)
    (w : World) (icao : Z) :
  store_ok w → store_ok (Tracker.add_one cfg o now receiver w icao).
Proof.
  intros (Hsym & Hcl & Hreg). unfold Tracker.add_one.
  destruct (aircraft w !! icao) as [ac |] eqn:Hic.
  - destruct (Hreg icao ac Hic) as (ao & Hao & Hi).
    split; [apply seen_symmetry, track_symmetry, Hsym |]. split.
    + intros r ro a. cbn [upd_rx upd_ac ac_heap rx_heap set_rx_heap set_ac_heap].
      rewrite !lookup_alter_is_Some. rewrite lookup_alter. intros Hr Ha.
      destruct (decide (receiver = r)) as [<- | Hne]; [| eapply Hcl; eassumption].
      destruct (rx_heap w !! receiver) as [ro0 |] eqn:Hro; [| discriminate].
      injection Hr as <-. cbn in Ha.
      rewrite !elem_of_union, elem_of_singleton in Ha.
      destruct Ha as [[[[-> | Ha] | Ha] | Ha] | Ha]; [eauto | ..];
        apply (Hcl receiver ro0 a Hro); set_solver.
    + intros i a. cbn [upd_rx upd_ac ac_heap aircraft set_rx_heap set_ac_heap].
      intros Hia. destruct (Hreg i a Hia) as (b & Hb & Hbi).
      destruct (decide (ac = a)) as [<- | Hne].
      * rewrite !lookup_alter_eq, Hb. cbn. eauto.
      * rewrite !lookup_alter_ne by exact Hne. eauto.
  - set (ac := fresh (dom (ac_heap w))).
    assert (Hfresh : ac_heap w !! ac = None) by (apply not_elem_of_dom, is_fresh).
    set (init := TrackedAircraft.init _ _ _ _ _).
    set (w1 := set_aircraft _ (set_ac_heap _ w)).
    assert (Hsym1 : bipartite_symmetry w1).
    { apply bipartite_symmetry_lookup. intros r ro a ao Hr Ha.
      unfold w1 in Hr, Ha. cbn [ac_heap rx_heap set_aircraft set_ac_heap] in Hr, Ha.
      rewrite lookup_insert in Ha. destruct (decide (ac = a)) as [<- | Hne].
      - injection Ha as <-.
        assert (Hnot : ∀ s : gset aid,
                   s ⊆ Receiver.tracking ro ∪ Receiver.sync_interest ro
                       ∪ Receiver.mlat_interest ro ∪ Receiver.adsb_seen ro → ac ∉ s).
        { intros s Hs Hin. destruct (Hcl r ro ac Hr (Hs _ Hin)) as [b Hb]. congruence. }
        unfold mirrored, init. cbn.
        repeat split; intros Hin; try (apply elem_of_empty in Hin; contradiction);
          exfalso; revert Hin; apply Hnot; set_solver.
      - apply (proj1 (bipartite_symmetry_lookup w) Hsym r ro a ao Hr Ha). }
    split; [apply seen_symmetry, track_symmetry, Hsym1 |]. split.
    + intros r ro a.
      cbn [w1 upd_rx upd_ac ac_heap rx_heap set_rx_heap set_ac_heap set_aircraft].
      rewrite !lookup_alter_is_Some, lookup_insert_is_Some. rewrite lookup_alter.
      intros Hr Ha. destruct (decide (ac = a)) as [Heq | Hne]; [auto |]. right.
      split; [exact Hne |].
      destruct (decide (receiver = r)) as [<- | Hne'].
      * destruct (rx_heap w !! receiver) as [ro0 |] eqn:Hro; [| discriminate].
        injection Hr as <-. cbn in Ha.
        apply (Hcl receiver ro0 a Hro). set_solver.
      * eapply Hcl; eassumption.
    + intros i a.
      cbn [w1 upd_rx upd_ac ac_heap aircraft set_rx_heap set_ac_heap set_aircraft].
      rewrite lookup_insert. destruct (decide (icao = i)) as [<- | Hne].
      * intros [= <-]. rewrite !lookup_alter_eq, lookup_insert_eq. cbn. eauto.
      * intros Hia. destruct (Hreg i a Hia) as (b & Hb & Hbi).
        assert (ac ≠ a) by congruence.
        rewrite !lookup_alter_ne, lookup_insert_ne by assumption. eauto.
Qed.

(** X3.  [add] keeps the store well formed: the four relations stay
    symmetric, receivers refer to stored aircraft, and the registry names
    stored aircraft by their own address. *)
Theorem add_store_ok (cfg : Config) (o : Oracle) (now : Q) (receiver : rid)
    (icao_set : list Z) (w : World) :
  store_ok w → store_ok (Tracker.add cfg o now receiver icao_set w).
Proof.
  unfold Tracker.add. revert w.
  induction icao_set as [| icao l IH]; intros w H; [exact H |].
  cbn [foldl]. apply IH, add_one_store_ok, H.
Qed.

(** ** remove_all on a receiver whose interest lies within its tracking set *)

Lemma remove_all_one_spec (r : rid) (x : aid) (w : World) (ax : TrackedAircraft.t) :
  ac_heap w !! x = Some ax →
  aircraft w !! TrackedAircraft.icao ax = Some x →
  ∃ w1, Tracker.remove_all_one r x w = Returned w1
    ∧ rx_heap w1 = rx_heap w
    ∧ ac_heap w1 = alter (discard_receiver r) x (ac_heap w)
    ∧ ∀ i, i ≠ TrackedAircraft.icao ax → aircraft w1 !! i = aircraft w !! i.
Proof.
  intros Hx Hreg. unfold Tracker.remove_all_one.
  set (w4 := upd_ac x _ (upd_ac x _ (upd_ac x _ (upd_ac x _ w)))).
  assert (H4 : ac_heap w4 = alter (discard_receiver r) x (ac_heap w)).
  { unfold w4. cbn [upd_ac ac_heap set_ac_heap]. rewrite !alter_alter_eq. reflexivity. }
  rewrite H4, lookup_alter_eq, Hx. cbn [fmap option_fmap option_map].
  destruct (bool_decide _).
  - change (aircraft w4) with (aircraft w).
    change (TrackedAircraft.icao (discard_receiver r ax)) with (TrackedAircraft.icao ax).
    rewrite Hreg. eexists. split; [reflexivity |]. split; [reflexivity |].
    split; [exact H4 |]. intros i Hi.
    cbn [aircraft set_aircraft]. apply lookup_delete_ne. congruence.
  - exists w4. split; [reflexivity |]. split; [reflexivity |]. split; [exact H4 | reflexivity].
Qed.

Lemma remove_all_loop_spec (r : rid) (l : list aid) :
  NoDup l → ∀ w : World,
  (∀ a, a ∈ l → ∃ ao, ac_heap w !! a = Some ao
                  ∧ aircraft w !! TrackedAircraft.icao ao = Some a) →
  ∃ w', Tracker.remove_all_loop r l w = Returned w'
    ∧ rx_heap w' = rx_heap w
    ∧ ∀ a, ac_heap w' !! a
           = if decide (a ∈ l) then discard_receiver r <$> ac_heap w !! a
             else ac_heap w !! a.
Proof.
  induction 1 as [| x l Hx Hl IH]; intros w Hreg.
  - exists w. split; [reflexivity |]. split; [reflexivity |].
    intros a. rewrite decide_False by apply not_elem_of_nil. reflexivity.
  - destruct (Hreg x (list_elem_of_here _ _)) as (ax & Hax & Hix).
    destruct (remove_all_one_spec r x w ax Hax Hix) as (w1 & H1 & R1 & A1 & G1).
    cbn [Tracker.remove_all_loop]. rewrite H1.
    destruct (IH w1) as (w' & H' & R' & A').
    { intros a Ha. destruct (Hreg a (list_elem_of_further _ _ _ Ha)) as (ao & Hao & Hio).
      assert (a ≠ x) by (intros ->; contradiction).
      exists ao. rewrite A1, lookup_alter_ne by congruence. split; [exact Hao |].
      rewrite G1; [exact Hio |]. intros Heq. rewrite Heq in Hio. congruence. }
    exists w'. split; [exact H' |]. split; [congruence |].
    intros a. rewrite A', A1, lookup_alter.
    destruct (decide (a ∈ l)) as [Hin | Hin].
    + rewrite (decide_True (P := a ∈ x :: l)) by (apply list_elem_of_further, Hin).
      rewrite (decide_False (P := x = a)) by (intros ->; contradiction). reflexivity.
    + destruct (decide (x = a)) as [<- | Hne].
      * rewrite decide_True by apply list_elem_of_here. reflexivity.
      * rewrite decide_False; [reflexivity |].
        intros [? | ?]%elem_of_cons; congruence.
Qed.

(** X5.  When the receiver's [sync_interest], [mlat_interest] and
    [adsb_seen] hold tracked aircraft only, and the registry names each
    tracked aircraft, [remove_all] returns and keeps the four relations
    symmetric. *)
Theorem remove_all_symmetry (receiver : rid) (w : World) (ro : Receiver.t) :
  bipartite_symmetry w →
  rx_heap w !! receiver = Some ro →
  Receiver.sync_interest ro ∪ Receiver.mlat_interest ro ∪ Receiver.adsb_seen ro
    ⊆ Receiver.tracking ro →
  (∀ a, a ∈ Receiver.tracking ro →
     ∃ ao, ac_heap w !! a = Some ao ∧ aircraft w !! TrackedAircraft.icao ao = Some a) →
  ∃ w', Tracker.remove_all receiver w = Returned w' ∧ bipartite_symmetry w'.
Proof.
  intros H Hro Hsub Hreg. unfold Tracker.remove_all. rewrite Hro.
  destruct (remove_all_loop_spec receiver (elements (Receiver.tracking ro))
              (NoDup_elements _) w) as (w1 & H1 & R1 & A1).
  { intros a Ha. apply Hreg. apply elem_of_elements, Ha. }
  rewrite H1. eexists. split; [reflexivity |].
  apply bipartite_symmetry_lookup. intros r2 ro2 a ao2.
  cbn [upd_rx rx_heap ac_heap set_rx_heap]. rewrite R1, A1.
  intros Hr Ha.
  destruct (ac_heap w !! a) as [ao |] eqn:Hao; [| case_decide; discriminate].
  assert (Hao2 : ao2 = ao ∧ a ∉ Receiver.tracking ro
                 ∨ ao2 = discard_receiver receiver ao).
  { case_decide as Hin; cbn in Ha; [right; congruence |]. left. split; [congruence |].
    rewrite elem_of_elements in Hin. exact Hin. }
  clear Ha. pose proof (proj1 (bipartite_symmetry_lookup w) H) as Hm.
  destruct (decide (receiver = r2)) as [<- | Hne].
  - rewrite lookup_alter_eq, Hro in Hr. injection Hr as <-.
    destruct (Hm receiver ro a ao Hro Hao) as (M1 & M2 & M3 & M4).
    unfold mirrored. cbn.
    destruct Hao2 as [[-> Hnot] | ->]; cbn; set_solver.
  - rewrite lookup_alter_ne in Hr by exact Hne.
    destruct (Hm r2 ro2 a ao Hr Hao) as (M1 & M2 & M3 & M4).
    unfold mirrored.
    destruct Hao2 as [[-> Hnot] | ->]; cbn; [auto |].
    rewrite !elem_of_difference, !elem_of_singleton. intuition congruence.
Qed.

(** ** update_interest keeps the relations symmetric *)

Lemma same_edges_refl (w : World) : same_edges w w.
Proof. split; [reflexivity |]. intros a ao H. exists ao. auto. Qed.

Lemma same_edges_trans (w1 w2 w3 : World) :
  same_edges w1 w2 → same_edges w2 w3 → same_edges w1 w3.
Proof.
  intros [R12 H12] [R23 H23]. split; [congruence |].
  intros a ao3 H3. destruct (H23 a ao3 H3) as (ao2 & H2 & E1 & E2 & E3 & E4).
  destruct (H12 a ao2 H2) as (ao1 & H1 & F1 & F2 & F3 & F4).
  exists ao1. repeat split; congruence.
Qed.

Lemma same_edges_upd_ac (w : World) (ac : aid) (f : TrackedAircraft.t → TrackedAircraft.t) :
  (∀ ao, TrackedAircraft.tracking (f ao) = TrackedAircraft.tracking ao
         ∧ TrackedAircraft.sync_interest (f ao) = TrackedAircraft.sync_interest ao
         ∧ TrackedAircraft.mlat_interest (f ao) = TrackedAircraft.mlat_interest ao
         ∧ TrackedAircraft.adsb_seen (f ao) = TrackedAircraft.adsb_seen ao) →
  same_edges w (upd_ac ac f w).
Proof.
  intros Hf. split; [reflexivity |]. intros a ao'.
  cbn [upd_ac ac_heap set_ac_heap]. rewrite lookup_alter.
  destruct (decide (ac = a)) as [<- | Hne]; [| intros H; exists ao'; auto].
  destruct (ac_heap w !! ac) as [ao |]; [| discriminate].
  intros [= <-]. exists ao. split; [reflexivity | apply Hf].
Qed.

Lemma same_edges_symmetry (w w' : World) :
  same_edges w w' → bipartite_symmetry w → bipartite_symmetry w'.
Proof.
  intros [HR HA]. rewrite !bipartite_symmetry_lookup. intros H r ro a ao' Hr Ha.
  rewrite HR in Hr. destruct (HA a ao' Ha) as (ao & Hao & E1 & E2 & E3 & E4).
  destruct (H r ro a ao Hr Hao) as (M1 & M2 & M3 & M4).
  unfold mirrored. rewrite E1, E2, E3, E4. auto.
Qed.

Lemma refresh_one_edges (cfg : Config) (now rnd : Q) (ao : TrackedAircraft.t) :
  let ao' := (Tracker.refresh_one cfg now rnd ao).1 in
  TrackedAircraft.tracking ao' = TrackedAircraft.tracking ao
  ∧ TrackedAircraft.sync_interest ao' = TrackedAircraft.sync_interest ao
  ∧ TrackedAircraft.mlat_interest ao' = TrackedAircraft.mlat_interest ao
  ∧ TrackedAircraft.adsb_seen ao' = TrackedAircraft.adsb_seen ao.
Proof.
  unfold Tracker.refresh_one.
  repeat match goal with |- context [if ?c then _ else _] => destruct c end;
    repeat split.
Qed.

Lemma refresh_same_edges (cfg : Config) (o : Oracle) (now : Q) (w : World) :
  same_edges w (Tracker.refresh_mlat_wanted cfg o now w).
Proof.
  unfold Tracker.refresh_mlat_wanted.
  generalize ((map_to_list (aircraft w)).*2). intros l.
  assert (H : ∀ (w1 : World) (s : gset aid),
             same_edges w w1 →
             same_edges w (foldl (Tracker.refresh_step cfg o now) (w1, s) l).1).
  { induction l as [| x l IH]; intros w1 s H1; [exact H1 |].
    cbn [foldl]. unfold Tracker.refresh_step at 2.
    destruct (ac_heap w1 !! x) as [a |] eqn:Ha; [| apply IH, H1].
    destruct (Tracker.refresh_one cfg now (random o (TrackedAircraft.icao a)) a)
      as [a' want] eqn:Hr.
    apply IH. apply (same_edges_trans _ w1); [exact H1 |].
    split; [reflexivity |]. intros b bo. cbn [upd_ac ac_heap set_ac_heap].
    rewrite lookup_alter. destruct (decide (x = b)) as [<- | Hne]; [| eauto 10].
    rewrite Ha. intros [= <-]. exists a. split; [reflexivity |].
    pose proof (refresh_one_edges cfg now (random o (TrackedAircraft.icao a)) a) as He.
    rewrite Hr in He. exact He. }
  specialize (H w ∅ (same_edges_refl w)).
  destruct (foldl _ _ _) as [w1 wanted]. exact H.
Qed.

Lemma collect_same_edges (o : Oracle) (now : Q) (receiver : rid) (report : list (Z * Q))
    (w : World) (acc : Tracker.collected) :
  same_edges w acc.1.1.1 →
  same_edges w (foldl (Tracker.collect_step o now receiver) acc report).1.1.1.
Proof.
  revert acc. induction report as [| [icao rate] report IH]; intros acc H; [exact H |].
  cbn [foldl]. apply IH. destruct acc as [[[w1 na] m] l]. cbn [fst] in H.
  unfold Tracker.collect_step.
  destruct (aircraft w1 !! icao) as [ac |]; [| exact H].
  destruct (ac_heap _ !! ac); [| exact H]. cbn [fst].
  apply (same_edges_trans _ w1); [exact H |].
  apply same_edges_upd_ac. intros ao. repeat split.
Qed.

(** X4.  A run of the interest selector keeps the four relations
    symmetric. *)
Theorem update_interest_symmetry (cfg : Config) (o : Oracle) (now : Q) (receiver : rid)
    (w : World) :
  bipartite_symmetry w → bipartite_symmetry (Tracker.update_interest cfg o now receiver w).
Proof.
  intros H. unfold Tracker.update_interest.
  destruct (rx_heap w !! receiver) as [r |]; [| exact H]. cbv zeta.
  set (w1 := if Qltb 0.1 (now - mlat_wanted_ts w)
             then Tracker.refresh_mlat_wanted cfg o now w else w).
  assert (H1 : same_edges w w1).
  { unfold w1. destruct (Qltb 0.1 _); [apply refresh_same_edges | apply same_edges_refl]. }
  destruct (Receiver.last_rate_report r) as [report |].
  - pose proof (collect_same_edges o now receiver report w (w1, ∅, ∅, []) H1) as H2.
    destruct (foldl _ _ report) as [[[w2 new_adsb] m] l]. cbn [fst] in H2.
    apply (commit_keeps_symmetry cfg o receiver
             (Tracker.rate_aware_sync cfg o w2 (Receiver.tracking r) m l)
             (Receiver.tracking r ∩ mlat_wanted w1) new_adsb w2).
    apply (same_edges_symmetry w w2 H2 H).
  - apply (commit_keeps_symmetry cfg o receiver
             (Tracker.legacy_sync cfg o (Receiver.tracking r))
             (Receiver.tracking r ∩ mlat_wanted w1) ∅ w1).
    apply (same_edges_symmetry w w1 H1 H).
Qed.

(** ** The preservation theorems at concrete stores *)

Lemma two_receivers_store_ok : store_ok two_receivers.
Proof.
  split; [apply (bool_decide_unpack _); vm_compute; exact I |]. split.
  - intros r ro a Hr Ha. unfold two_receivers in Hr.
    cbn [rx_heap set_receivers set_rx_heap] in Hr.
    apply lookup_insert_Some in Hr as [[<- <-] | [_ Hr]].
    + cbn in Ha. set_solver.
    + apply lookup_singleton_Some in Hr as [<- <-]. cbn in Ha. set_solver.
  - intros icao ac H. cbn in H. rewrite lookup_empty in H. discriminate.
Qed.

Lemma update_interest_sets_symmetry_witness :
  bipartite_symmetry
    (update_interest_sets example_config plain_oracle 1%nat {[0%nat]} ∅ ∅ rate_reported).
Proof.
  edestruct (update_interest_sets_symmetry example_config plain_oracle 1%nat
               {[0%nat]} ∅ ∅ rate_reported) as [H _].
  - apply (bool_decide_unpack _). vm_compute. exact I.
  - vm_compute. reflexivity.
  - exact H.
Defined.

Lemma remove_symmetry_witness :
  bipartite_symmetry (Tracker.remove 1%nat [0xABCDEF] rate_reported).
Proof.
  apply remove_symmetry. apply (bool_decide_unpack _). vm_compute. exact I.
Defined.

Lemma add_store_ok_witness :
  store_ok (Tracker.add example_config plain_oracle 0 0%nat [0xABCDEF; 1] two_receivers).
Proof. apply add_store_ok. exact two_receivers_store_ok. Defined.

Lemma update_interest_symmetry_witness :
  bipartite_symmetry
    (Tracker.update_interest example_config plain_oracle 200 0%nat tracked_world).
Proof.
  apply update_interest_symmetry. apply (bool_decide_unpack _). vm_compute. exact I.
Defined.

Lemma remove_all_symmetry_witness :
  ∃ w', Tracker.remove_all 0%nat tracked_world = Returned w' ∧ bipartite_symmetry w'.
Proof.
  eapply remove_all_symmetry.
  - apply (bool_decide_unpack _). vm_compute. exact I.
  - vm_compute. reflexivity.
  - apply (bool_decide_unpack _). vm_compute. exact I.
  - intros a Ha. change (a ∈ ({[0%nat]} : gset nat)) in Ha.
    apply elem_of_singleton in Ha as ->.
    eexists. split; vm_compute; reflexivity.
Defined.

(** * Further properties of the tracker *)

(** ** What add and remove do to the registry *)

Lemma add_one_registry_ok (cfg : Config) (o : Oracle) (now : Q) (r : rid) (w : World)
    (x : Z) :
  registry_ok w → registry_ok (Tracker.add_one cfg o now r w x).
Proof.
  intros Hreg. unfold Tracker.add_one.
  destruct (aircraft w !! x) as [ac |] eqn:Hx.
  - intros i a. cbn [upd_rx upd_ac ac_heap aircraft set_rx_heap set_ac_heap].
    intros Hia. destruct (Hreg i a Hia) as (b & Hb & Hbi).
    destruct (decide (ac = a)) as [<- | Hne].
    + rewrite !lookup_alter_eq, Hb. cbn. eauto.
    + rewrite !lookup_alter_ne by exact Hne. eauto.
  - set (ac := fresh (dom (ac_heap w))).
    assert (Hfresh : ac_heap w !! ac = None) by (apply not_elem_of_dom, is_fresh).
    intros i a.
    cbn [upd_rx upd_ac ac_heap aircraft set_rx_heap set_ac_heap set_aircraft].
    rewrite lookup_insert. destruct (decide (x = i)) as [<- | Hne].
    + intros [= <-]. rewrite !lookup_alter_eq, lookup_insert_eq. cbn. eauto.
    + intros Hia. destruct (Hreg i a Hia) as (b & Hb & Hbi).
      assert (ac ≠ a) by congruence.
      rewrite !lookup_alter_ne, lookup_insert_ne by assumption. eauto.
Qed.



Lemma add_one_receiver (cfg : Config) (o : Oracle) (now : Q) (r : rid) (w : World)
    (x : Z) (r0 : Receiver.t) :
  rx_heap w !! r = Some r0 →
  ∃ ac, aircraft (Tracker.add_one cfg o now r w x) !! x = Some ac
    ∧ rx_heap (Tracker.add_one cfg o now r w x) !! r
      = Some (Receiver.set_tracking (λ s, {[ac]} ∪ s) r0).
Proof.
  intros Hr. unfold Tracker.add_one.
  destruct (aircraft w !! x) as [ac |] eqn:Hx.
  - exists ac. cbn [upd_rx upd_ac rx_heap aircraft set_rx_heap set_ac_heap].
    rewrite lookup_alter_eq, Hr. auto.
  - eexists.
    cbn [upd_rx upd_ac rx_heap aircraft set_rx_heap set_ac_heap set_aircraft].
    rewrite lookup_insert_eq, lookup_alter_eq, Hr. auto.
Qed.

Lemma add_one_tracked (cfg : Config) (o : Oracle) (now : Q) (r : rid) (w : World) (x : Z) :
  registry_ok w → is_Some (rx_heap w !! r) →
  tracked_edge now r (Tracker.add_one cfg o now r w x) x.
Proof.
  intros Hreg [r0 Hr].
  destruct (add_one_receiver cfg o now r w x r0 Hr) as (ac & Hac & Hrx).
  destruct (add_one_registry_ok cfg o now r w x Hreg x ac Hac) as (a & Ha & Hi).
  exists ac, a, (Receiver.set_tracking (λ s, {[ac]} ∪ s) r0).
  split; [exact Hac |]. split; [exact Ha |]. split; [exact Hi |].
  assert (Hts : r ∈ TrackedAircraft.tracking a ∧ TrackedAircraft.seen a = now).
  { revert Hac Ha. unfold Tracker.add_one.
    destruct (aircraft w !! x) as [ac0 |] eqn:Hx;
      cbn [upd_rx upd_ac ac_heap aircraft set_rx_heap set_ac_heap set_aircraft].
    - intros Hac. assert (ac0 = ac) by congruence. subst ac0.
      rewrite !lookup_alter_eq.
      destruct (ac_heap w !! ac) as [b |]; [| discriminate].
      intros [= <-]. cbn. split; [set_solver | reflexivity].
    - rewrite lookup_insert_eq. intros [= <-].
      rewrite !lookup_alter_eq, lookup_insert_eq. intros [= <-]. cbn.
      split; [set_solver | reflexivity]. }
  destruct Hts as [Ht Hs]. split; [exact Ht |]. split; [exact Hs |].
  split; [exact Hrx |]. cbn. set_solver.
Qed.

Lemma add_one_keeps_tracked (cfg : Config) (o : Oracle) (now : Q) (r : rid) (w : World)
    (x i : Z) :
  registry_ok w → tracked_edge now r w i →
  tracked_edge now r (Tracker.add_one cfg o now r w x) i.
Proof.
  intros Hreg (ac & a & r' & Hac & Ha & Hi & Ht & Hs & Hr & Hin).
  unfold tracked_edge, Tracker.add_one.
  destruct (aircraft w !! x) as [acx |] eqn:Hx;
    cbn [upd_rx upd_ac ac_heap rx_heap aircraft set_rx_heap set_ac_heap set_aircraft].
  - exists ac. destruct (decide (acx = ac)) as [-> | Hne].
    + eexists _, _. split; [exact Hac |].
      rewrite !lookup_alter_eq, Ha, Hr. cbn. split; [reflexivity |].
      split; [exact Hi |]. split; [set_solver |]. split; [reflexivity |].
      split; [reflexivity |]. cbn. set_solver.
    + exists a. eexists. split; [exact Hac |].
      rewrite !lookup_alter_ne by exact Hne. rewrite lookup_alter_eq, Hr.
      split; [exact Ha |]. split; [exact Hi |]. split; [exact Ht |].
      split; [exact Hs |]. split; [reflexivity |]. cbn. set_solver.
  - set (acx := fresh (dom (ac_heap w))).
    assert (Hfresh : ac_heap w !! acx = None) by (apply not_elem_of_dom, is_fresh).
    assert (acx ≠ ac) by congruence. assert (x ≠ i) by congruence.
    exists ac, a. eexists. rewrite lookup_insert_ne by assumption.
    split; [exact Hac |].
    rewrite !lookup_alter_ne, lookup_insert_ne by assumption.
    rewrite lookup_alter_eq, Hr.
    split; [exact Ha |]. split; [exact Hi |]. split; [exact Ht |].
    split; [exact Hs |]. split; [reflexivity |]. cbn. set_solver.
Qed.

Lemma add_one_keeps_receiver (cfg : Config) (o : Oracle) (now : Q) (r : rid) (w : World)
    (x : Z) :
  is_Some (rx_heap w !! r) → is_Some (rx_heap (Tracker.add_one cfg o now r w x) !! r).
Proof.
  intros [r0 Hr]. destruct (add_one_receiver cfg o now r w x r0 Hr) as (ac & _ & H).
  eauto.
Qed.

Lemma add_one_keeps_entries (cfg : Config) (o : Oracle) (now : Q) (r : rid) (w : World)
    (x i : Z) (ac : aid) :
  aircraft w !! i = Some ac → aircraft (Tracker.add_one cfg o now r w x) !! i = Some ac.
Proof.
  intros Hi. unfold Tracker.add_one.
  destruct (aircraft w !! x) as [acx |] eqn:Hx; [exact Hi |].
  cbn [upd_rx upd_ac aircraft set_rx_heap set_ac_heap set_aircraft].
  rewrite lookup_insert_ne by congruence. exact Hi.
Qed.

Lemma add_one_new_entries (cfg : Config) (o : Oracle) (now : Q) (r : rid) (w : World)
    (x i : Z) :
  i ≠ x → aircraft (Tracker.add_one cfg o now r w x) !! i = aircraft w !! i.
Proof.
  intros Hi. unfold Tracker.add_one.
  destruct (aircraft w !! x) as [acx |] eqn:Hx; [reflexivity |].
  cbn [upd_rx upd_ac aircraft set_rx_heap set_ac_heap set_aircraft].
  apply lookup_insert_ne. congruence.
Qed.

(** X6.  After [add(receiver, icao_set)] every address of the set is in the
    registry, its aircraft and the receiver track each other, and the
    aircraft's [seen] is the time of the call.  [add] keeps every entry
    the registry had and creates entries for addresses of the set only. *)
Theorem add_tracks_all (cfg : Config) (o : Oracle) (now : Q) (receiver : rid)
    (icao_set : list Z) (w : World) :
  registry_ok w → is_Some (rx_heap w !! receiver) →
  let w' := Tracker.add cfg o now receiver icao_set w in
  (∀ icao, icao ∈ icao_set → tracked_edge now receiver w' icao)
  ∧ (∀ icao ac, aircraft w !! icao = Some ac → aircraft w' !! icao = Some ac)
  ∧ (∀ icao, icao ∉ icao_set → aircraft w' !! icao = aircraft w !! icao).
Proof.
  unfold Tracker.add. revert w.
  induction icao_set as [| x l IH]; intros w Hreg Hr; cbn [foldl].
  - split; [intros icao []%elem_of_nil | auto].
  - pose proof (add_one_registry_ok cfg o now receiver w x Hreg) as Hreg1.
    pose proof (add_one_keeps_receiver cfg o now receiver w x Hr) as Hr1.
    destruct (IH _ Hreg1 Hr1) as (I1 & I2 & I3). split; [| split].
    + intros icao [-> | Hin]%elem_of_cons; [| apply I1, Hin].
      pose proof (add_one_tracked cfg o now receiver w x Hreg Hr) as Hx.
      clear IH I1 I2 I3. revert Hreg1 Hx.
      generalize (Tracker.add_one cfg o now receiver w x). intros w1.
      revert w1. induction l as [| y l IHl]; intros w1 Hreg1 Hx; [exact Hx |].
      cbn [foldl]. apply IHl; [apply add_one_registry_ok, Hreg1 |].
      apply add_one_keeps_tracked; assumption.
    + intros icao ac Hi. apply I2, add_one_keeps_entries, Hi.
    + intros icao Hi. apply not_elem_of_cons in Hi as [Hne Hi].
      rewrite (I3 icao Hi). apply add_one_new_entries, Hne.
Qed.






(** X8.  [remove] of addresses the registry does not hold changes
    nothing. *)
Theorem remove_unknown (receiver : rid) (icao_set : list Z) (w : World) :
  (∀ icao, icao ∈ icao_set → aircraft w !! icao = None) →
  Tracker.remove receiver icao_set w = w.
Proof.
  unfold Tracker.remove. induction icao_set as [| x l IH]; intros H; [reflexivity |].
  cbn [foldl]. unfold Tracker.remove_one at 2.
  rewrite (H x) by apply list_elem_of_here.
  apply IH. intros icao Hi. apply H, list_elem_of_further, Hi.
Qed.

(** ** No aircraft without a tracker *)





(** * Further properties of the interest selector *)

(** ** What the selector leaves alone *)

Lemma upd_acs_dom (s : gset aid) f (w : World) :
  dom (ac_heap (upd_acs s f w)) = dom (ac_heap w).
Proof.
  unfold upd_acs. induction (elements s) as [| a l IH]; [reflexivity |].
  cbn [foldr upd_ac ac_heap set_ac_heap]. rewrite dom_alter_L. exact IH.
Qed.

Lemma upd_acs_receivers s f w : receivers (upd_acs s f w) = receivers w.
Proof. apply upd_acs_frame. Qed.

Lemma upd_acs_scheduled s f w : scheduled (upd_acs s f w) = scheduled w.
Proof. apply upd_acs_frame. Qed.

Lemma same_identity_refl ao : same_identity ao ao.
Proof. repeat split. Qed.

Lemma same_identity_trans a b c : same_identity a b → same_identity b c → same_identity a c.
Proof. intros (?&?&?) (?&?&?). repeat split; congruence. Qed.

Lemma same_aircraft_refl w : same_aircraft w w.
Proof. intros a. destruct (ac_heap w !! a); [apply same_identity_refl | exact I]. Qed.

Lemma same_aircraft_trans w1 w2 w3 :
  same_aircraft w1 w2 → same_aircraft w2 w3 → same_aircraft w1 w3.
Proof.
  intros H12 H23 a. specialize (H12 a). specialize (H23 a).
  destruct (ac_heap w1 !! a), (ac_heap w2 !! a), (ac_heap w3 !! a); try tauto.
  eapply same_identity_trans; eassumption.
Qed.

Lemma same_aircraft_upd_ac w ac f :
  (∀ ao, same_identity ao (f ao)) → same_aircraft w (upd_ac ac f w).
Proof.
  intros Hf a. cbn [upd_ac ac_heap set_ac_heap]. rewrite lookup_alter.
  destruct (decide (ac = a)) as [<- | Hne].
  - destruct (ac_heap w !! ac); cbn; [apply Hf | exact I].
  - destruct (ac_heap w !! a); [apply same_identity_refl | exact I].
Qed.

Lemma same_aircraft_upd_acs w s f :
  (∀ ao, same_identity ao (f ao)) → same_aircraft w (upd_acs s f w).
Proof.
  intros Hf. unfold upd_acs. induction (elements s) as [| a l IH].
  - apply same_aircraft_refl.
  - cbn [foldr]. eapply same_aircraft_trans; [exact IH |].
    apply same_aircraft_upd_ac, Hf.
Qed.

Lemma same_aircraft_upd_rx w r f : same_aircraft w (upd_rx r f w).
Proof.
  intros a. cbn [upd_rx ac_heap set_rx_heap].
  destruct (ac_heap w !! a); [apply same_identity_refl | exact I].
Qed.

Lemma update_interest_sets_same_aircraft cfg o self ns nm na w :
  same_aircraft w (update_interest_sets cfg o self ns nm na w).
Proof.
  unfold update_interest_sets. destruct (rx_heap w !! self) as [r |];
    [| apply same_aircraft_refl].
  cbv zeta.
  eapply same_aircraft_trans; [| apply same_aircraft_upd_rx].
  do 6 (eapply same_aircraft_trans;
        [| apply same_aircraft_upd_acs; intros ao; repeat split]).
  apply same_aircraft_refl.
Qed.

Lemma refresh_one_identity cfg now rnd ao :
  same_identity ao (Tracker.refresh_one cfg now rnd ao).1.
Proof.
  unfold Tracker.refresh_one.
  repeat match goal with |- context [if ?c then _ else _] => destruct c end;
    repeat split.
Qed.

Lemma refresh_same_aircraft cfg o now w :
  same_aircraft w (Tracker.refresh_mlat_wanted cfg o now w).
Proof.
  unfold Tracker.refresh_mlat_wanted.
  generalize ((map_to_list (aircraft w)).*2). intros l.
  assert (H : ∀ (w1 : World) (s : gset aid),
             same_aircraft w w1 →
             same_aircraft w (foldl (Tracker.refresh_step cfg o now) (w1, s) l).1).
  { induction l as [| x l IH]; intros w1 s H1; [exact H1 |].
    cbn [foldl]. unfold Tracker.refresh_step at 2.
    destruct (ac_heap w1 !! x) as [a |] eqn:Ha; [| apply IH, H1].
    destruct (Tracker.refresh_one cfg now (random o (TrackedAircraft.icao a)) a)
      as [a' want] eqn:Hr.
    apply IH. apply (same_aircraft_trans _ w1); [exact H1 |].
    intros b. cbn [upd_ac ac_heap set_ac_heap]. rewrite lookup_alter.
    destruct (decide (x = b)) as [<- | Hne].
    - rewrite Ha. cbn.
      pose proof (refresh_one_identity cfg now (random o (TrackedAircraft.icao a)) a) as Hi.
      rewrite Hr in Hi. exact Hi.
    - destruct (ac_heap w1 !! b); [apply same_identity_refl | exact I]. }
  specialize (H w ∅ (same_aircraft_refl w)).
  destruct (foldl _ _ _) as [w1 wanted]. exact H.
Qed.

Lemma collect_same_aircraft o now receiver report w (acc : Tracker.collected) :
  same_aircraft w acc.1.1.1 →
  same_aircraft w (foldl (Tracker.collect_step o now receiver) acc report).1.1.1.
Proof.
  revert acc. induction report as [| [icao rate] report IH]; intros acc H; [exact H |].
  cbn [foldl]. apply IH. destruct acc as [[[w1 na] m] l]. cbn [fst] in H.
  unfold Tracker.collect_step.
  destruct (aircraft w1 !! icao) as [ac |]; [| exact H].
  destruct (ac_heap _ !! ac); [| exact H]. cbn [fst].
  apply (same_aircraft_trans _ w1); [exact H |].
  apply same_aircraft_upd_ac. intros ao. repeat split.
Qed.

Lemma update_interest_sets_frame cfg o self ns nm na w :
  let w' := update_interest_sets cfg o self ns nm na w in
  aircraft w' = aircraft w ∧ receivers w' = receivers w
  ∧ mlat_wanted w' = mlat_wanted w ∧ scheduled w' = scheduled w
  ∧ ∀ r2, r2 ≠ self → rx_heap w' !! r2 = rx_heap w !! r2.
Proof.
  unfold update_interest_sets. destruct (rx_heap w !! self) as [r |]; [| auto 10].
  cbv zeta. cbn [upd_rx aircraft receivers mlat_wanted scheduled rx_heap set_rx_heap].
  rewrite !upd_acs_aircraft, !upd_acs_receivers, !upd_acs_mlat_wanted,
    !upd_acs_scheduled, !upd_acs_rx_heap.
  repeat split. intros r2 Hne. apply lookup_alter_ne. congruence.
Qed.

Lemma refresh_step_frame cfg o now (w0 : World) (s : gset aid) (x : aid) :
  let out := (Tracker.refresh_step cfg o now (w0, s) x).1 in
  aircraft out = aircraft w0 ∧ rx_heap out = rx_heap w0
  ∧ receivers out = receivers w0 ∧ scheduled out = scheduled w0.
Proof.
  unfold Tracker.refresh_step. destruct (ac_heap w0 !! x) as [a |]; [| cbn; auto].
  destruct (Tracker.refresh_one _ _ _ _) as [a' want]. cbn. auto.
Qed.

Lemma refresh_frame_all cfg o now w :
  let w' := Tracker.refresh_mlat_wanted cfg o now w in
  aircraft w' = aircraft w ∧ rx_heap w' = rx_heap w
  ∧ receivers w' = receivers w ∧ scheduled w' = scheduled w.
Proof.
  unfold Tracker.refresh_mlat_wanted.
  generalize ((map_to_list (aircraft w)).*2). intros l.
  assert (H : ∀ (acc : World * gset aid),
             let out := (foldl (Tracker.refresh_step cfg o now) acc l).1 in
             aircraft out = aircraft acc.1 ∧ rx_heap out = rx_heap acc.1
             ∧ receivers out = receivers acc.1 ∧ scheduled out = scheduled acc.1).
  { induction l as [| x l IH]; intros acc; [cbn; auto |].
    cbn [foldl]. specialize (IH (Tracker.refresh_step cfg o now acc x)).
    cbv zeta in *. destruct IH as (I1 & I2 & I3 & I4). rewrite I1, I2, I3, I4.
    destruct acc as [w0 s]. apply refresh_step_frame. }
  specialize (H (w, ∅)). destruct (foldl _ _ _) as [w1 wanted]. exact H.
Qed.

Lemma collect_frame_all o now receiver report (acc : Tracker.collected) :
  let out := (foldl (Tracker.collect_step o now receiver) acc report).1.1.1 in
  aircraft out = aircraft acc.1.1.1 ∧ rx_heap out = rx_heap acc.1.1.1
  ∧ receivers out = receivers acc.1.1.1 ∧ scheduled out = scheduled acc.1.1.1.
Proof.
  revert acc. induction report as [| [icao rate] report IH]; intros acc; [cbn; auto |].
  cbn [foldl].
  specialize (IH (Tracker.collect_step o now receiver acc (icao, rate))).
  cbv zeta in *. destruct IH as (I1 & I2 & I3 & I4). rewrite I1, I2, I3, I4.
  destruct acc as [[[w na] m] l]. unfold Tracker.collect_step.
  destruct (aircraft w !! icao) as [ac |]; [| auto].
  destruct (ac_heap _ !! ac); auto.
Qed.

Lemma update_interest_frame_all (cfg : Config) (o : Oracle) (now : Q) (receiver : rid)
    (w : World) (r : Receiver.t) :
  rx_heap w !! receiver = Some r →
  let w' := Tracker.update_interest cfg o now receiver w in
  aircraft w' = aircraft w
  ∧ receivers w' = receivers w
  ∧ same_aircraft w w'
  ∧ (∀ r2, r2 ≠ receiver → rx_heap w' !! r2 = rx_heap w !! r2)
  ∧ (∃ r', rx_heap w' !! receiver = Some r'
       ∧ Receiver.tracking r' = Receiver.tracking r
       ∧ Receiver.bad_syncs r' = Receiver.bad_syncs r
       ∧ Receiver.last_rate_report r' = Receiver.last_rate_report r)
  ∧ scheduled w' = scheduled w ++ [receiver].
Proof.
  intros Hr w'.
  destruct (update_interest_commit cfg o now receiver w r Hr) as (ns & na & Hc & _).
  fold w' in Hc.
  assert (Hlast : ∃ r', rx_heap w' !! receiver = Some r'
       ∧ Receiver.tracking r' = Receiver.tracking r
       ∧ Receiver.bad_syncs r' = Receiver.bad_syncs r
       ∧ Receiver.last_rate_report r' = Receiver.last_rate_report r).
  { eexists. split; [exact Hc |]. repeat split. }
  clear Hc. unfold w', Tracker.update_interest in *. rewrite Hr in *. cbv zeta in *.
  set (w1 := if Qltb 0.1 (now - mlat_wanted_ts w)
             then Tracker.refresh_mlat_wanted cfg o now w else w) in *.
  assert (H1 : aircraft w1 = aircraft w ∧ rx_heap w1 = rx_heap w
               ∧ receivers w1 = receivers w ∧ scheduled w1 = scheduled w).
  { unfold w1. destruct (Qltb 0.1 _); [apply refresh_frame_all | auto]. }
  assert (S1 : same_aircraft w w1).
  { unfold w1. destruct (Qltb 0.1 _); [apply refresh_same_aircraft | apply same_aircraft_refl]. }
  destruct H1 as (A1 & R1 & V1 & C1).
  destruct (Receiver.last_rate_report r) as [report |].
  - pose proof (collect_frame_all o now receiver report (w1, ∅, ∅, [])) as H2.
    pose proof (collect_same_aircraft o now receiver report w (w1, ∅, ∅, []) S1) as S2.
    cbv zeta in H2.
    destruct (foldl _ _ report) as [[[w2 new_adsb] m] l]. cbn [fst] in H2, S2.
    destruct H2 as (A2 & R2 & V2 & C2).
    destruct (update_interest_sets_frame cfg o receiver
                (Tracker.rate_aware_sync cfg o w2 (Receiver.tracking r) m l)
                (Receiver.tracking r ∩ mlat_wanted w1) new_adsb w2)
      as (A3 & V3 & _ & C3 & R3).
    cbn [aircraft receivers rx_heap scheduled call_soon].
    split; [congruence |]. split; [congruence |]. split.
    { eapply same_aircraft_trans; [exact S2 |].
      intros a. cbn [call_soon ac_heap].
      apply update_interest_sets_same_aircraft. }
    split; [intros r2 Hne; rewrite (R3 r2 Hne); congruence |].
    split; [exact Hlast | congruence].
  - destruct (update_interest_sets_frame cfg o receiver
                (Tracker.legacy_sync cfg o (Receiver.tracking r))
                (Receiver.tracking r ∩ mlat_wanted w1) ∅ w1)
      as (A3 & V3 & _ & C3 & R3).
    cbn [aircraft receivers rx_heap scheduled call_soon].
    split; [congruence |]. split; [congruence |]. split.
    { eapply same_aircraft_trans; [exact S1 |].
      intros a. cbn [call_soon ac_heap].
      apply update_interest_sets_same_aircraft. }
    split; [intros r2 Hne; rewrite (R3 r2 Hne); congruence |].
    split; [exact Hlast | congruence].
Qed.

(** X10.  A run of the interest selector creates and deletes no aircraft,
    leaves the registry, every tracking set (of receivers and of
    aircraft), every other receiver and the receiver's own score alone,
    and queues one traffic refresh for the receiver. *)
Theorem update_interest_frame (cfg : Config) (o : Oracle) (now : Q) (receiver : rid)
    (w : World) (r : Receiver.t) :
  rx_heap w !! receiver = Some r →
  let w' := Tracker.update_interest cfg o now receiver w in
  aircraft w' = aircraft w
  ∧ receivers w' = receivers w
  ∧ same_aircraft w w'
  ∧ (∀ r2, r2 ≠ receiver → rx_heap w' !! r2 = rx_heap w !! r2)
  ∧ (∃ r', rx_heap w' !! receiver = Some r'
       ∧ Receiver.tracking r' = Receiver.tracking r
       ∧ Receiver.bad_syncs r' = Receiver.bad_syncs r
       ∧ Receiver.last_rate_report r' = Receiver.last_rate_report r)
  ∧ scheduled w' = scheduled w ++ [receiver].
Proof. exact (update_interest_frame_all cfg o now receiver w r). Qed.

(** ** The legacy selector *)

Lemma sample_subset (smp : list aid → nat → list aid) (s : gset aid) (k : nat) :
  sample_ok smp → (k ≤ size s)%nat →
  (list_to_set (smp (elements s) k) : gset aid) ⊆ s.
Proof.
  intros Hok Hk a Ha. apply elem_of_list_to_set in Ha.
  destruct (Hok (elements s) k Hk (NoDup_elements s)) as (_ & _ & Hsub).
  apply elem_of_elements, Hsub, Ha.
Qed.

Lemma legacy_sync_subset (cfg : Config) (o : Oracle) (tracking : gset aid) :
  sample_ok (sample o) → Tracker.legacy_sync cfg o tracking ⊆ tracking.
Proof.
  intros Hok. unfold Tracker.legacy_sync.
  destruct (Nat.ltb_spec (MAX_SYNC_AC cfg) (size tracking)) as [H | H]; [| reflexivity].
  apply sample_subset; [exact Hok | lia].
Qed.

Lemma attenuated_subset (cfg : Config) (o : Oracle) (bad_syncs : Q) (new_sync : gset aid) :
  sample_ok (sample o) →
  (if Qltb 2 bad_syncs && (MAX_SYNC_AC cfg <? 4 * size new_sync)%nat
   then list_to_set (sample o (elements new_sync) (round_quarter (MAX_SYNC_AC cfg)))
   else new_sync : gset aid) ⊆ new_sync.
Proof.
  intros Hok. destruct (Qltb 2 bad_syncs); cbn [andb]; [| reflexivity].
  destruct (Nat.ltb_spec (MAX_SYNC_AC cfg) (4 * size new_sync)) as [H | H]; [| reflexivity].
  apply sample_subset; [exact Hok | apply round_quarter_le, H].
Qed.

Lemma update_interest_legacy_commit (cfg : Config) (o : Oracle) (now : Q) (receiver : rid)
    (w : World) (r : Receiver.t) :
  rx_heap w !! receiver = Some r → Receiver.last_rate_report r = None →
  let w' := Tracker.update_interest cfg o now receiver w in
  let new_sync := Tracker.legacy_sync cfg o (Receiver.tracking r) in
  rx_heap w' !! receiver
  = Some (Receiver.set_interest ∅
            (if Qltb 2 (Receiver.bad_syncs r)
                && (MAX_SYNC_AC cfg <? 4 * size new_sync)%nat
             then list_to_set (sample o (elements new_sync)
                                 (round_quarter (MAX_SYNC_AC cfg)))
             else new_sync)
            (if Qltb 0 (Receiver.bad_syncs r) then ∅
             else Receiver.tracking r ∩ mlat_wanted w') r).
Proof.
  intros Hr Hrep w' new_sync. unfold w', Tracker.update_interest.
  rewrite Hr, Hrep. cbv zeta.
  set (w1 := if Qltb 0.1 (now - mlat_wanted_ts w)
             then Tracker.refresh_mlat_wanted cfg o now w else w).
  assert (Hr1 : rx_heap w1 !! receiver = Some r).
  { unfold w1. destruct (Qltb 0.1 _); [| exact Hr].
    rewrite (proj1 (refresh_frame cfg o now w)). exact Hr. }
  destruct (update_interest_sets_commit cfg o receiver
              (Tracker.legacy_sync cfg o (Receiver.tracking r))
              (Receiver.tracking r ∩ mlat_wanted w1) ∅ w1 r Hr1) as (U1 & U2 & _).
  cbn [rx_heap mlat_wanted call_soon]. rewrite U1, U2. reflexivity.
Qed.

(** X11.  For a receiver without rate report the selector commits an
    empty [adsb_seen], and sync and MLAT interest within the tracking
    set; when the tracking set has at most [MAX_SYNC_AC] aircraft and
    [bad_syncs <= 2], the sync interest is the whole tracking set. *)
Theorem legacy_interest (cfg : Config) (o : Oracle) (now : Q) (receiver : rid)
    (w : World) (r : Receiver.t) :
  sample_ok (sample o) →
  rx_heap w !! receiver = Some r → Receiver.last_rate_report r = None →
  let w' := Tracker.update_interest cfg o now receiver w in
  ∃ r', rx_heap w' !! receiver = Some r'
    ∧ Receiver.adsb_seen r' = ∅
    ∧ Receiver.sync_interest r' ⊆ Receiver.tracking r
    ∧ Receiver.mlat_interest r' ⊆ Receiver.tracking r
    ∧ ((size (Receiver.tracking r) ≤ MAX_SYNC_AC cfg)%nat →
       ¬ (2 < Receiver.bad_syncs r)%Q →
       Receiver.sync_interest r' = Receiver.tracking r).
Proof.
  intros Hok Hr Hrep w'.
  pose proof (update_interest_legacy_commit cfg o now receiver w r Hr Hrep) as Hc.
  cbv zeta in Hc. fold w' in Hc.
  eexists. split; [exact Hc |].
  cbn [Receiver.adsb_seen Receiver.sync_interest Receiver.mlat_interest
       Receiver.set_interest].
  split; [reflexivity |]. split; [| split].
  - etransitivity; [apply attenuated_subset, Hok | apply legacy_sync_subset, Hok].
  - destruct (Qltb 0 _); set_solver.
  - intros Hsize Hbad.
    destruct (Qltb 2 (Receiver.bad_syncs r)) eqn:E;
      [apply Qltb_lt in E; contradiction |].
    cbn [andb]. unfold Tracker.legacy_sync.
    destruct (Nat.ltb_spec (MAX_SYNC_AC cfg) (size (Receiver.tracking r))); [lia |].
    reflexivity.
Qed.

(** ** The rate-aware selector *)

Lemma pairs_for_ac o w receiver icao rate ac a p :
  p ∈ Tracker.pairs_for o w receiver icao rate ac a →
  pair_ac p = ac ∧ pair_rate p = rate.
Proof.
  unfold Tracker.pairs_for. intros H. apply list_elem_of_omap in H as (r1 & _ & H).
  destruct (bool_decide _); [discriminate |].
  destruct (Qltb _ 0.01); [discriminate |]. injection H as <-. split; reflexivity.
Qed.

Lemma collect_step_inv (P : Q → Prop) o now receiver acc icao rate :
  P rate → collect_inv P acc →
  collect_inv P (Tracker.collect_step o now receiver acc (icao, rate))
  ∧ aircraft (Tracker.collect_step o now receiver acc (icao, rate)).1.1.1
    = aircraft acc.1.1.1
  ∧ ∀ ac, ac ∈ (Tracker.collect_step o now receiver acc (icao, rate)).1.1.2
          ↔ ac ∈ acc.1.1.2 ∨ aircraft acc.1.1.1 !! icao = Some ac.
Proof.
  intros HP. destruct acc as [[[w na] m] l]. intros (Hst & Hdom & Hl).
  cbn [fst snd] in *. unfold Tracker.collect_step.
  destruct (aircraft w !! icao) as [ac |] eqn:Hic.
  2:{ split; [split; auto |]. split; [reflexivity |]. intros ac. cbn. split; [auto |].
      intros [? | ?]; [assumption | discriminate]. }
  destruct (Hst icao ac Hic) as [a0 Ha0].
  cbn [upd_ac ac_heap set_ac_heap]. rewrite lookup_alter_eq, Ha0.
  cbn [fmap option_fmap option_map fst snd]. split; [split; [| split] |].
  - intros i b. cbn [aircraft ac_heap]. intros Hi.
    apply lookup_alter_is_Some, (Hst i b Hi).
  - cbn [fst snd]. rewrite dom_insert_L, Hdom. reflexivity.
  - cbn [fst snd]. intros p [Hp | Hp]%elem_of_app.
    + destruct (Hl p Hp). split; [set_solver | assumption].
    + apply pairs_for_ac in Hp as [-> ->]. split; [set_solver | exact HP].
  - split; [reflexivity |]. intros b. cbn [fst snd].
    rewrite elem_of_union, elem_of_singleton. split.
    + intros [-> | ?]; auto.
    + intros [? | [= ->]]; auto.
Qed.

Lemma collect_spec (P : Q → Prop) o now receiver (report : list (Z * Q))
    (acc : Tracker.collected) :
  (∀ icao rate, (icao, rate) ∈ report → P rate) →
  collect_inv P acc →
  let out := foldl (Tracker.collect_step o now receiver) acc report in
  collect_inv P out
  ∧ ∀ ac, ac ∈ out.1.1.2 ↔ ac ∈ acc.1.1.2 ∨ reported acc.1.1.1 report ac.
Proof.
  revert acc. induction report as [| [icao rate] report IH]; intros acc HP Hinv.
  - cbn. split; [exact Hinv |]. intros ac. split; [auto |].
    intros [? | (? & ? & []%elem_of_nil & _)]. assumption.
  - cbn [foldl].
    destruct (collect_step_inv P o now receiver acc icao rate) as (H1 & H2 & H3);
      [apply (HP icao), list_elem_of_here | exact Hinv |].
    destruct (IH (Tracker.collect_step o now receiver acc (icao, rate))) as (I1 & I2);
      [intros i q Hi; apply (HP i), list_elem_of_further, Hi | exact H1 |].
    split; [exact I1 |]. intros ac. rewrite I2, H3. unfold reported. rewrite H2. split.
    + intros [[? | Hx] | (i & q & Hi & Hq)]; [auto | |].
      * right. exists icao, rate. split; [apply list_elem_of_here | exact Hx].
      * right. exists i, q. split; [apply list_elem_of_further, Hi | exact Hq].
    + intros [? | (i & q & [[= -> ->] | Hi]%elem_of_cons & Hq)]; [auto | auto |].
      right. exists i, q. auto.
Qed.

Lemma sort_insert_elem w (x y : ratepair) (l : list ratepair) :
  y ∈ Tracker.sort_insert w x l ↔ y = x ∨ y ∈ l.
Proof.
  induction l as [| z l IH]; cbn [Tracker.sort_insert].
  - rewrite list_elem_of_singleton. rewrite elem_of_nil. tauto.
  - destruct (Tracker.ratepair_lt w z x).
    + rewrite elem_of_cons. tauto.
    + rewrite !elem_of_cons, IH. tauto.
Qed.

Lemma sort_reverse_elem w (l : list ratepair) (y : ratepair) :
  y ∈ Tracker.sort_reverse w l ↔ y ∈ l.
Proof.
  unfold Tracker.sort_reverse.
  assert (H : ∀ acc, y ∈ foldl (λ acc x, Tracker.sort_insert w x acc) acc l
                     ↔ y ∈ acc ∨ y ∈ l).
  { induction l as [| x l IH]; intros acc; cbn [foldl].
    - rewrite elem_of_nil. tauto.
    - rewrite IH, sort_insert_elem, elem_of_cons. tauto. }
  rewrite H, elem_of_nil. tauto.
Qed.



Lemma top_up_spec (o : Oracle) (acAvailable : gset aid) (addSome : Z) (new_sync : gset aid) :
  sample_ok (sample o) → acAvailable ## new_sync →
  let out := Tracker.top_up o acAvailable addSome new_sync in
  new_sync ⊆ out ∧ out ⊆ new_sync ∪ acAvailable
  ∧ size out = (size new_sync + size acAvailable `min` Z.to_nat addSome)%nat.
Proof.
  intros Hs Hd. unfold Tracker.top_up. cbv zeta.
  set (k := (size acAvailable `min` Z.to_nat addSome)%nat).
  assert (Hk : (k ≤ size acAvailable)%nat) by (unfold k; lia).
  pose proof (sample_subset (sample o) acAvailable k Hs Hk) as Hsub.
  pose proof (sample_size (sample o) acAvailable k Hs Hk) as Hsz.
  split; [set_solver |]. split; [set_solver |].
  rewrite size_union by set_solver. rewrite Hsz. reflexivity.
Qed.

Lemma rate_aware_sync_rounds (cfg : Config) (o : Oracle) (w : World) (tracking : gset aid)
    (m : gmap aid (list ratepair)) (l : list ratepair) :
  Tracker.rate_aware_sync cfg o w tracking m l
  = let new_sync := (rounds cfg o w m l).1.1 in
    if 0 <? Tracker.add_some cfg new_sync then
      let new_sync :=
        Tracker.top_up o (dom m ∖ new_sync) (Tracker.add_some cfg new_sync) new_sync in
      if 0 <? Tracker.add_some cfg new_sync then
        Tracker.top_up o (tracking ∖ new_sync) (Tracker.add_some cfg new_sync) new_sync
      else new_sync
    else new_sync.
Proof.
  unfold Tracker.rate_aware_sync, rounds. cbv zeta.
  destruct (Tracker.select_round cfg w m false 3.5 _ _) as [[ns total] nt]. reflexivity.
Qed.

(** The sync set of a rate-reporting receiver before attenuation: its
    members were reported or are tracked, it has at least
    [min (MAX_SYNC_AC / 4) (len tracking)] members, and it is either
    within the quarter or the outcome of the two rounds. *)
Lemma rate_aware_sync_spec (cfg : Config) (o : Oracle) (w : World) (tracking : gset aid)
    (m : gmap aid (list ratepair)) (l : list ratepair) :
  sample_ok (sample o) →
  let ns := Tracker.rate_aware_sync cfg o w tracking m l in
  let ns0 := (rounds cfg o w m l).1.1 in
  ns ⊆ ns0 ∪ dom m ∪ tracking
  ∧ ((MAX_SYNC_AC cfg / 4) `min` size tracking ≤ size ns)%nat
  ∧ ((size ns ≤ MAX_SYNC_AC cfg / 4)%nat ∨ ns = ns0).
Proof.
  intros Hs ns ns0. unfold ns. rewrite rate_aware_sync_rounds. cbv zeta. fold ns0.
  destruct (0 <? Tracker.add_some cfg ns0) eqn:H0.
  2:{ apply Z.ltb_ge in H0. unfold Tracker.add_some in H0.
      split; [set_solver |]. split; [lia | auto]. }
  apply Z.ltb_lt in H0.
  destruct (top_up_spec o (dom m ∖ ns0) (Tracker.add_some cfg ns0) ns0 Hs)
    as (T1 & T2 & T3); [set_solver |].
  set (ns1 := Tracker.top_up o (dom m ∖ ns0) _ ns0) in *.
  destruct (0 <? Tracker.add_some cfg ns1) eqn:H1.
  2:{ apply Z.ltb_ge in H1. unfold Tracker.add_some in H0, H1, T3.
      split; [set_solver |]. split; lia. }
  apply Z.ltb_lt in H1.
  destruct (top_up_spec o (tracking ∖ ns1) (Tracker.add_some cfg ns1) ns1 Hs)
    as (U1 & U2 & U3); [set_solver |].
  set (ns2 := Tracker.top_up o (tracking ∖ ns1) _ ns1) in *.
  split; [set_solver |].
  assert (Hu : (size tracking ≤ size ns1 + size (tracking ∖ ns1))%nat).
  { rewrite <- size_union_alt. apply subseteq_size. set_solver. }
  unfold Tracker.add_some in H0, H1, T3, U3.
  split; lia.
Qed.

Lemma update_interest_rate_commit (cfg : Config) (o : Oracle) (now : Q) (receiver : rid)
    (w : World) (r : Receiver.t) (report : list (Z * Q)) :
  rx_heap w !! receiver = Some r → Receiver.last_rate_report r = Some report →
  let w' := Tracker.update_interest cfg o now receiver w in
  let w1 := if Qltb 0.1 (now - mlat_wanted_ts w)
            then Tracker.refresh_mlat_wanted cfg o now w else w in
  let out := foldl (Tracker.collect_step o now receiver) (w1, ∅, ∅, []) report in
  let new_sync :=
    Tracker.rate_aware_sync cfg o out.1.1.1 (Receiver.tracking r) out.1.2 out.2 in
  rx_heap w' !! receiver
  = Some (Receiver.set_interest out.1.1.2
            (if Qltb 2 (Receiver.bad_syncs r)
                && (MAX_SYNC_AC cfg <? 4 * size new_sync)%nat
             then list_to_set (sample o (elements new_sync)
                                 (round_quarter (MAX_SYNC_AC cfg)))
             else new_sync)
            (if Qltb 0 (Receiver.bad_syncs r) then ∅
             else Receiver.tracking r ∩ mlat_wanted w') r).
Proof.
  intros Hr Hrep w' w1 out new_sync. unfold w', Tracker.update_interest.
  rewrite Hr, Hrep. cbv zeta. fold w1.
  assert (Hr1 : rx_heap w1 !! receiver = Some r).
  { unfold w1. destruct (Qltb 0.1 _); [| exact Hr].
    rewrite (proj1 (refresh_frame cfg o now w)). exact Hr. }
  pose proof (collect_frame o now receiver report (w1, ∅, ∅, [])) as Hc.
  cbv zeta in Hc. unfold new_sync, out.
  destruct (foldl _ _ report) as [[[w2 new_adsb] m] l]. cbn [fst snd] in *.
  destruct Hc as (C1 & C2 & _).
  destruct (update_interest_sets_commit cfg o receiver
              (Tracker.rate_aware_sync cfg o w2 (Receiver.tracking r) m l)
              (Receiver.tracking r ∩ mlat_wanted w1) new_adsb w2 r) as (U1 & U2 & _).
  { rewrite C1. exact Hr1. }
  cbn [rx_heap mlat_wanted call_soon]. rewrite U1, U2, C2. reflexivity.
Qed.

(** The accumulators of the report loop, started after the refresh of
    [mlat_wanted] on a store whose registry is well formed. *)
Lemma collect_from_registry (P : Q → Prop) (cfg : Config) (o : Oracle) (now : Q)
    (receiver : rid) (w : World) (report : list (Z * Q)) :
  registry_ok w → (∀ icao rate, (icao, rate) ∈ report → P rate) →
  let w1 := if Qltb 0.1 (now - mlat_wanted_ts w)
            then Tracker.refresh_mlat_wanted cfg o now w else w in
  let out := foldl (Tracker.collect_step o now receiver) (w1, ∅, ∅, []) report in
  collect_inv P out ∧ ∀ ac, ac ∈ out.1.1.2 ↔ reported w report ac.
Proof.
  intros Hreg HP w1 out.
  assert (Ha : aircraft w1 = aircraft w).
  { unfold w1. destruct (Qltb 0.1 _); [| reflexivity].
    apply (refresh_frame_all cfg o now w). }
  assert (Hsame : same_aircraft w w1).
  { unfold w1. destruct (Qltb 0.1 _); [apply refresh_same_aircraft | apply same_aircraft_refl]. }
  destruct (collect_spec P o now receiver report (w1, ∅, ∅, []) HP) as [I1 I2].
  { split; [| split]; cbn [fst snd].
    - intros icao ac Hic. rewrite Ha in Hic. destruct (Hreg icao ac Hic) as (a & Hac & _).
      specialize (Hsame ac). rewrite Hac in Hsame.
      destruct (ac_heap w1 !! ac); [eauto | destruct Hsame].
    - apply dom_empty_L.
    - intros p []%elem_of_nil. }
  split; [exact I1 |]. intros ac. fold out in I2. rewrite I2. cbn [fst snd].
  unfold reported. rewrite Ha. split; [intros [[]%elem_of_empty | ?]; assumption | auto].
Qed.

Lemma select_round_members (cfg : Config) (w : World) (m : gmap aid (list ratepair))
    (skip : bool) (limit : Q) (l : list ratepair) (st : Tracker.selection) (ac : aid) :
  ac ∈ (Tracker.select_round cfg w m skip limit l st).1.1 →
  ac ∈ st.1.1 ∨ ∃ p, p ∈ l ∧ pair_ac p = ac.
Proof.
  revert st. induction l as [| p l IH]; intros st; [cbn; auto |].
  assert (Hkeep : ac ∈ (Tracker.select_round cfg w m skip limit l st).1.1 →
                  ac ∈ st.1.1 ∨ ∃ q, q ∈ p :: l ∧ pair_ac q = ac).
  { intros [? | (q & Hq & Hqa)]%IH; [auto |].
    right. exists q. split; [apply list_elem_of_further, Hq | exact Hqa]. }
  destruct p as [[[rp r1] b] rate]. destruct st as [[ns total] nt].
  cbn [Tracker.select_round]. cbn [fst snd] in *.
  destruct (bool_decide (b ∈ ns)); [exact Hkeep |].
  destruct (skip && _); [exact Hkeep |].
  destruct (Qltb (MAX_SYNC_RATE cfg) total); [cbn; auto |].
  destruct (Qltb (default 0%Q (nt !! r1)) limit); [| exact Hkeep].
  intros [Hac | (q & Hq & Hqa)]%IH.
  - cbn [fst snd] in Hac. apply elem_of_union in Hac as [Hac%elem_of_singleton | ?]; [| auto].
    right. exists (rp, r1, b, rate). split; [apply list_elem_of_here | symmetry; exact Hac].
  - right. exists q. split; [apply list_elem_of_further, Hq | exact Hqa].
Qed.

Lemma rounds_members (cfg : Config) (o : Oracle) (w : World) (m : gmap aid (list ratepair))
    (l : list ratepair) (ac : aid) :
  shuffle_ok (shuffle o) →
  ac ∈ (rounds cfg o w m l).1.1 → ∃ p, p ∈ l ∧ pair_ac p = ac.
Proof.
  intros Hshf. unfold rounds. cbv zeta.
  intros [Hac | (p & Hp & Hpa)]%select_round_members.
  - apply select_round_members in Hac as [[]%elem_of_empty | (p & Hp & Hpa)].
    exists p. split; [| exact Hpa].
    apply Hshf in Hp. apply (sort_reverse_elem w).
    eapply sublist_subseteq; [apply sublist_take | exact Hp].
  - exists p. split; [apply (sort_reverse_elem w), Hp | exact Hpa].
Qed.

Lemma attenuated_floor (cfg : Config) (o : Oracle) (bad_syncs : Q) (new_sync : gset aid)
    (n : nat) :
  sample_ok (sample o) →
  (n ≤ MAX_SYNC_AC cfg / 4)%nat → (n ≤ size new_sync)%nat →
  (n ≤ size (if Qltb 2 bad_syncs && (MAX_SYNC_AC cfg <? 4 * size new_sync)%nat
             then list_to_set (sample o (elements new_sync)
                                 (round_quarter (MAX_SYNC_AC cfg)))
             else new_sync : gset aid))%nat.
Proof.
  intros Hok Hq Hn.
  destruct (Qltb 2 bad_syncs && _) eqn:E; [| exact Hn].
  apply andb_true_iff in E as [_ E]. apply Nat.ltb_lt in E.
  rewrite sample_size by (auto using round_quarter_le).
  pose proof (quarter_le_round_quarter (MAX_SYNC_AC cfg)). lia.
Qed.

Lemma update_interest_rate_spec (cfg : Config) (o : Oracle) (now : Q) (receiver : rid)
    (w : World) (r : Receiver.t) (report : list (Z * Q)) :
  sample_ok (sample o) → shuffle_ok (shuffle o) → registry_ok w →
  rx_heap w !! receiver = Some r → Receiver.last_rate_report r = Some report →
  let w' := Tracker.update_interest cfg o now receiver w in
  ∃ r', rx_heap w' !! receiver = Some r'
    ∧ Receiver.last_rate_report r' = Some report
    ∧ (∀ ac, ac ∈ Receiver.adsb_seen r' ↔ reported w report ac)
    ∧ Receiver.sync_interest r' ⊆ Receiver.adsb_seen r' ∪ Receiver.tracking r
    ∧ Receiver.mlat_interest r' ⊆ Receiver.tracking r.
Proof.
  intros Hok Hshf Hreg Hr Hrep w'.
  pose proof (update_interest_rate_commit cfg o now receiver w r report Hr Hrep) as Hc.
  cbv zeta in Hc. fold w' in Hc.
  destruct (collect_from_registry (λ _, True) cfg o now receiver w report Hreg)
    as [(_ & Hdom & Hl) Hadsb]; [auto |].
  set (out := foldl _ _ report) in *.
  eexists. split; [exact Hc |].
  cbn [Receiver.adsb_seen Receiver.sync_interest Receiver.mlat_interest
       Receiver.set_interest Receiver.last_rate_report].
  split; [exact Hrep |].
  split; [exact Hadsb |]. split.
  - etransitivity; [apply attenuated_subset, Hok |].
    destruct (rate_aware_sync_spec cfg o out.1.1.1 (Receiver.tracking r) out.1.2 out.2 Hok)
      as (Hsub & _).
    intros ac Hac. apply Hsub in Hac. rewrite Hdom in Hac.
    apply elem_of_union in Hac as [[Hac | Hac]%elem_of_union | Hac]; [| set_solver..].
    apply rounds_members in Hac as (p & Hp & <-); [| exact Hshf].
    apply elem_of_union_l, Hl, Hp.
  - destruct (Qltb 0 _); set_solver.
Qed.

(** X12.  [receiver_rate_report] on a well-formed registry: the receiver
    keeps the report, and the selector commits as [adsb_seen] exactly the
    aircraft the registry holds under the addresses of the report,
    whether or not the receiver tracks them; the committed sync interest
    lies within these and the tracking set, and the MLAT interest within
    the tracking set. *)
Theorem receiver_rate_report_interest (cfg : Config) (o : Oracle) (now : Q)
    (receiver : rid) (report : list (Z * Q)) (w : World) (r : Receiver.t) :
  sample_ok (sample o) → shuffle_ok (shuffle o) → registry_ok w →
  rx_heap w !! receiver = Some r →
  let w' := Coordinator.receiver_rate_report cfg o now receiver report w in
  ∃ r', rx_heap w' !! receiver = Some r'
    ∧ Receiver.last_rate_report r' = Some report
    ∧ (∀ ac, ac ∈ Receiver.adsb_seen r' ↔ reported w report ac)
    ∧ Receiver.sync_interest r' ⊆ Receiver.adsb_seen r' ∪ Receiver.tracking r
    ∧ Receiver.mlat_interest r' ⊆ Receiver.tracking r.
Proof.
  intros Hok Hshf Hreg Hr. unfold Coordinator.receiver_rate_report.
  apply (update_interest_rate_spec cfg o now receiver
           (upd_rx receiver (Receiver.set_last_rate_report (Some report)) w)
           (Receiver.set_last_rate_report (Some report) r) report Hok Hshf Hreg).
  - cbn [rx_heap upd_rx set_rx_heap]. rewrite lookup_alter_eq, Hr. reflexivity.
  - reflexivity.
Qed.


(** X14.  Every run of the selector commits at least
    [min (MAX_SYNC_AC / 4) (len tracking)] sync aircraft for the receiver,
    with or without rate report and whatever its [bad_syncs]. *)
Theorem sync_interest_floor (cfg : Config) (o : Oracle) (now : Q) (receiver : rid)
    (w : World) (r : Receiver.t) :
  sample_ok (sample o) → rx_heap w !! receiver = Some r →
  let w' := Tracker.update_interest cfg o now receiver w in
  ∃ r', rx_heap w' !! receiver = Some r'
    ∧ ((MAX_SYNC_AC cfg / 4) `min` size (Receiver.tracking r)
       ≤ size (Receiver.sync_interest r'))%nat.
Proof.
  intros Hok Hr w'.
  destruct (Receiver.last_rate_report r) as [report |] eqn:Hrep.
  - pose proof (update_interest_rate_commit cfg o now receiver w r report Hr Hrep) as Hc.
    cbv zeta in Hc. fold w' in Hc. set (out := foldl _ _ report) in *.
    eexists. split; [exact Hc |].
    cbn [Receiver.sync_interest Receiver.set_interest].
    destruct (rate_aware_sync_spec cfg o out.1.1.1 (Receiver.tracking r) out.1.2 out.2 Hok)
      as (_ & Hfloor & _).
    apply attenuated_floor; [exact Hok | lia | exact Hfloor].
  - pose proof (update_interest_legacy_commit cfg o now receiver w r Hr Hrep) as Hc.
    cbv zeta in Hc. fold w' in Hc.
    eexists. split; [exact Hc |].
    cbn [Receiver.sync_interest Receiver.set_interest].
    apply attenuated_floor; [exact Hok | lia |].
    unfold Tracker.legacy_sync.
    destruct (Nat.ltb_spec (MAX_SYNC_AC cfg) (size (Receiver.tracking r))) as [H | H].
    + rewrite sample_size by (auto; lia).
      pose proof (Nat.Div0.div_le_upper_bound (MAX_SYNC_AC cfg) 4 (MAX_SYNC_AC cfg)
                    ltac:(lia)). lia.
    + lia.
Qed.

(** ** The selector and the [interesting] flag *)

Lemma update_interest_keeps_symmetry (cfg : Config) (o : Oracle) (now : Q)
    (receiver : rid) (w : World) :
  bipartite_symmetry w → bipartite_symmetry (Tracker.update_interest cfg o now receiver w).
Proof.
  intros H. unfold Tracker.update_interest.
  destruct (rx_heap w !! receiver) as [r |]; [| exact H]. cbv zeta.
  set (w1 := if Qltb 0.1 (now - mlat_wanted_ts w)
             then Tracker.refresh_mlat_wanted cfg o now w else w).
  assert (H1 : same_edges w w1).
  { unfold w1. destruct (Qltb 0.1 _); [apply refresh_same_edges | apply same_edges_refl]. }
  destruct (Receiver.last_rate_report r) as [report |].
  - pose proof (collect_same_edges o now receiver report w (w1, ∅, ∅, []) H1) as H2.
    destruct (foldl _ _ report) as [[[w2 new_adsb] m] l]. cbn [fst] in H2.
    apply commit_keeps_symmetry, (same_edges_symmetry w w2 H2 H).
  - apply commit_keeps_symmetry, (same_edges_symmetry w w1 H1 H).
Qed.

(** The committed sync interest names stored aircraft. *)
Lemma update_interest_sync_within (cfg : Config) (o : Oracle) (now : Q) (receiver : rid)
    (w : World) (r : Receiver.t) :
  sample_ok (sample o) → shuffle_ok (shuffle o) → registry_ok w →
  rx_heap w !! receiver = Some r →
  let w' := Tracker.update_interest cfg o now receiver w in
  ∃ r', rx_heap w' !! receiver = Some r'
    ∧ Receiver.mlat_interest r' ⊆ Receiver.tracking r
    ∧ ∀ a, a ∈ Receiver.sync_interest r' →
        a ∈ Receiver.tracking r ∨ ∃ icao, aircraft w !! icao = Some a.
Proof.
  intros Hok Hshf Hreg Hr w'.
  destruct (Receiver.last_rate_report r) as [report |] eqn:Hrep.
  - pose proof (update_interest_rate_commit cfg o now receiver w r report Hr Hrep) as Hc.
    cbv zeta in Hc. fold w' in Hc.
    destruct (collect_from_registry (λ _, True) cfg o now receiver w report Hreg)
      as [(_ & Hdom & Hl) Hadsb]; [auto |].
    set (out := foldl _ _ report) in *.
    eexists. split; [exact Hc |].
    cbn [Receiver.sync_interest Receiver.mlat_interest Receiver.set_interest].
    split; [destruct (Qltb 0 _); set_solver |].
    intros a Ha. apply (attenuated_subset cfg o _ _ Hok) in Ha.
    destruct (rate_aware_sync_spec cfg o out.1.1.1 (Receiver.tracking r) out.1.2 out.2 Hok)
      as (Hsub & _).
    apply Hsub in Ha. rewrite Hdom in Ha.
    assert (Hrep' : a ∈ out.1.1.2 → ∃ icao, aircraft w !! icao = Some a).
    { intros (icao & rate & _ & Hi)%Hadsb. eauto. }
    apply elem_of_union in Ha as [[Ha | Ha]%elem_of_union | Ha]; [| auto..].
    apply rounds_members in Ha as (p & Hp & <-); [| exact Hshf].
    right. apply Hrep', Hl, Hp.
  - pose proof (update_interest_legacy_commit cfg o now receiver w r Hr Hrep) as Hc.
    cbv zeta in Hc. fold w' in Hc.
    eexists. split; [exact Hc |].
    cbn [Receiver.sync_interest Receiver.mlat_interest Receiver.set_interest].
    split; [destruct (Qltb 0 _); set_solver |].
    intros a Ha. left.
    apply (attenuated_subset cfg o _ _ Hok) in Ha.
    apply (legacy_sync_subset cfg o _ Hok) in Ha. exact Ha.
Qed.

(** X15.  On a well-formed store, every aircraft of the sync interest
    that a run of the selector commits is stored and [interesting], and
    so is every aircraft of the committed MLAT interest that allows
    MLAT. *)
Theorem selected_aircraft_interesting (cfg : Config) (o : Oracle) (now : Q)
    (receiver : rid) (w : World) (r : Receiver.t) :
  sample_ok (sample o) → shuffle_ok (shuffle o) → store_ok w →
  rx_heap w !! receiver = Some r →
  let w' := Tracker.update_interest cfg o now receiver w in
  ∃ r', rx_heap w' !! receiver = Some r'
    ∧ ∀ a, a ∈ Receiver.sync_interest r' ∪ Receiver.mlat_interest r' →
        ∃ ao, ac_heap w' !! a = Some ao
          ∧ (a ∈ Receiver.sync_interest r' ∨ TrackedAircraft.allow_mlat ao = true →
             TrackedAircraft.interesting ao = true).
Proof.
  intros Hok Hshf (Hsym & Hclosed & Hreg) Hr w'.
  destruct (update_interest_sync_within cfg o now receiver w r Hok Hshf Hreg Hr)
    as (r' & Hr' & Hmlat & Hsync).
  fold w' in Hr'. exists r'. split; [exact Hr' |].
  destruct (update_interest_frame_all cfg o now receiver w r Hr) as (_ & _ & Hsame & _).
  fold w' in Hsame.
  pose proof (update_interest_keeps_symmetry cfg o now receiver w Hsym) as Hsym'.
  fold w' in Hsym'.
  intros a Ha.
  assert (Hst : is_Some (ac_heap w !! a)).
  { apply elem_of_union in Ha as [Ha | Ha].
    - destruct (Hsync a Ha) as [Ht | (icao & Hi)].
      + apply (Hclosed receiver r a Hr). set_solver.
      + destruct (Hreg icao a Hi) as (ao & Hao & _). eauto.
    - apply (Hclosed receiver r a Hr). set_solver. }
  specialize (Hsame a). destruct Hst as [ao0 Hao0]. rewrite Hao0 in Hsame.
  destruct (ac_heap w' !! a) as [ao |] eqn:Hao; [| destruct Hsame].
  exists ao. split; [reflexivity |].
  destruct (proj1 (bipartite_symmetry_lookup w') Hsym' receiver r' a ao Hr' Hao)
    as (_ & M2 & M3 & _).
  unfold TrackedAircraft.interesting. intros [Hs | Hallow].
  - apply M2 in Hs. apply orb_true_iff. left. apply negb_true_iff.
    apply (proj2 (bool_decide_eq_false _)). set_solver.
  - apply elem_of_union in Ha as [Hs | Hm].
    + apply M2 in Hs. apply orb_true_iff. left. apply negb_true_iff.
      apply (proj2 (bool_decide_eq_false _)). set_solver.
    + apply M3 in Hm. apply orb_true_iff. right. rewrite Hallow. cbn [andb].
      apply negb_true_iff. apply (proj2 (bool_decide_eq_false _)). set_solver.
Qed.

(** ** The coordinator's tracking entry points *)

Lemma add_receiver_fields (cfg : Config) (o : Oracle) (now : Q) (receiver : rid)
    (icao_set : list Z) (w : World) (r : Receiver.t) :
  rx_heap w !! receiver = Some r →
  let w1 := Tracker.add cfg o now receiver icao_set w in
  ∃ r1, rx_heap w1 !! receiver = Some r1
    ∧ Receiver.last_rate_report r1 = Receiver.last_rate_report r
    ∧ Receiver.bad_syncs r1 = Receiver.bad_syncs r
    ∧ Receiver.tracking r ⊆ Receiver.tracking r1
    ∧ (size (Receiver.tracking r1) ≤ size (Receiver.tracking r) + length icao_set)%nat
    ∧ ∀ icao, icao ∈ icao_set →
        ∃ ac, aircraft w1 !! icao = Some ac ∧ ac ∈ Receiver.tracking r1.
Proof.
  unfold Tracker.add. revert w r.
  induction icao_set as [| x l IH]; intros w r Hr; cbn [foldl].
  - exists r. split; [exact Hr |]. split; [reflexivity |]. split; [reflexivity |].
    split; [reflexivity |]. split; [lia |]. intros icao []%elem_of_nil.
  - destruct (add_one_receiver cfg o now receiver w x r Hr) as (ac & Hac & Hr1).
    destruct (IH _ _ Hr1) as (r1 & Hr' & E1 & E2 & Hsub & Hsz & Hall).
    cbn [Receiver.last_rate_report Receiver.bad_syncs Receiver.tracking
         Receiver.set_tracking] in *.
    exists r1. split; [exact Hr' |]. split; [exact E1 |]. split; [exact E2 |].
    split; [set_solver |]. split.
    + assert (Hu : (size ({[ac]} ∪ Receiver.tracking r) ≤ S (size (Receiver.tracking r)))%nat).
      { rewrite size_union_alt, size_singleton.
        pose proof (subseteq_size (Receiver.tracking r ∖ {[ac]}) (Receiver.tracking r)
                      ltac:(set_solver)). lia. }
      cbn [length]. lia.
    + intros icao [-> | Hin]%elem_of_cons; [| apply Hall, Hin].
      exists ac. split; [| set_solver].
      clear -Hac. revert Hac.
      generalize (Tracker.add_one cfg o now receiver w x). intros w1.
      revert w1. induction l as [| y l IHl]; intros w1 Hac; [exact Hac |].
      cbn [foldl]. apply IHl, add_one_keeps_entries, Hac.
Qed.

(** X16.  [receiver_tracking_add] for a receiver without rate report and
    with [bad_syncs <= 2], when the tracking set stays within
    [MAX_SYNC_AC]: the receiver's sync interest becomes its whole tracking
    set, which holds the aircraft of every address of [icao_set]. *)
Theorem tracking_add_legacy_sync (cfg : Config) (o : Oracle) (now : Q) (receiver : rid)
    (icao_set : list Z) (w : World) (r : Receiver.t) :
  rx_heap w !! receiver = Some r → Receiver.last_rate_report r = None →
  ¬ (2 < Receiver.bad_syncs r)%Q →
  (size (Receiver.tracking r) + length icao_set ≤ MAX_SYNC_AC cfg)%nat →
  let w' := Coordinator.receiver_tracking_add cfg o now receiver icao_set w in
  ∃ r', rx_heap w' !! receiver = Some r'
    ∧ Receiver.tracking r ⊆ Receiver.tracking r'
    ∧ Receiver.sync_interest r' = Receiver.tracking r'
    ∧ ∀ icao, icao ∈ icao_set →
        ∃ ac, aircraft w' !! icao = Some ac ∧ ac ∈ Receiver.sync_interest r'.
Proof.
  intros Hr Hrep Hbad Hsize w'. unfold w', Coordinator.receiver_tracking_add.
  destruct (add_receiver_fields cfg o now receiver icao_set w r Hr)
    as (r1 & Hr1 & E1 & E2 & Hsub & Hsz & Hall).
  set (w1 := Tracker.add cfg o now receiver icao_set w) in *.
  rewrite Hrep in E1. unfold Coordinator.legacy_refresh. rewrite Hr1, E1.
  pose proof (update_interest_legacy_commit cfg o now receiver w1 r1 Hr1 E1) as Hc.
  cbv zeta in Hc.
  destruct (update_interest_frame_all cfg o now receiver w1 r1 Hr1) as (Ha & _).
  eexists. split; [exact Hc |]. rewrite Ha.
  cbn [Receiver.sync_interest Receiver.tracking Receiver.set_interest].
  assert (Hs : (if Qltb 2 (Receiver.bad_syncs r1)
                   && (MAX_SYNC_AC cfg
                       <? 4 * size (Tracker.legacy_sync cfg o (Receiver.tracking r1)))%nat
                then list_to_set
                       (sample o (elements (Tracker.legacy_sync cfg o (Receiver.tracking r1)))
                          (round_quarter (MAX_SYNC_AC cfg)))
                else Tracker.legacy_sync cfg o (Receiver.tracking r1))
               = Receiver.tracking r1).
  { destruct (Qltb 2 (Receiver.bad_syncs r1)) eqn:E;
      [apply Qltb_lt in E; rewrite E2 in E; contradiction |].
    cbn [andb]. unfold Tracker.legacy_sync.
    destruct (Nat.ltb_spec (MAX_SYNC_AC cfg) (size (Receiver.tracking r1))); [lia |].
    reflexivity. }
  rewrite Hs. split; [exact Hsub |]. split; [reflexivity | exact Hall].
Qed.

(** ** Connecting and disconnecting receivers *)

Import Connections.

Lemma probe_agree (fuel : nat) (m m' : gmap Z rid) (c : Z) :
  (∀ k, c ≤ k → m' !! k = m !! k) → probe fuel m' c = probe fuel m c.
Proof.
  revert c. induction fuel as [| fuel IH]; intros c H; [reflexivity |].
  cbn [probe]. rewrite (H c) by lia.
  destruct (bool_decide _); [| reflexivity]. apply IH. intros k Hk. apply H. lia.
Qed.

(** The loop over [uidCounter] ends at the first free uid from the
    counter on, within [len(receivers) + 1] iterations. *)
Lemma probe_spec (fuel : nat) (m : gmap Z rid) (c : Z) :
  (size m < fuel)%nat →
  m !! probe fuel m c = None ∧ c ≤ probe fuel m c
  ∧ ∀ k, c ≤ k < probe fuel m c → is_Some (m !! k).
Proof.
  revert m c. induction fuel as [| fuel IH]; intros m c Hsz; [lia |].
  cbn [probe]. destruct (bool_decide_reflect (is_Some (m !! c))) as [Hc | Hc].
  - rewrite <- (probe_agree fuel m (delete c m) (c + 1))
      by (intros k Hk; apply lookup_delete_ne; lia).
    destruct (IH (delete c m) (c + 1)) as (I1 & I2 & I3).
    { rewrite map_size_delete_Some by exact Hc.
      assert (size m ≠ 0%nat) by (eapply map_size_ne_0_lookup_2, Hc). lia. }
    set (u := probe fuel (delete c m) (c + 1)) in *.
    split; [rewrite lookup_delete_ne in I1 by lia; exact I1 |]. split; [lia |].
    intros k Hk. destruct (decide (k = c)) as [-> | Hne]; [exact Hc |].
    specialize (I3 k ltac:(lia)). rewrite lookup_delete_ne in I3 by lia. exact I3.
  - split; [apply eq_None_not_Some, Hc |]. split; [lia |]. intros k Hk. lia.
Qed.

Lemma distance_step_frame ed (receiver : rid) (c : Coord) (o : rid) :
  let c' := distance_step ed receiver c o in
  world c' = world c ∧ uidCounter c' = uidCounter c ∧ usernames c' = usernames c
  ∧ ∀ rx, position <$> stations c' !! rx = position <$> stations c !! rx
          ∧ position_llh <$> stations c' !! rx = position_llh <$> stations c !! rx.
Proof.
  unfold distance_step.
  destruct (rx_heap (world c) !! receiver), (stations c !! receiver),
    (rx_heap (world c) !! o), (stations c !! o); cbn; auto.
  split; [reflexivity |]. split; [reflexivity |]. split; [reflexivity |].
  intros rx.
  destruct (decide (rx = o)) as [E1 | H1], (decide (rx = receiver)) as [E2 | H2];
    subst;
    rewrite ?lookup_alter_eq, ?lookup_alter_ne, ?lookup_alter_eq by auto;
    destruct (stations c !! _); split; reflexivity.
Qed.

Lemma distances_frame ed (receiver : rid) (l : list rid) (c : Coord) :
  let c' := foldl (distance_step ed receiver) c l in
  world c' = world c ∧ uidCounter c' = uidCounter c ∧ usernames c' = usernames c
  ∧ ∀ rx, position <$> stations c' !! rx = position <$> stations c !! rx
          ∧ position_llh <$> stations c' !! rx = position_llh <$> stations c !! rx.
Proof.
  revert c. induction l as [| o l IH]; intros c; cbn [foldl].
  - cbv zeta. auto.
  - destruct (IH (distance_step ed receiver c o)) as (I1 & I2 & I3 & I4).
    destruct (distance_step_frame ed receiver c o) as (S1 & S2 & S3 & S4).
    cbv zeta. rewrite I1, I2, I3.
    split; [exact S1 |]. split; [exact S2 |]. split; [exact S3 |].
    intros rx. rewrite (proj1 (I4 rx)), (proj2 (I4 rx)). apply S4.
Qed.

Lemma station_is_Some (c c' : Coord) (rx : rid) :
  position <$> stations c' !! rx = position <$> stations c !! rx →
  is_Some (stations c' !! rx) ↔ is_Some (stations c !! rx).
Proof.
  destruct (stations c' !! rx), (stations c !! rx); cbn; intros H;
    try discriminate; split; intros [? ?]; try discriminate; eauto.
Qed.

Lemma distance_step_lookup ed (receiver : rid) (c : Coord) (o : rid)
    (r r2 : Receiver.t) (d : Q) :
  rx_heap (world c) !! receiver = Some r → rx_heap (world c) !! o = Some r2 →
  expected_distance ed c receiver o = Some d →
  ∀ rx u, distance_to (distance_step ed receiver c o) rx u
          = if decide (rx = o ∧ u = Receiver.uid r) then Some d
            else if decide (rx = receiver ∧ u = Receiver.uid r2) then Some d
            else distance_to c rx u.
Proof.
  intros Hr Ho Hd rx u. unfold distance_step, expected_distance in *. rewrite Hr, Ho.
  destruct (stations c !! receiver) as [s |] eqn:Hs; [| discriminate].
  destruct (stations c !! o) as [s2 |] eqn:Hs2; [| discriminate].
  cbn in Hd. injection Hd as Hd. rewrite Hd.
  unfold distance_to. cbn [stations set_stations].
  destruct (decide (rx = o)) as [-> | H1].
  - rewrite lookup_alter_eq.
    destruct (decide (o = receiver)) as [-> | H2].
    + rewrite lookup_alter_eq, Hs. cbn.
      assert (r2 = r) by congruence. subst r2.
      destruct (decide (u = Receiver.uid r)) as [-> | Hu].
      * rewrite decide_True by auto. apply lookup_insert_eq.
      * rewrite decide_False by tauto. rewrite decide_False by tauto.
        rewrite !lookup_insert_ne by auto. reflexivity.
    + rewrite lookup_alter_ne, Hs2 by auto. cbn.
      destruct (decide (u = Receiver.uid r)) as [-> | Hu].
      * rewrite decide_True by auto. apply lookup_insert_eq.
      * rewrite decide_False by tauto. rewrite decide_False by tauto.
        rewrite lookup_insert_ne by auto. reflexivity.
  - rewrite lookup_alter_ne by auto. rewrite decide_False by tauto.
    destruct (decide (rx = receiver)) as [-> | H2].
    + rewrite lookup_alter_eq, Hs. cbn.
      destruct (decide (u = Receiver.uid r2)) as [-> | Hu].
      * rewrite decide_True by auto. apply lookup_insert_eq.
      * rewrite decide_False by tauto. rewrite lookup_insert_ne by auto. reflexivity.
    + rewrite lookup_alter_ne by auto. rewrite decide_False by tauto. reflexivity.
Qed.

Lemma expected_distance_frame ed (c c' : Coord) (a b : rid) :
  (∀ rx, position <$> stations c' !! rx = position <$> stations c !! rx) →
  expected_distance ed c' a b = expected_distance ed c a b.
Proof.
  intros H. unfold expected_distance.
  pose proof (H a) as Ha. pose proof (H b) as Hb.
  destruct (stations c' !! a), (stations c !! a); cbn in Ha; try discriminate;
    [| reflexivity].
  destruct (stations c' !! b), (stations c !! b); cbn in Hb; try discriminate;
    [| reflexivity].
  injection Ha as Ha. injection Hb as Hb. cbn. rewrite Ha, Hb. reflexivity.
Qed.

(** [_compute_interstation_distances] over the receivers [l]: the
    receiver and each of them hold the distance under each other's uid,
    and no other entry changes. *)
Lemma distances_lookup ed (receiver : rid) (l : list rid) (c : Coord) (r : Receiver.t) :
  rx_heap (world c) !! receiver = Some r →
  is_Some (stations c !! receiver) →
  (∀ o, o ∈ l → is_Some (rx_heap (world c) !! o) ∧ is_Some (stations c !! o)) →
  (∀ o1 o2, o1 ∈ receiver :: l → o2 ∈ receiver :: l →
     uid_of c o1 = uid_of c o2 → o1 = o2) →
  let c' := foldl (distance_step ed receiver) c l in
  (∀ o, o ∈ l →
     ∃ u d, uid_of c o = Some u ∧ expected_distance ed c receiver o = Some d
       ∧ distance_to c' receiver u = Some d
       ∧ distance_to c' o (Receiver.uid r) = Some d)
  ∧ (∀ rx u, ¬ (rx = receiver ∧ ∃ o, o ∈ l ∧ uid_of c o = Some u) →
             ¬ (rx ∈ l ∧ u = Receiver.uid r) →
             distance_to c' rx u = distance_to c rx u).
Proof.
  intros Hr Hs. induction l as [| x l IH] using rev_ind; intros Hl Hinj.
  - cbn. split; [intros o []%elem_of_nil | auto].
  - destruct IH as [IH1 IH2].
    { intros o Ho. apply Hl, elem_of_app. auto. }
    { intros o1 o2 H1 H2. apply Hinj.
      - apply elem_of_cons in H1 as [-> | H1]; [apply list_elem_of_here |].
        apply list_elem_of_further, elem_of_app. auto.
      - apply elem_of_cons in H2 as [-> | H2]; [apply list_elem_of_here |].
        apply list_elem_of_further, elem_of_app. auto. }
    cbv zeta. rewrite foldl_app. cbn [foldl].
    set (cl := foldl (distance_step ed receiver) c l) in *.
    destruct (distances_frame ed receiver l c) as (F1 & _ & _ & F4). fold cl in F1, F4.
    destruct (Hl x) as [[r2 Hx] [s2 Hs2]]; [apply elem_of_app; right; apply list_elem_of_here |].
    destruct Hs as [s Hs].
    assert (Hd : ∃ d, expected_distance ed c receiver x = Some d).
    { unfold expected_distance. rewrite Hs, Hs2. cbn. eauto. }
    destruct Hd as [dx Hdx].
    assert (Hstep : ∀ rx u, distance_to (distance_step ed receiver cl x) rx u
              = if decide (rx = x ∧ u = Receiver.uid r) then Some dx
                else if decide (rx = receiver ∧ u = Receiver.uid r2) then Some dx
                else distance_to cl rx u).
    { apply distance_step_lookup; rewrite ?F1; try assumption.
      rewrite (expected_distance_frame ed c cl) by (intros rx; apply F4). exact Hdx. }
    assert (Hux : uid_of c x = Some (Receiver.uid r2)) by (unfold uid_of; rewrite Hx; reflexivity).
    assert (Hur : uid_of c receiver = Some (Receiver.uid r))
      by (unfold uid_of; rewrite Hr; reflexivity).
    assert (Hxin : x ∈ receiver :: l ++ [x]).
    { apply list_elem_of_further, elem_of_app. right. apply list_elem_of_here. }
    assert (Hrin : receiver ∈ receiver :: l ++ [x]) by apply list_elem_of_here.
    split.
    + intros o [Ho | ->%list_elem_of_singleton]%elem_of_app.
      * destruct (IH1 o Ho) as (u & d & Hu & Hd & D1 & D2).
        assert (Hoin : o ∈ receiver :: l ++ [x]).
        { apply list_elem_of_further, elem_of_app. auto. }
        exists u, d. split; [exact Hu |]. split; [exact Hd |].
        rewrite !Hstep. split.
        -- destruct (decide (receiver = x ∧ u = Receiver.uid r)) as [[E1 E2] | _].
           { assert (o = receiver) by (apply Hinj; auto; congruence).
             subst. congruence. }
           destruct (decide (receiver = receiver ∧ u = Receiver.uid r2)) as [[_ E2] | _];
             [| exact D1].
           assert (o = x) by (apply Hinj; auto; congruence). subst. congruence.
        -- destruct (decide (o = x ∧ Receiver.uid r = Receiver.uid r)) as [[E1 _] | _];
             [subst; congruence |].
           destruct (decide (o = receiver ∧ Receiver.uid r = Receiver.uid r2))
             as [[E1 E2] | _]; [| exact D2].
           assert (x = receiver) by (apply Hinj; auto; congruence). subst. congruence.
      * exists (Receiver.uid r2), dx. split; [exact Hux |]. split; [exact Hdx |].
        rewrite !Hstep. split.
        -- destruct (decide (receiver = x ∧ _)); [reflexivity |].
           rewrite decide_True by auto. reflexivity.
        -- rewrite decide_True by auto. reflexivity.
    + intros rx u N1 N2. rewrite Hstep.
      rewrite decide_False.
      2:{ intros [-> ->]. apply N2. split; [| reflexivity].
          apply elem_of_app. right. apply list_elem_of_here. }
      rewrite decide_False.
      2:{ intros [-> ->]. apply N1. split; [reflexivity |]. exists x. split; [| exact Hux].
          apply elem_of_app. right. apply list_elem_of_here. }
      apply IH2.
      * intros [-> (o & Ho & Hu)]. apply N1. split; [reflexivity |].
        exists o. split; [apply elem_of_app; auto | exact Hu].
      * intros [Hin ->]. apply N2. split; [apply elem_of_app; auto | reflexivity].
Qed.

Lemma values_of_receivers (c : Coord) (o : rid) :
  o ∈ (map_to_list (receivers (world c))).*2 ↔ ∃ u, receivers (world c) !! u = Some o.
Proof.
  rewrite list_elem_of_fmap. split.
  - intros ([u o'] & -> & H%elem_of_map_to_list). eauto.
  - intros [u H]. exists (u, o). split; [reflexivity | apply elem_of_map_to_list, H].
Qed.

(** The state in which [new_receiver] runs [_compute_interstation_distances]
    and what it registers then. *)
Lemma new_receiver_unfold llh2ecef ed authenticator (mono : Q) (user : string)
    (position_llh : llh) (c : Coord) :
  usernames c !! user = None → accepting authenticator →
  let start := if 4611686018427387904 <? uidCounter c then 0 else uidCounter c in
  let uid := probe (S (size (receivers (world c)))) (receivers (world c)) start in
  let rx := fresh (dom (rx_heap (world c)) ∪ dom (stations c)) in
  ∃ r s,
    Receiver.uid r = uid ∧ Receiver.user r = user
    ∧ (authenticator = None →
       r = Receiver.init uid user mono
       ∧ s = {| position_llh := position_llh; position := llh2ecef position_llh;
                distance := ∅ |})
    ∧ let c3 := set_stations (<[rx := s]>)
                  (set_world (set_rx_heap (<[rx := r]>)) (set_uidCounter uid c)) in
      new_receiver llh2ecef ed authenticator mono user position_llh c
      = Done rx (set_usernames (<[user := rx]>)
                   (set_world (set_receivers (<[uid := rx]>))
                      (_compute_interstation_distances ed rx c3))).
Proof.
  intros Huser Hauth start uid rx. unfold new_receiver.
  rewrite bool_decide_eq_false_2 by (rewrite Huser; apply is_Some_None).
  assert (Hc1 : (if 4611686018427387904 <? uidCounter c then set_uidCounter 0 c else c)
                = set_uidCounter start c).
  { unfold start. destruct (4611686018427387904 <? uidCounter c); [reflexivity |].
    destruct c; reflexivity. }
  rewrite Hc1. cbv zeta. cbn [world uidCounter stations set_uidCounter]. fold uid rx.
  destruct authenticator as [f |].
  - destruct (Hauth f eq_refl (Receiver.init uid user mono)
                {| position_llh := position_llh; position := llh2ecef position_llh;
                   distance := ∅ |}) as (r' & s' & Hf & E1 & E2).
    rewrite Hf. exists r', s'. split; [exact E1 |]. split; [exact E2 |].
    split; [discriminate |]. rewrite E1, E2. reflexivity.
  - exists (Receiver.init uid user mono),
      {| position_llh := position_llh; position := llh2ecef position_llh;
         distance := ∅ |}.
    split; [reflexivity |]. split; [reflexivity |]. split; [auto |]. reflexivity.
Qed.

Lemma new_receiver_spec llh2ecef ed authenticator (mono : Q) (user : string)
    (position_llh : llh) (c : Coord) :
  coord_ok c → usernames c !! user = None → accepting authenticator →
  ∃ rx c' r,
    new_receiver llh2ecef ed authenticator mono user position_llh c = Done rx c'
    ∧ rx_heap (world c) !! rx = None
    ∧ rx_heap (world c') !! rx = Some r ∧ Receiver.user r = user
    ∧ receivers (world c) !! Receiver.uid r = None
    ∧ uidCounter c' = Receiver.uid r
    ∧ receivers (world c') = <[Receiver.uid r := rx]> (receivers (world c))
    ∧ usernames c' = <[user := rx]> (usernames c)
    ∧ (∀ o, o ≠ rx → rx_heap (world c') !! o = rx_heap (world c) !! o)
    ∧ coord_ok c'
    ∧ aircraft (world c') = aircraft (world c) ∧ ac_heap (world c') = ac_heap (world c)
    ∧ (authenticator = None → r = Receiver.init (Receiver.uid r) user mono).
Proof.
  intros [Hok1 Hok2] Huser Hauth.
  destruct (new_receiver_unfold llh2ecef ed authenticator mono user position_llh c
              Huser Hauth) as (r & s & Huid & Hus & Hinit & Hnew).
  cbv zeta in Hnew, Huid.
  set (start := if 4611686018427387904 <? uidCounter c then 0 else uidCounter c) in *.
  set (uid := probe _ _ start) in *.
  set (rx := fresh (dom (rx_heap (world c)) ∪ dom (stations c))) in *.
  set (c3 := set_stations _ _) in Hnew.
  destruct (probe_spec (S (size (receivers (world c)))) (receivers (world c)) start
              ltac:(lia)) as (Hfree & _). fold uid in Hfree.
  assert (Hfresh : rx ∉ dom (rx_heap (world c)) ∪ dom (stations c)) by apply is_fresh.
  assert (Hrx : rx_heap (world c) !! rx = None).
  { apply not_elem_of_dom. set_solver. }
  destruct (distances_frame ed rx (map_to_list (receivers (world c3))).*2 c3)
    as (F1 & F2 & F3 & F4).
  fold (_compute_interstation_distances ed rx c3) in F1, F2, F3, F4.
  set (c4 := _compute_interstation_distances ed rx c3) in *.
  set (c' := set_usernames _ _) in Hnew.
  assert (Hw : world c' = set_receivers (<[uid := rx]>)
                            (set_rx_heap (<[rx := r]>) (world c))).
  { unfold c'. cbn [world set_usernames set_world]. rewrite F1. reflexivity. }
  assert (Hun : usernames c' = <[user := rx]> (usernames c)).
  { unfold c'. cbn [usernames set_usernames set_world]. rewrite F3. reflexivity. }
  assert (Hst : ∀ o, is_Some (stations c' !! o) ↔ is_Some (<[rx := s]> (stations c) !! o)).
  { intros o. unfold c'. cbn [stations set_usernames set_world].
    apply (station_is_Some c3 c4), F4. }
  exists rx, c', r. split; [exact Hnew |].
  rewrite Hw, Hun. cbn [receivers rx_heap set_receivers set_rx_heap]. rewrite Huid.
  split; [exact Hrx |]. split; [apply lookup_insert_eq |]. split; [exact Hus |].
  split; [exact Hfree |].
  split; [unfold c'; cbn [uidCounter set_usernames set_world]; rewrite F2; reflexivity |].
  split; [reflexivity |]. split; [reflexivity |].
  split; [intros o Ho; apply lookup_insert_ne; auto |].
  assert (Hok' : coord_ok c'); [| split; [exact Hok' |]; split; [reflexivity |];
    split; [reflexivity |]; intros Hn; apply (Hinit Hn)].
  split.
  - intros u o Hu. rewrite Hw, Hun in *.
    cbn [receivers rx_heap set_receivers set_rx_heap] in *.
    apply lookup_insert_Some in Hu as [[<- <-] | [Hne Hu]].
    + exists r. rewrite lookup_insert_eq, Hus, lookup_insert_eq.
      split; [reflexivity |]. split; [exact Huid |]. split; [reflexivity |].
      apply Hst. rewrite lookup_insert_eq. eauto.
    + destruct (Hok1 u o Hu) as (r0 & Hr0 & E1 & E2 & E3).
      assert (o ≠ rx) by congruence.
      exists r0. rewrite lookup_insert_ne by auto.
      split; [exact Hr0 |]. split; [exact E1 |]. split.
      * rewrite lookup_insert_ne by congruence. exact E2.
      * apply Hst. rewrite lookup_insert_ne by auto. exact E3.
  - intros u o Hu. rewrite Hw, Hun in *.
    cbn [receivers rx_heap set_receivers set_rx_heap] in *.
    apply lookup_insert_Some in Hu as [[<- <-] | [Hne Hu]].
    + exists r. rewrite lookup_insert_eq, Huid, lookup_insert_eq. auto.
    + destruct (Hok2 u o Hu) as (r0 & Hr0 & E1 & E2).
      assert (o ≠ rx) by congruence.
      exists r0. rewrite !lookup_insert_ne by congruence. auto.
Qed.


(** X18.  When [new_receiver] raises, for a user that is connected
    already or from the authenticator, the store, the receiver objects
    and the two registries are as they were; [uidCounter] may have moved,
    but not when the user was connected already. *)
Theorem new_receiver_failure llh2ecef ed authenticator (mono : Q) (user : string)
    (position_llh : llh) (c : Coord) (e : error) (c' : Coord) :
  new_receiver llh2ecef ed authenticator mono user position_llh c = Failed e c' →
  world c' = world c ∧ stations c' = stations c
  ∧ usernames c' = usernames c
  ∧ (is_Some (usernames c !! user) → uidCounter c' = uidCounter c).
Proof.
  unfold new_receiver.
  destruct (bool_decide_reflect (is_Some (usernames c !! user))) as [Hu | Hu].
  { intros [= <- <-]. auto. }
  cbv zeta.
  destruct (match authenticator with Some f => f _ | None => _ end) as [[r s] |];
    [discriminate |].
  intros [= <- <-].
  destruct (4611686018427387904 <? uidCounter c); cbn; tauto.
Qed.

Lemma coord_ok_connected (c : Coord) (u : Z) (o : rid) :
  coord_ok c → receivers (world c) !! u = Some o →
  ∃ r s, rx_heap (world c) !! o = Some r ∧ Receiver.uid r = u
    ∧ stations c !! o = Some s ∧ uid_of c o = Some u.
Proof.
  intros [Hok _] Hu. destruct (Hok u o Hu) as (r & Hr & E1 & _ & [s Hs]).
  exists r, s. unfold uid_of. rewrite Hr. cbn. rewrite E1. auto.
Qed.

Lemma distance_to_stations (c c' : Coord) :
  stations c' = stations c → ∀ o u, distance_to c' o u = distance_to c o u.
Proof. intros H o u. unfold distance_to. rewrite H. reflexivity. Qed.

(** X19.  [new_receiver] without authenticator: the new receiver and
    every receiver that was connected hold the distance between their
    positions under each other's uid; the new receiver holds no distance
    for its own uid, and no other entry of a distance table changes. *)
Theorem new_receiver_distances llh2ecef ed (mono : Q) (user : string)
    (position_llh : llh) (c : Coord) :
  coord_ok c → usernames c !! user = None →
  ∃ rx c',
    new_receiver llh2ecef ed None mono user position_llh c = Done rx c'
    ∧ (∀ u o, receivers (world c) !! u = Some o →
         ∃ s, stations c !! o = Some s
           ∧ distance_to c' rx u = Some (ed (llh2ecef position_llh) (position s))
           ∧ distance_to c' o (uidCounter c')
             = Some (ed (llh2ecef position_llh) (position s)))
    ∧ distance_to c' rx (uidCounter c') = None
    ∧ (∀ o u, o ≠ rx → u ≠ uidCounter c' → distance_to c' o u = distance_to c o u).
Proof.
  intros Hok Huser.
  destruct (new_receiver_unfold llh2ecef ed None mono user position_llh c Huser)
    as (r & s & Huid & Hus & Hinit & Hnew); [intros f [=] |].
  destruct (Hinit eq_refl) as [_ Hs]. clear Hinit.
  cbv zeta in Hnew, Huid.
  set (start := if 4611686018427387904 <? uidCounter c then 0 else uidCounter c) in *.
  set (uid := probe _ _ start) in *.
  set (rx := fresh (dom (rx_heap (world c)) ∪ dom (stations c))) in *.
  set (c3 := set_stations _ _) in Hnew.
  destruct (probe_spec (S (size (receivers (world c)))) (receivers (world c)) start
              ltac:(lia)) as (Hfree & _). fold uid in Hfree.
  assert (Hfresh : rx ∉ dom (rx_heap (world c)) ∪ dom (stations c)) by apply is_fresh.
  assert (Hrx : rx_heap (world c) !! rx = None) by (apply not_elem_of_dom; set_solver).
  assert (Hsx : stations c !! rx = None) by (apply not_elem_of_dom; set_solver).
  set (l := (map_to_list (receivers (world c3))).*2).
  assert (Hl : ∀ o, o ∈ l ↔ ∃ u, receivers (world c) !! u = Some o).
  { intros o. unfold l. rewrite values_of_receivers. reflexivity. }
  assert (Hold : ∀ o, o ∈ l → o ≠ rx).
  { intros o [u Hu]%Hl ->. destruct (coord_ok_connected c u rx Hok Hu) as (? & ? & ? & _).
    congruence. }
  assert (Hu3 : ∀ o, o ≠ rx → uid_of c3 o = uid_of c o).
  { intros o Ho. unfold uid_of, c3. cbn. rewrite lookup_insert_ne by auto. reflexivity. }
  assert (Hux : uid_of c3 rx = Some uid).
  { unfold uid_of, c3. cbn. rewrite lookup_insert_eq. cbn. rewrite Huid. reflexivity. }
  destruct (distances_lookup ed rx l c3 r) as [D1 D2].
  { unfold c3. cbn. apply lookup_insert_eq. }
  { unfold c3. cbn. rewrite lookup_insert_eq. eauto. }
  { intros o Ho. pose proof (Hold o Ho) as Hne. apply Hl in Ho as [u Hu].
    destruct (coord_ok_connected c u o Hok Hu) as (r0 & s0 & Hr0 & _ & Hs0 & _).
    unfold c3. cbn. rewrite !lookup_insert_ne by auto. rewrite Hr0, Hs0. eauto. }
  { assert (Hkey : ∀ o, o ∈ l → ∃ u, receivers (world c) !! u = Some o
                                   ∧ uid_of c3 o = Some u).
    { intros o Ho. pose proof (Hold o Ho) as Hne. apply Hl in Ho as [u Hu].
      destruct (coord_ok_connected c u o Hok Hu) as (_ & _ & _ & _ & _ & Huo).
      exists u. rewrite Hu3 by exact Hne. auto. }
    intros o1 o2 [-> | H1]%elem_of_cons [-> | H2]%elem_of_cons E; [reflexivity | | |].
    - destruct (Hkey o2 H2) as (u & Hu & Hu'). rewrite Hux, Hu' in E. congruence.
    - destruct (Hkey o1 H1) as (u & Hu & Hu'). rewrite Hux, Hu' in E. congruence.
    - destruct (Hkey o1 H1) as (u1 & Hu1 & Hu1'), (Hkey o2 H2) as (u2 & Hu2 & Hu2').
      rewrite Hu1', Hu2' in E. congruence. }
  change (foldl (distance_step ed rx) c3 l)
    with (_compute_interstation_distances ed rx c3) in D1, D2.
  set (c4 := _compute_interstation_distances ed rx c3) in *.
  assert (F2 : uidCounter c4 = uidCounter c3) by apply (distances_frame ed rx l c3).
  set (c' := set_usernames _ _) in Hnew.
  assert (Hd : ∀ o u, distance_to c' o u = distance_to c4 o u)
    by (apply distance_to_stations; reflexivity).
  assert (Hc : uidCounter c' = uid).
  { unfold c'. cbn [uidCounter set_usernames set_world]. rewrite F2. reflexivity. }
  exists rx, c'. split; [exact Hnew |]. rewrite Hc. split; [| split].
  - intros u o Hu.
    destruct (coord_ok_connected c u o Hok Hu) as (r0 & s0 & Hr0 & _ & Hs0 & Huo).
    assert (Ho : o ∈ l) by (apply Hl; eauto).
    pose proof (Hold o Ho) as Hne.
    destruct (D1 o Ho) as (u' & d & Hu' & He & E1 & E2).
    rewrite Hu3, Huo in Hu' by exact Hne. injection Hu' as <-.
    unfold expected_distance, c3 in He. cbn in He.
    rewrite lookup_insert_eq, lookup_insert_ne, Hs0 in He by auto. cbn in He.
    rewrite bool_decide_eq_false_2 in He by exact Hne. injection He as <-.
    rewrite Hs in E1, E2. cbn [position] in E1, E2.
    exists s0. rewrite !Hd, <- Huid. auto.
  - rewrite Hd, D2.
    + unfold distance_to, c3. cbn. rewrite lookup_insert_eq, Hs. cbn. apply lookup_empty.
    + intros [_ (o & Ho & Huo)]. pose proof (Hold o Ho) as Hne.
      rewrite Hu3 in Huo by exact Hne. apply Hl in Ho as [u Hu].
      destruct (coord_ok_connected c u o Hok Hu) as (_ & _ & _ & _ & _ & Huo').
      congruence.
    + intros [Hin _]. exact (Hold rx Hin eq_refl).
  - intros o u Ho Hu. rewrite Hd, D2.
    + unfold distance_to, c3. cbn. rewrite lookup_insert_ne by auto. reflexivity.
    + intros [-> _]. congruence.
    + intros [_ ->]. congruence.
Qed.

(** X20.  [receiver_location_update] of a connected receiver: the
    registries and the receiver objects of the store stay, the receiver
    has the new position and distance [0] under its own uid, it and every
    other connected receiver hold the distance between the new position
    and the other's position under each other's uid, and no other entry
    of a distance table changes. *)
Theorem location_update_distances llh2ecef ed (rx : rid) (position_llh : llh)
    (c : Coord) (u : Z) :
  coord_ok c → receivers (world c) !! u = Some rx →
  let c' := receiver_location_update llh2ecef ed rx position_llh c in
  world c' = world c ∧ usernames c' = usernames c ∧ uidCounter c' = uidCounter c
  ∧ coord_ok c'
  ∧ position <$> stations c' !! rx = Some (llh2ecef position_llh)
  ∧ distance_to c' rx u = Some 0%Q
  ∧ (∀ u2 o, receivers (world c) !! u2 = Some o → o ≠ rx →
       ∃ s, stations c !! o = Some s
         ∧ position <$> stations c' !! o = Some (position s)
         ∧ distance_to c' rx u2 = Some (ed (llh2ecef position_llh) (position s))
         ∧ distance_to c' o u = Some (ed (llh2ecef position_llh) (position s)))
  ∧ (∀ o u2, o ≠ rx → u2 ≠ u → distance_to c' o u2 = distance_to c o u2).
Proof.
  intros Hok Hrx c'. unfold c', receiver_location_update. cbv zeta.
  set (c1 := set_stations (alter (set_position position_llh (llh2ecef position_llh)) rx) c).
  destruct (coord_ok_connected c u rx Hok Hrx) as (r & s & Hr & Hur & Hs & Huid).
  set (l := (map_to_list (receivers (world c1))).*2).
  assert (Hl : ∀ o, o ∈ l ↔ ∃ u, receivers (world c) !! u = Some o).
  { intros o. unfold l. rewrite values_of_receivers. reflexivity. }
  assert (Hs1 : stations c1 !! rx
                = Some (set_position position_llh (llh2ecef position_llh) s)).
  { unfold c1. cbn. rewrite lookup_alter_eq, Hs. reflexivity. }
  assert (Hso : ∀ o, o ≠ rx → stations c1 !! o = stations c !! o).
  { intros o Ho. unfold c1. cbn. apply lookup_alter_ne. auto. }
  destruct (distances_frame ed rx l c1) as (F1 & F2 & F3 & F4).
  destruct (distances_lookup ed rx l c1 r) as [D1 D2].
  { exact Hr. }
  { rewrite Hs1. eauto. }
  { intros o [u2 Hu2]%Hl.
    destruct (coord_ok_connected c u2 o Hok Hu2) as (r0 & s0 & Hr0 & _ & Hs0 & _).
    split; [change (world c1) with (world c); eauto |].
    destruct (decide (o = rx)) as [-> | Hne]; [rewrite Hs1; eauto |].
    rewrite Hso, Hs0 by auto. eauto. }
  { assert (Hkey : ∀ o, o ∈ rx :: l → ∃ u, receivers (world c) !! u = Some o
                                        ∧ uid_of c1 o = Some u).
    { intros o Ho.
      assert (∃ u, receivers (world c) !! u = Some o) as [u2 Hu2].
      { apply elem_of_cons in Ho as [-> | Ho]; [eauto | apply Hl, Ho]. }
      destruct (coord_ok_connected c u2 o Hok Hu2) as (_ & _ & _ & _ & _ & Huo).
      eauto. }
    intros o1 o2 H1 H2 E.
    destruct (Hkey o1 H1) as (u1 & Hu1 & Hu1'), (Hkey o2 H2) as (u2 & Hu2 & Hu2').
    rewrite Hu1', Hu2' in E. congruence. }
  change (foldl (distance_step ed rx) c1 l)
    with (_compute_interstation_distances ed rx c1) in *.
  set (c4 := _compute_interstation_distances ed rx c1) in *.
  assert (Hrin : rx ∈ l) by (apply Hl; eauto).
  split; [exact F1 |]. split; [exact F3 |]. split; [exact F2 |]. split; [| split; [| split]].
  - destruct Hok as [Hok1 Hok2]. split.
    + intros u2 o Hu2. rewrite F1, F3 in *. change (world c1) with (world c) in *.
      destruct (Hok1 u2 o Hu2) as (r0 & Hr0 & E1 & E2 & E3).
      exists r0. repeat split; try assumption.
      apply (proj2 (station_is_Some c1 c4 o (proj1 (F4 o)))).
      destruct (decide (o = rx)) as [-> | Hne]; [rewrite Hs1; eauto |].
      rewrite Hso by auto. exact E3.
    + intros u2 o Hu2. rewrite F1, F3 in *. exact (Hok2 u2 o Hu2).
  - rewrite (proj1 (F4 rx)), Hs1. reflexivity.
  - destruct (D1 rx Hrin) as (u' & d & Hu' & He & E1 & _).
    change (uid_of c1 rx) with (uid_of c rx) in Hu'. rewrite Huid in Hu'.
    injection Hu' as <-.
    unfold expected_distance in He. rewrite Hs1 in He. cbn in He.
    rewrite bool_decide_eq_true_2 in He by reflexivity. injection He as <-. exact E1.
  - split.
    + intros u2 o Hu2 Hne.
      destruct (coord_ok_connected c u2 o Hok Hu2) as (r0 & s0 & Hr0 & _ & Hs0 & Huo).
      assert (Ho : o ∈ l) by (apply Hl; eauto).
      destruct (D1 o Ho) as (u' & d & Hu' & He & E1 & E2).
      change (uid_of c1 o) with (uid_of c o) in Hu'. rewrite Huo in Hu'.
      injection Hu' as <-.
      unfold expected_distance in He. rewrite Hs1, Hso, Hs0 in He by auto. cbn in He.
      rewrite bool_decide_eq_false_2 in He by exact Hne. injection He as <-.
      exists s0. rewrite (proj1 (F4 o)), Hso, Hs0, <- Hur by auto. auto.
    + intros o u2 Ho Hu2. rewrite D2.
      * unfold distance_to. rewrite Hso by auto. reflexivity.
      * intros [-> _]. congruence.
      * intros [_ ->]. congruence.
Qed.

Lemma remove_all_loop_frame (r : rid) (l : list aid) (w w' : World) :
  Tracker.remove_all_loop r l w = Returned w' →
  rx_heap w' = rx_heap w ∧ receivers w' = receivers w.
Proof.
  revert w. induction l as [| x l IH]; intros w; cbn [Tracker.remove_all_loop].
  - intros [= <-]. auto.
  - destruct (Tracker.remove_all_one r x w) as [w1 | e w1] eqn:E; [| discriminate].
    intros H. destruct (IH w1 H) as [I1 I2]. rewrite I1, I2.
    unfold Tracker.remove_all_one in E.
    destruct (ac_heap _ !! x) as [a |]; [| injection E as <-; auto].
    destruct (bool_decide _); [| injection E as <-; auto].
    destruct (aircraft _ !! _); [injection E as <-; auto | discriminate].
Qed.

Lemma remove_all_loop_raises (r : rid) (l : list aid) (w w' : World) (e : exn) :
  Tracker.remove_all_loop r l w = Raised e w' →
  e = KeyError ∧ rx_heap w' = rx_heap w ∧ receivers w' = receivers w.
Proof.
  revert w. induction l as [| x l IH]; intros w; cbn [Tracker.remove_all_loop];
    [discriminate |].
  assert (Hone : ∀ o, Tracker.remove_all_one r x w = o →
            rx_heap (state_of o) = rx_heap w ∧ receivers (state_of o) = receivers w
            ∧ ∀ e1 w1, o = Raised e1 w1 → e1 = KeyError).
  { intros o <-. unfold Tracker.remove_all_one.
    destruct (ac_heap _ !! x) as [a |]; [| cbn; split; [| split]; auto; discriminate].
    destruct (bool_decide _); [| cbn; split; [| split]; auto; discriminate].
    destruct (aircraft _ !! _); cbn; split; try split; auto; try discriminate.
    intros e1 w1 [= <- _]. reflexivity. }
  destruct (Tracker.remove_all_one r x w) as [w1 | e1 w1] eqn:E.
  - destruct (Hone _ eq_refl) as (H1 & H2 & _). cbn in H1, H2.
    intros H. destruct (IH w1 H) as (I0 & I1 & I2). rewrite I1, I2. auto.
  - destruct (Hone _ eq_refl) as (H1 & H2 & H3). cbn in H1, H2.
    intros [= <- <-]. split; [eapply H3; reflexivity | auto].
Qed.

(** [Coordinator.receiver_disconnect] for a registered receiver: it
    returns exactly when [remove_all] does, with the uid released;
    [remove_all] raises nothing but [KeyError], and either way leaves the
    registry of receivers and the other receiver objects alone and the
    receiver marked dead. *)
Lemma disconnect_store (receiver : rid) (w : World) (r : Receiver.t) :
  rx_heap w !! receiver = Some r →
  is_Some (receivers w !! Receiver.uid r) →
  let ra := Tracker.remove_all receiver (upd_rx receiver (Receiver.set_dead true) w) in
  Coordinator.receiver_disconnect receiver w
  = match ra with
    | Returned w1 => Returned (set_receivers (delete (Receiver.uid r)) w1)
    | Raised e w1 => Raised e w1
    end
  ∧ (∀ e w1, ra = Raised e w1 → e = KeyError)
  ∧ receivers (state_of ra) = receivers w
  ∧ (∀ o, o ≠ receiver → rx_heap (state_of ra) !! o = rx_heap w !! o)
  ∧ ∃ r', rx_heap (state_of ra) !! receiver = Some r' ∧ Receiver.dead r' = true
      ∧ Receiver.uid r' = Receiver.uid r ∧ Receiver.user r' = Receiver.user r
      ∧ (∀ w1, ra = Returned w1 → Receiver.tracking r' = ∅).
Proof.
  intros Hr Hreg ra. unfold Coordinator.receiver_disconnect. cbv zeta. fold ra.
  set (w0 := upd_rx receiver (Receiver.set_dead true) w) in *.
  assert (Hr0 : rx_heap w0 !! receiver = Some (Receiver.set_dead true r)).
  { unfold w0. cbn. rewrite lookup_alter_eq, Hr. reflexivity. }
  assert (Ho0 : ∀ o, o ≠ receiver → rx_heap w0 !! o = rx_heap w !! o).
  { intros o Ho. unfold w0. cbn. apply lookup_alter_ne. auto. }
  assert (Hra : ra = match Tracker.remove_all_loop receiver
                             (elements (Receiver.tracking (Receiver.set_dead true r))) w0
                     with
                     | Returned w1 =>
                       Returned (upd_rx receiver
                                   (λ r, Receiver.set_interest ∅ ∅ ∅
                                           (Receiver.set_tracking (λ _, ∅) r)) w1)
                     | Raised e w1 => Raised e w1
                     end).
  { unfold ra, Tracker.remove_all. rewrite Hr0. reflexivity. }
  clearbody ra. subst ra.
  destruct (Tracker.remove_all_loop receiver _ w0) as [w1 | e w1] eqn:E.
  - destruct (remove_all_loop_frame _ _ _ _ E) as [H1 H2].
    cbn [state_of rx_heap receivers upd_rx set_rx_heap].
    rewrite H1, H2, lookup_alter_eq, Hr0.
    cbn [fmap option_fmap option_map Receiver.uid Receiver.set_interest
         Receiver.set_tracking Receiver.set_dead].
    change (receivers w0) with (receivers w).
    destruct Hreg as [x Hx]. rewrite Hx.
    split; [reflexivity |]. split; [discriminate |]. split; [reflexivity |]. split.
    + intros o Ho. rewrite lookup_alter_ne by auto. apply Ho0, Ho.
    + eexists. split; [reflexivity |]. auto.
  - destruct (remove_all_loop_raises _ _ _ _ _ E) as (-> & H1 & H2).
    cbn [state_of]. rewrite H1, H2.
    split; [reflexivity |]. split; [intros e w2 [= <- _]; reflexivity |].
    split; [reflexivity |]. split; [exact Ho0 |].
    rewrite Hr0. eexists. split; [reflexivity |].
    split; [reflexivity |]. split; [reflexivity |]. split; [reflexivity | discriminate].
Qed.

Lemma forget_distance_fold (uid : Z) (l : list rid) (c : Coord) :
  let c' := foldl (λ c other_receiver,
                     set_stations (alter (set_distance (delete uid)) other_receiver) c)
                  c l in
  world c' = world c ∧ usernames c' = usernames c ∧ uidCounter c' = uidCounter c
  ∧ (∀ o, is_Some (stations c' !! o) ↔ is_Some (stations c !! o))
  ∧ ∀ o u, distance_to c' o u
           = if decide (o ∈ l ∧ u = uid) then None else distance_to c o u.
Proof.
  revert c. induction l as [| x l IH]; intros c; cbn [foldl].
  - cbv zeta. split; [reflexivity |]. split; [reflexivity |]. split; [reflexivity |].
    split; [reflexivity |]. intros o u. rewrite decide_False; [reflexivity |].
    intros [[]%elem_of_nil _].
  - destruct (IH (set_stations (alter (set_distance (delete uid)) x) c))
      as (I1 & I2 & I3 & I4 & I5).
    cbv zeta. rewrite I1, I2, I3.
    split; [reflexivity |]. split; [reflexivity |]. split; [reflexivity |]. split.
    + intros o. rewrite I4. cbn [stations set_stations].
      destruct (decide (o = x)) as [-> | Hne];
        [rewrite lookup_alter_eq | rewrite lookup_alter_ne by auto; reflexivity].
      destruct (stations c !! x); cbn; split; intros [? ?]; try discriminate; eauto.
    + intros o u. rewrite I5.
      assert (Hone : distance_to (set_stations (alter (set_distance (delete uid)) x) c) o u
                     = if decide (o = x ∧ u = uid) then None else distance_to c o u).
      { unfold distance_to. cbn [stations set_stations].
        destruct (decide (o = x)) as [-> | Hne].
        - rewrite lookup_alter_eq. destruct (stations c !! x) as [s |]; cbn.
          + destruct (decide (u = uid)) as [-> | Hu].
            * rewrite decide_True by auto. apply lookup_delete_eq.
            * rewrite decide_False by tauto. apply lookup_delete_ne. auto.
          + destruct (decide _); reflexivity.
        - rewrite lookup_alter_ne by auto. rewrite decide_False by tauto. reflexivity. }
      rewrite Hone.
      destruct (decide (o ∈ l ∧ u = uid)) as [[H1 H2] | H1].
      * rewrite decide_True; [reflexivity |]. split; [apply list_elem_of_further, H1 | exact H2].
      * destruct (decide (o = x ∧ u = uid)) as [[-> ->] | H2].
        -- rewrite decide_True; [reflexivity |]. split; [apply list_elem_of_here | reflexivity].
        -- rewrite decide_False; [reflexivity |].
           intros [[-> | Hin]%elem_of_cons ->]; tauto.
Qed.

Lemma receiver_disconnect_spec (rx : rid) (c : Coord) (u : Z) (w1 : World) :
  coord_ok c → receivers (world c) !! u = Some rx →
  Tracker.remove_all rx (upd_rx rx (Receiver.set_dead true) (world c)) = Returned w1 →
  ∃ c' r',
    Connections.receiver_disconnect rx c = Done tt c'
    ∧ rx_heap (world c') !! rx = Some r' ∧ Receiver.dead r' = true
    ∧ receivers (world c') = delete u (receivers (world c))
    ∧ usernames c' = delete (Receiver.user r') (usernames c)
    ∧ (∀ u2 o, receivers (world c') !! u2 = Some o → distance_to c' o u = None)
    ∧ coord_ok c'
    ∧ world c' = set_receivers (delete u) w1
    ∧ Receiver.uid r' = u ∧ Receiver.tracking r' = ∅
    ∧ usernames c !! Receiver.user r' = Some rx.
Proof.
  intros Hok Hrx Hra.
  destruct (proj1 Hok u rx Hrx) as (r & Hr & Hur & Husr & Hst).
  destruct (disconnect_store rx (world c) r Hr)
    as (Hd & _ & Hrec & Hoth & r' & Hr' & Hdead & E1 & E2 & Htr); [rewrite Hur; eauto |].
  specialize (Htr w1 Hra).
  cbv zeta in Hd, Hrec, Hoth, Hr'. rewrite Hra in Hd, Hrec, Hoth, Hr'. cbn [state_of] in *.
  unfold Connections.receiver_disconnect. rewrite Hd.
  cbn [world set_world rx_heap set_receivers usernames]. rewrite Hr', E2, Husr.
  set (c2 := set_usernames _ _).
  destruct (forget_distance_fold (Receiver.uid r') (map_to_list (receivers (world c2))).*2 c2)
    as (G1 & G2 & G3 & G4 & G5).
  change (foldl _ c2 _) with (forget_distance (Receiver.uid r') c2) in *.
  set (c' := forget_distance (Receiver.uid r') c2) in *.
  assert (Hw : world c' = set_receivers (delete u) w1).
  { rewrite G1. unfold c2. cbn. rewrite ?E1, ?Hur. reflexivity. }
  assert (Hun : usernames c' = delete (Receiver.user r) (usernames c)).
  { rewrite G2. reflexivity. }
  exists c', r'. split; [reflexivity |].
  rewrite Hw, Hun. cbn [rx_heap receivers set_receivers]. rewrite Hrec, E2.
  split; [exact Hr' |]. split; [exact Hdead |]. split; [reflexivity |].
  split; [reflexivity |].
  assert (Hrest : (∀ u2 o, delete u (receivers (world c)) !! u2 = Some o →
                     distance_to c' o u = None) ∧ coord_ok c');
    [| destruct Hrest; split; [assumption |]; split; [assumption |];
       split; [reflexivity |]; split; [congruence |]; split; [exact Htr | exact Husr]].
  split.
  - intros u2 o Ho. rewrite G5, decide_True; [reflexivity |].
    split; [| congruence]. apply values_of_receivers. exists u2.
    unfold c2. cbn. rewrite ?E1, ?Hur, Hrec. exact Ho.
  - destruct Hok as [Hok1 Hok2]. split.
    + intros u2 o Ho. rewrite Hw, Hun. cbn [rx_heap receivers set_receivers] in *.
      rewrite Hw in Ho. cbn [receivers set_receivers] in Ho. rewrite Hrec in Ho.
      apply lookup_delete_Some in Ho as [Hne Ho].
      destruct (Hok1 u2 o Ho) as (r0 & Hr0 & F1 & F2 & F3).
      assert (Hox : o ≠ rx).
      { intros ->. rewrite Hr in Hr0. injection Hr0 as <-. congruence. }
      exists r0. rewrite Hoth by exact Hox. split; [exact Hr0 |]. split; [exact F1 |].
      split.
      * rewrite lookup_delete_ne; [exact F2 |]. intros Heq.
        rewrite <- Heq, Husr in F2. congruence.
      * apply G4. exact F3.
    + intros us o Ho. rewrite Hw, Hun in *. cbn [rx_heap receivers set_receivers] in *.
      apply lookup_delete_Some in Ho as [Hne Ho].
      destruct (Hok2 us o Ho) as (r0 & Hr0 & F1 & F2).
      assert (Hox : o ≠ rx).
      { intros ->. rewrite Hr in Hr0. injection Hr0 as <-. congruence. }
      exists r0. rewrite Hoth by exact Hox. split; [exact Hr0 |]. split; [exact F1 |].
      rewrite Hrec. rewrite lookup_delete_ne; [exact F2 |]. intros Heq.
      rewrite <- Heq, Hrx in F2. congruence.
Qed.

(** X21.  [receiver_disconnect] of a connected receiver whose
    [remove_all] returns: the call returns, the receiver is marked dead,
    its uid and its user name are released, no receiver that stays
    connected holds a distance for the uid, and the registries stay
    consistent. *)
Theorem receiver_disconnect_releases (rx : rid) (c : Coord) (u : Z) (w1 : World) :
  coord_ok c → receivers (world c) !! u = Some rx →
  Tracker.remove_all rx (upd_rx rx (Receiver.set_dead true) (world c)) = Returned w1 →
  ∃ c' r',
    Connections.receiver_disconnect rx c = Done tt c'
    ∧ rx_heap (world c') !! rx = Some r' ∧ Receiver.dead r' = true
    ∧ receivers (world c') = delete u (receivers (world c))
    ∧ usernames c' = delete (Receiver.user r') (usernames c)
    ∧ (∀ u2 o, receivers (world c') !! u2 = Some o → distance_to c' o u = None)
    ∧ coord_ok c'.
Proof.
  intros Hok Hrx Hra.
  destruct (receiver_disconnect_spec rx c u w1 Hok Hrx Hra)
    as (c' & r' & H1 & H2 & H3 & H4 & H5 & H6 & H7 & _).
  exists c', r'. auto 10.
Qed.

Lemma remove_all_empty (rx : rid) (w : World) (r : Receiver.t) :
  rx_heap w !! rx = Some r → Receiver.tracking r = ∅ →
  Tracker.remove_all rx w
  = Returned (upd_rx rx (λ r, Receiver.set_interest ∅ ∅ ∅
                                (Receiver.set_tracking (λ _, ∅) r)) w).
Proof.
  intros Hr Ht. unfold Tracker.remove_all. rewrite Hr, Ht, elements_empty. reflexivity.
Qed.

(** X22.  A second [receiver_disconnect] of the same receiver raises
    [KeyError], at [self.receivers.pop(receiver.uid)], and leaves the two
    registries as the first call left them. *)
Theorem receiver_disconnect_twice (rx : rid) (c : Coord) (u : Z) (w1 : World) :
  coord_ok c → receivers (world c) !! u = Some rx →
  Tracker.remove_all rx (upd_rx rx (Receiver.set_dead true) (world c)) = Returned w1 →
  ∃ c' c'',
    Connections.receiver_disconnect rx c = Done tt c'
    ∧ Connections.receiver_disconnect rx c' = Failed (Builtin KeyError) c''
    ∧ receivers (world c'') = receivers (world c')
    ∧ usernames c'' = usernames c'
    ∧ stations c'' = stations c'.
Proof.
  intros Hok Hrx Hra.
  destruct (receiver_disconnect_spec rx c u w1 Hok Hrx Hra)
    as (c' & r' & H1 & H2 & H3 & H4 & _ & _ & _ & _ & Hu & Ht & _).
  exists c'. eexists. split; [exact H1 |].
  unfold Connections.receiver_disconnect, Coordinator.receiver_disconnect. cbv zeta.
  rewrite (remove_all_empty rx _ (Receiver.set_dead true r'));
    [| cbn; rewrite lookup_alter_eq, H2; reflexivity | exact Ht].
  cbn [rx_heap upd_rx set_rx_heap receivers]. rewrite !lookup_alter_eq, H2.
  cbn [fmap option_fmap option_map Receiver.uid Receiver.set_interest
       Receiver.set_tracking Receiver.set_dead].
  rewrite Hu, H4, lookup_delete_eq.
  split; [reflexivity |]. cbn. rewrite H4. auto.
Qed.


(** ** The SIGHUP handlers *)

Lemma sighup_run_keeps (s : Sighup.t) (c : Sighup.call) :
  Sighup.installed s = negb (bool_decide (Sighup.sighup_handlers s = [])) →
  Sighup.installed (Sighup.run s c)
  = negb (bool_decide (Sighup.sighup_handlers (Sighup.run s c) = [])).
Proof.
  intros Hinv. destruct c as [h | h]; cbn [Sighup.run].
  - unfold Sighup.add_sighup_handler.
    destruct (bool_decide_reflect (Sighup.sighup_handlers s = [])) as [E | E];
      cbn [Sighup.sighup_handlers Sighup.installed].
    + rewrite bool_decide_eq_false_2; [reflexivity |].
      intros H. apply app_eq_nil in H as [_ [=]].
    + rewrite Hinv. rewrite bool_decide_eq_false_2; [reflexivity |].
      intros H. apply app_eq_nil in H as [_ [=]].
  - unfold Sighup.remove_sighup_handler.
    destruct (Sighup.list_remove h (Sighup.sighup_handlers s)) as [l |] eqn:El;
      [| exact Hinv].
    cbn [default Sighup.sighup_handlers].
    destruct (bool_decide_reflect (l = [])) as [E | E]; cbn.
    + rewrite (bool_decide_eq_true_2 (l = [])) by exact E. reflexivity.
    + rewrite Hinv, (bool_decide_eq_false_2 (l = [])) by exact E.
      destruct (Sighup.sighup_handlers s); [discriminate | reflexivity].
Qed.

(** X24.  Whatever handlers are added and removed, in whatever order and
    whether or not a removal raises, [self.sighup] is installed for
    [SIGHUP] exactly while the list of handlers is not empty. *)
Theorem sighup_installed_iff_handlers (calls : list Sighup.call) :
  let self := foldl Sighup.run Sighup.init calls in
  Sighup.installed self = negb (bool_decide (Sighup.sighup_handlers self = [])).
Proof.
  cbv zeta.
  assert (H : ∀ s, Sighup.installed s = negb (bool_decide (Sighup.sighup_handlers s = [])) →
              Sighup.installed (foldl Sighup.run s calls)
              = negb (bool_decide (Sighup.sighup_handlers (foldl Sighup.run s calls) = []))).
  { induction calls as [| c calls IH]; intros s Hs; [exact Hs |].
    cbn [foldl]. apply IH, sighup_run_keeps, Hs. }
  apply H. reflexivity.
Qed.

Lemma list_remove_last (h : nat) (l : list nat) :
  h ∉ l → Sighup.list_remove h (l ++ [h]) = Some l.
Proof.
  induction l as [| y l IH]; intros Hh; cbn [app Sighup.list_remove].
  - rewrite bool_decide_eq_true_2 by reflexivity. reflexivity.
  - apply not_elem_of_cons in Hh as [Hne Hh].
    rewrite bool_decide_eq_false_2 by auto. rewrite IH by exact Hh. reflexivity.
Qed.

(** X25.  Removing a handler that was just added, and was not in the list
    before, returns and restores the list and the installation. *)
Theorem sighup_add_remove (handler : nat) (self : Sighup.t) :
  handler ∉ Sighup.sighup_handlers self →
  Sighup.installed self = negb (bool_decide (Sighup.sighup_handlers self = [])) →
  Sighup.remove_sighup_handler handler (Sighup.add_sighup_handler handler self)
  = Some self.
Proof.
  intros Hh Hinv. destruct self as [l inst]. cbn in Hh, Hinv.
  unfold Sighup.remove_sighup_handler, Sighup.add_sighup_handler.
  cbn [Sighup.sighup_handlers Sighup.installed].
  assert (El : Sighup.list_remove handler
                 (Sighup.sighup_handlers
                    (if bool_decide (l = [])
                     then {| Sighup.sighup_handlers := l; Sighup.installed := true |}
                     else {| Sighup.sighup_handlers := l; Sighup.installed := inst |})
                  ++ [handler]) = Some l).
  { destruct (bool_decide (l = [])); apply list_remove_last, Hh. }
  rewrite El. cbn [Sighup.sighup_handlers].
  destruct (bool_decide_reflect (l = [])) as [E | E]; cbn.
  - subst l. cbn in Hinv. rewrite Hinv. reflexivity.
  - reflexivity.
Qed.

(** ** The theorems above at concrete stores *)

Lemma add_keeps_registry_ok (cfg : Config) (o : Oracle) (now : Q) (receiver : rid)
    (icao_set : list Z) (w : World) :
  registry_ok w → registry_ok (Tracker.add cfg o now receiver icao_set w).
Proof.
  unfold Tracker.add. revert w. induction icao_set as [| x l IH]; intros w H; [exact H |].
  cbn [foldl]. apply IH, add_one_registry_ok, H.
Qed.

Lemma add_keeps_store_ok (cfg : Config) (o : Oracle) (now : Q) (receiver : rid)
    (icao_set : list Z) (w : World) :
  store_ok w → store_ok (Tracker.add cfg o now receiver icao_set w).
Proof.
  unfold Tracker.add. revert w. induction icao_set as [| x l IH]; intros w H; [exact H |].
  cbn [foldl]. apply IH, add_one_store_ok, H.
Qed.

Lemma tracked_world_store_ok : store_ok tracked_world.
Proof. do 2 apply add_keeps_store_ok. exact two_receivers_store_ok. Qed.


Lemma plain_shuffle_ok : shuffle_ok (shuffle plain_oracle).
Proof. intros l. reflexivity. Qed.

Lemma empty_coord_ok (now : Q) : coord_ok (empty_coord now).
Proof. split; intros k rx H; cbn in H; rewrite lookup_empty in H; discriminate. Qed.

Lemma connect_ok (user : string) (x : Q) (c : Coord) :
  coord_ok c → usernames c !! user = None → coord_ok (connect user x c).
Proof.
  intros Hok Hu. unfold connect.
  destruct (new_receiver_spec (λ p, p) axis_distance None 0 user (x, 0, 0)%Q c Hok Hu)
    as (rx & c' & r & H1 & _ & _ & _ & _ & _ & _ & _ & _ & H10 & _); [intros f [=] |].
  rewrite H1. exact H10.
Qed.

Lemma one_connected_ok : coord_ok one_connected.
Proof. apply connect_ok; [apply empty_coord_ok | reflexivity]. Qed.

Lemma two_connected_ok : coord_ok two_connected.
Proof. apply connect_ok; [apply one_connected_ok | vm_compute; reflexivity]. Qed.

Lemma add_tracks_all_witness :
  let w' := Tracker.add example_config plain_oracle 5 0%nat [0xABCDEF; 1] two_receivers in
  (∀ icao, icao ∈ [0xABCDEF; 1] → tracked_edge 5 0%nat w' icao)
  ∧ (∀ icao ac, aircraft two_receivers !! icao = Some ac → aircraft w' !! icao = Some ac)
  ∧ (∀ icao, icao ∉ [0xABCDEF; 1] → aircraft w' !! icao = aircraft two_receivers !! icao).
Proof.
  apply (add_tracks_all example_config plain_oracle 5 0%nat [0xABCDEF; 1] two_receivers).
  - apply two_receivers_store_ok.
  - vm_compute. eauto.
Defined.


Lemma remove_unknown_witness :
  Tracker.remove 0%nat [5; 6] two_receivers = two_receivers.
Proof.
  apply remove_unknown. intros icao _. reflexivity.
Defined.


Lemma update_interest_frame_witness :
  let w' := Tracker.update_interest example_config plain_oracle 200 0%nat tracked_world in
  aircraft w' = aircraft tracked_world
  ∧ receivers w' = receivers tracked_world
  ∧ same_aircraft tracked_world w'
  ∧ (∀ r2, r2 ≠ 0%nat → rx_heap w' !! r2 = rx_heap tracked_world !! r2)
  ∧ scheduled w' = scheduled tracked_world ++ [0%nat].
Proof.
  intros w'.
  edestruct (update_interest_frame example_config plain_oracle 200 0%nat tracked_world)
    as (H1 & H2 & H3 & H4 & _ & H6); [vm_compute; reflexivity |].
  auto.
Defined.

Lemma legacy_interest_witness :
  let w' := Tracker.update_interest example_config plain_oracle 200 0%nat tracked_world in
  ∃ r', rx_heap w' !! 0%nat = Some r'
    ∧ Receiver.adsb_seen r' = ∅
    ∧ Receiver.sync_interest r' ⊆ {[0%nat]}
    ∧ Receiver.mlat_interest r' ⊆ {[0%nat]}.
Proof.
  intros w'.
  edestruct (legacy_interest example_config plain_oracle 200 0%nat tracked_world)
    as (r' & H1 & H2 & H3 & H4 & _);
    [exact take_sample_ok | vm_compute; reflexivity | reflexivity |].
  exists r'. auto.
Defined.

Lemma receiver_rate_report_interest_witness :
  let w' := Coordinator.receiver_rate_report example_config plain_oracle 200 0%nat
              [(0xABCDEF, 1%Q)] tracked_by_one in
  ∃ r', rx_heap w' !! 0%nat = Some r'
    ∧ Receiver.last_rate_report r' = Some [(0xABCDEF, 1%Q)]
    ∧ (∀ ac, ac ∈ Receiver.adsb_seen r' ↔ reported tracked_by_one [(0xABCDEF, 1%Q)] ac)
    ∧ Receiver.sync_interest r' ⊆ Receiver.adsb_seen r' ∪ ∅
    ∧ Receiver.mlat_interest r' ⊆ ∅.
Proof.
  intros w'.
  edestruct (receiver_rate_report_interest example_config plain_oracle 200 0%nat
               [(0xABCDEF, 1%Q)] tracked_by_one) as (r' & H1 & H2 & H3 & H4 & H5);
    [exact take_sample_ok | exact plain_shuffle_ok
    | apply add_keeps_registry_ok, two_receivers_store_ok
    | vm_compute; reflexivity |].
  exists r'. auto.
Defined.


Lemma sync_interest_floor_witness :
  let w' := Tracker.update_interest example_config plain_oracle 200 0%nat crowded_world in
  ∃ r', rx_heap w' !! 0%nat = Some r'
    ∧ (5 ≤ size (Receiver.sync_interest r'))%nat.
Proof.
  intros w'.
  edestruct (sync_interest_floor example_config plain_oracle 200 0%nat crowded_world)
    as (r' & H1 & H2); [exact take_sample_ok | vm_compute; reflexivity |].
  exists r'. split; [exact H1 |].
  change (5 ≤ size (Receiver.sync_interest r'))%nat with
    (Nat.min (20 / 4) 21 ≤ size (Receiver.sync_interest r'))%nat.
  exact H2.
Defined.

Lemma selected_aircraft_interesting_witness :
  let w' := Tracker.update_interest example_config plain_oracle 200 0%nat tracked_world in
  ∃ r', rx_heap w' !! 0%nat = Some r'
    ∧ ∀ a, a ∈ Receiver.sync_interest r' ∪ Receiver.mlat_interest r' →
        ∃ ao, ac_heap w' !! a = Some ao
          ∧ (a ∈ Receiver.sync_interest r' ∨ TrackedAircraft.allow_mlat ao = true →
             TrackedAircraft.interesting ao = true).
Proof.
  eapply (selected_aircraft_interesting example_config plain_oracle 200 0%nat tracked_world).
  - exact take_sample_ok.
  - exact plain_shuffle_ok.
  - exact tracked_world_store_ok.
  - vm_compute. reflexivity.
Defined.

Lemma tracking_add_legacy_sync_witness :
  let w' := Coordinator.receiver_tracking_add example_config plain_oracle 5 0%nat
              [0xABCDEF; 1] two_receivers in
  ∃ r', rx_heap w' !! 0%nat = Some r'
    ∧ Receiver.sync_interest r' = Receiver.tracking r'
    ∧ ∀ icao, icao ∈ [0xABCDEF; 1] →
        ∃ ac, aircraft w' !! icao = Some ac ∧ ac ∈ Receiver.sync_interest r'.
Proof.
  intros w'.
  edestruct (tracking_add_legacy_sync example_config plain_oracle 5 0%nat [0xABCDEF; 1]
               two_receivers) as (r' & H1 & _ & H3 & H4);
    [vm_compute; reflexivity | reflexivity | vm_compute; discriminate
    | vm_compute; lia |].
  exists r'. auto.
Defined.


Lemma new_receiver_failure_witness :
  let c' := set_uidCounter 1 one_connected in
  world c' = world one_connected
  ∧ stations c' = stations one_connected
  ∧ usernames c' = usernames one_connected
  ∧ (is_Some (usernames one_connected !! "b") → uidCounter c' = uidCounter one_connected).
Proof.
  apply (new_receiver_failure (λ p, p) axis_distance (Some (λ _, None)) 0 "b"
           (3, 0, 0)%Q one_connected ValueError).
  vm_compute. reflexivity.
Defined.

Lemma new_receiver_distances_witness :
  ∃ rx c',
    new_receiver (λ p, p) axis_distance None 0 "b" (3, 0, 0)%Q one_connected = Done rx c'
    ∧ (∀ u o, receivers (world one_connected) !! u = Some o →
         ∃ s, stations one_connected !! o = Some s
           ∧ distance_to c' rx u = Some (axis_distance (3, 0, 0)%Q (position s))
           ∧ distance_to c' o (uidCounter c')
             = Some (axis_distance (3, 0, 0)%Q (position s)))
    ∧ distance_to c' rx (uidCounter c') = None
    ∧ (∀ o u, o ≠ rx → u ≠ uidCounter c' →
         distance_to c' o u = distance_to one_connected o u).
Proof.
  apply (new_receiver_distances (λ p, p) axis_distance 0 "b" (3, 0, 0)%Q one_connected).
  - exact one_connected_ok.
  - vm_compute. reflexivity.
Defined.

Lemma location_update_distances_witness :
  let c' := receiver_location_update (λ p, p) axis_distance 0%nat (7, 0, 0)%Q
              two_connected in
  world c' = world two_connected ∧ usernames c' = usernames two_connected
  ∧ uidCounter c' = uidCounter two_connected
  ∧ coord_ok c'
  ∧ position <$> stations c' !! 0%nat = Some (7, 0, 0)%Q
  ∧ distance_to c' 0%nat 0 = Some 0%Q.
Proof.
  intros c'.
  destruct (location_update_distances (λ p, p) axis_distance 0%nat (7, 0, 0)%Q
              two_connected 0) as (H1 & H2 & H3 & H4 & H5 & H6 & _);
    [exact two_connected_ok | vm_compute; reflexivity |].
  auto 10.
Defined.

Lemma receiver_disconnect_releases_witness :
  ∃ c' r',
    Connections.receiver_disconnect 0%nat two_connected = Done tt c'
    ∧ rx_heap (world c') !! 0%nat = Some r' ∧ Receiver.dead r' = true
    ∧ receivers (world c') = delete 0 (receivers (world two_connected))
    ∧ usernames c' = delete (Receiver.user r') (usernames two_connected)
    ∧ (∀ u2 o, receivers (world c') !! u2 = Some o → distance_to c' o 0 = None)
    ∧ coord_ok c'.
Proof.
  eapply (receiver_disconnect_releases 0%nat two_connected 0).
  - exact two_connected_ok.
  - vm_compute. reflexivity.
  - vm_compute. reflexivity.
Defined.

Lemma receiver_disconnect_twice_witness :
  ∃ c' c'',
    Connections.receiver_disconnect 0%nat two_connected = Done tt c'
    ∧ Connections.receiver_disconnect 0%nat c' = Failed (Builtin KeyError) c''
    ∧ receivers (world c'') = receivers (world c')
    ∧ usernames c'' = usernames c'
    ∧ stations c'' = stations c'.
Proof.
  eapply (receiver_disconnect_twice 0%nat two_connected 0).
  - exact two_connected_ok.
  - vm_compute. reflexivity.
  - vm_compute. reflexivity.
Defined.


Lemma sighup_add_remove_witness :
  Sighup.remove_sighup_handler 2%nat
    (Sighup.add_sighup_handler 2%nat
       {| Sighup.sighup_handlers := [1%nat]; Sighup.installed := true |})
  = Some {| Sighup.sighup_handlers := [1%nat]; Sighup.installed := true |}.
Proof.
  apply sighup_add_remove.
  - cbn. intros [=]%list_elem_of_singleton.
  - reflexivity.
Defined.
